(** * Tutor virtual: progress analytics and result finalisation

A shallow embedding of [backend/src/routes/progresoRoutes.js] and
[backend/src/routes/resultados.js]: the day-key normalisation, the
streak, the weekly summary, the frequent-errors ranking, the
recommendation policy, the JSON extraction and the classifier call with
its single retry and its failure statuses.

Conventions of the embedding.
- A JavaScript string is a [string]: one character per UTF-16 code unit,
  for code units below 256 (the Latin-1 range).
- A time value is a [Z], the number of milliseconds since the epoch; a
  [Date] is an [option Z], [None] being the invalid date (NaN).
- JavaScript numbers that the handlers compute (means, differences of
  time values) are kept exact, in [Z] or [Q].
- What the platform provides and the repository does not define (the
  time-zone database, [JSON.parse], [Date.parse] on other formats than
  the one the code builds, the data store, the remote classifier) is a
  [Variable] of the section that uses it; executable instances are given
  for the examples. *)

From Stdlib Require Import ZArith QArith List Bool Ascii String Lia Lqa.
From Stdlib Require Import Sorted Permutation DecimalString DecimalN OrderedTypeEx.
Import ListNotations.

Local Close Scope Q_scope.
Local Open Scope string_scope.
Local Open Scope list_scope.
Local Open Scope Z_scope.

(* ================================================================== *)
(** * Strings *)

Module JsString.

Local Open Scope string_scope.
Local Open Scope Z_scope.

Definition codeUnit (c : ascii) : Z := Z.of_N (N_of_ascii c).

(** [WhiteSpace] and [LineTerminator] of ECMAScript, below 256. *)
Definition isWhiteSpace (c : ascii) : bool :=
  let n := codeUnit c in
  ((9 <=? n) && (n <=? 13)) || (n =? 32) || (n =? 160).

Fixpoint trimStart (s : string) : string :=
  match s with
  | EmptyString => EmptyString
  | String c s' => if isWhiteSpace c then trimStart s' else s
  end.

Fixpoint trimEnd (s : string) : string :=
  match s with
  | EmptyString => EmptyString
  | String c s' =>
      match trimEnd s' with
      | EmptyString => if isWhiteSpace c then EmptyString else String c EmptyString
      | t => String c t
      end
  end.

(** [String.prototype.trim] *)
Definition trim (s : string) : string := trimEnd (trimStart s).

Definition lowerChar (c : ascii) : ascii :=
  let n := codeUnit c in
  if ((65 <=? n) && (n <=? 90))
     || ((192 <=? n) && (n <=? 222) && negb (n =? 215))
  then ascii_of_N (Z.to_N (n + 32)) else c.

(** [String.prototype.toLowerCase] *)
Fixpoint toLowerCase (s : string) : string :=
  match s with
  | EmptyString => EmptyString
  | String c s' => String (lowerChar c) (toLowerCase s')
  end.

(** [s.startsWith(p)] *)
Definition startsWith (s p : string) : bool := prefix p s.

(** [s.includes(sub)] *)
Fixpoint includes (s sub : string) : bool :=
  match s with
  | EmptyString => prefix sub EmptyString
  | String _ s' => prefix sub s || includes s' sub
  end.

Fixpoint drop (n : nat) (s : string) : string :=
  match n, s with
  | O, _ => s
  | S n', String _ s' => drop n' s'
  | S _, EmptyString => EmptyString
  end.

Fixpoint take (n : nat) (s : string) : string :=
  match n, s with
  | O, _ => EmptyString
  | S n', String c s' => String c (take n' s')
  | S _, EmptyString => EmptyString
  end.

(** [s.endsWith(p)] *)
Definition endsWith (s p : string) : bool :=
  (length p <=? length s)%nat
  && (drop (length s - length p) s =? p)%string.

(** [Array.prototype.join] on strings *)
Fixpoint join (sep : string) (l : list string) : string :=
  match l with
  | [] => ""
  | [x] => x
  | x :: rest => x ++ sep ++ join sep rest
  end.

(** The suffix of [s] that starts at the first occurrence of [c]. *)
Fixpoint fromFirst (c : ascii) (s : string) : option string :=
  match s with
  | EmptyString => None
  | String a s' => if Ascii.eqb a c then Some s else fromFirst c s'
  end.

(** The prefix of [s] that ends at the last occurrence of [c]. *)
Fixpoint throughLast (c : ascii) (s : string) : option string :=
  match s with
  | EmptyString => None
  | String a s' =>
      match throughLast c s' with
      | Some t => Some (String a t)
      | None => if Ascii.eqb a c then Some (String a EmptyString) else None
      end
  end.

(** Decimal digits. *)
Definition digitValue (c : ascii) : option Z :=
  let n := codeUnit c in
  if (48 <=? n) && (n <=? 57) then Some (n - 48) else None.

Fixpoint digitsValue (acc : Z) (s : string) : option Z :=
  match s with
  | EmptyString => Some acc
  | String c s' =>
      match digitValue c with
      | Some d => digitsValue (10 * acc + d) s'
      | None => None
      end
  end.

(** The value of a non-empty string of decimal digits. *)
Definition parseDigits (s : string) : option Z :=
  match s with
  | EmptyString => None
  | _ => digitsValue 0 s
  end.

(** The decimal numeral of a natural number. *)
Definition decimal (n : Z) : string :=
  NilZero.string_of_uint (N.to_uint (Z.to_N n)).

(** Two digits, zero padded ([2-digit] fields of [Intl.DateTimeFormat]). *)
Definition pad2 (n : Z) : string :=
  if n <? 10 then "0" ++ decimal n else decimal n.

(** Literals of the source with accented letters are written here as in
    the source file, in UTF-8; [lit] turns the two-byte sequences of the
    code points below 256 into the single code unit they stand for. *)
Fixpoint lit (s : string) : string :=
  match s with
  | EmptyString => EmptyString
  | String c s' =>
      match s' with
      | String d s'' =>
          if codeUnit c =? 194 then String d (lit s'')
          else if codeUnit c =? 195
               then String (ascii_of_N (Z.to_N (codeUnit d + 64))) (lit s'')
               else String c (lit s')
      | EmptyString => String c EmptyString
      end
  end.

End JsString.

(* ================================================================== *)
(** * Time values and dates (ECMAScript, sections "Time Values and Time
      Range" to "Date Prototype") *)

Module JsDate.

Definition msPerDay : Z := 86400000.
Definition msPerHour : Z := 3600000.
Definition msPerMinute : Z := 60000.
Definition msPerSecond : Z := 1000.

Definition Day (t : Z) : Z := t / msPerDay.
Definition TimeWithinDay (t : Z) : Z := t mod msPerDay.

Definition DayFromYear (y : Z) : Z :=
  365 * (y - 1970) + (y - 1969) / 4 - (y - 1901) / 100 + (y - 1601) / 400.

Definition DaysInYear (y : Z) : Z := DayFromYear (y + 1) - DayFromYear y.

(** The year [y] with [DayFromYear y <= d < DayFromYear (y + 1)], from the
    mean length of a Gregorian year and one step of adjustment. *)
Definition YearFromDay (d : Z) : Z :=
  let y0 := 1970 + (d * 400) / 146097 in
  if d <? DayFromYear y0 then y0 - 1
  else if DayFromYear (y0 + 1) <=? d then y0 + 1
  else y0.

Definition YearFromTime (t : Z) : Z := YearFromDay (Day t).

Definition InLeapYear (t : Z) : Z :=
  if DaysInYear (YearFromTime t) =? 366 then 1 else 0.

Definition DayWithinYear (t : Z) : Z := Day t - DayFromYear (YearFromTime t).

(** Number of days of the year before month [m] (0 = January). *)
Definition monthStart (leap m : Z) : Z :=
  match m with
  | 0 => 0
  | 1 => 31
  | 2 => 59 + leap
  | 3 => 90 + leap
  | 4 => 120 + leap
  | 5 => 151 + leap
  | 6 => 181 + leap
  | 7 => 212 + leap
  | 8 => 243 + leap
  | 9 => 273 + leap
  | 10 => 304 + leap
  | _ => 334 + leap
  end.

Definition monthOfDay (leap dwy : Z) : Z :=
  if dwy <? 31 then 0
  else if dwy <? 59 + leap then 1
  else if dwy <? 90 + leap then 2
  else if dwy <? 120 + leap then 3
  else if dwy <? 151 + leap then 4
  else if dwy <? 181 + leap then 5
  else if dwy <? 212 + leap then 6
  else if dwy <? 243 + leap then 7
  else if dwy <? 273 + leap then 8
  else if dwy <? 304 + leap then 9
  else if dwy <? 334 + leap then 10
  else 11.

Definition MonthFromTime (t : Z) : Z :=
  monthOfDay (InLeapYear t) (DayWithinYear t).

Definition DateFromTime (t : Z) : Z :=
  DayWithinYear t - monthStart (InLeapYear t) (MonthFromTime t) + 1.

(** 0 = Sunday *)
Definition WeekDay (t : Z) : Z := (Day t + 4) mod 7.

Definition MakeTime (hour min sec ms : Z) : Z :=
  hour * msPerHour + min * msPerMinute + sec * msPerSecond + ms.

Definition MakeDay (year month date : Z) : Z :=
  let ym := year + month / 12 in
  let mn := month mod 12 in
  let leap := if DaysInYear ym =? 366 then 1 else 0 in
  DayFromYear ym + monthStart leap mn + date - 1.

Definition MakeDate (day time : Z) : Z := day * msPerDay + time.

Definition maxTime : Z := 8640000000000000.

Definition TimeClip (t : Z) : option Z :=
  if Z.abs t <=? maxTime then Some t else None.

(** A time zone: the offset from UTC, in milliseconds, in force at a UTC
    time value and at a local time value ([LocalTZA(t, true)] and
    [LocalTZA(t, false)]). *)
Record TimeZone : Type := {
  offsetAtUtc : Z -> Z;
  offsetAtLocal : Z -> Z
}.

Definition LocalTime (tz : TimeZone) (t : Z) : Z := t + offsetAtUtc tz t.
Definition UTC (tz : TimeZone) (t : Z) : Z := t - offsetAtLocal tz t.

(** [Date.prototype.getDate] *)
Definition getDate (host : TimeZone) (tv : option Z) : option Z :=
  match tv with
  | Some t => Some (DateFromTime (LocalTime host t))
  | None => None
  end.

(** [Date.prototype.setDate]: the new time value of the receiver. *)
Definition setDate (host : TimeZone) (tv : option Z) (dt : option Z) : option Z :=
  match tv, dt with
  | Some t0, Some d =>
      let t := LocalTime host t0 in
      let newDate :=
        MakeDate (MakeDay (YearFromTime t) (MonthFromTime t) d) (TimeWithinDay t) in
      TimeClip (UTC host newDate)
  | _, _ => None
  end.

(** A zone with a constant offset. *)
Definition fixedZone (offset : Z) : TimeZone :=
  {| offsetAtUtc := fun _ => offset; offsetAtLocal := fun _ => offset |}.

Definition tzUTC : TimeZone := fixedZone 0.

(** Central European time under the rule in force since 1996 (and the one
    of Europe/Madrid): UTC+1, and UTC+2 from 01:00 UTC of the last Sunday
    of March to 01:00 UTC of the last Sunday of October. *)
Definition lastSunday (year month : Z) : Z :=
  let d := MakeDay year month 31 in
  d - (d + 4) mod 7.

Definition cetSummerUtc (t : Z) : bool :=
  let y := YearFromTime t in
  (lastSunday y 2 * msPerDay + msPerHour <=? t)
  && (t <? lastSunday y 9 * msPerDay + msPerHour).

(** On the local clock the hour from 02:00 to 03:00 is skipped in March
    and repeated in October; both are read with the offset in force before
    the transition. *)
Definition cetSummerLocal (t : Z) : bool :=
  let y := YearFromTime t in
  (lastSunday y 2 * msPerDay + 3 * msPerHour <=? t)
  && (t <? lastSunday y 9 * msPerDay + 3 * msPerHour).

Definition tzMadrid : TimeZone :=
  {| offsetAtUtc := fun t => if cetSummerUtc t then 2 * msPerHour else msPerHour;
     offsetAtLocal := fun t => if cetSummerLocal t then 2 * msPerHour else msPerHour |}.

(** The time value of a civil date and time of day read as UTC. *)
Definition utcOf (y m d hh mi ss : Z) : Z :=
  MakeDate (MakeDay y (m - 1) d) (MakeTime hh mi ss 0).

(** [Date.parse] on the local date-time form [YYYY-MM-DDTHH:mm:ss], which
    has no offset and is therefore read in the host's zone. This is the
    form of the strings that [computeStreak] builds from its day-keys; the
    other forms that JavaScript reads (with an offset, with milliseconds,
    a date alone) are not described here, and [None] for them says nothing
    of JavaScript. *)
Definition parseIsoLocal (host : TimeZone) (s : string) : option Z :=
  let field i n := JsString.parseDigits (substring i n s) in
  let sep i c := (substring i 1 s =? c)%string in
  if (String.length s =? 19)%nat
     && sep 4%nat "-" && sep 7%nat "-" && sep 10%nat "T"
     && sep 13%nat ":" && sep 16%nat ":"
  then
    match field 0%nat 4%nat, field 5%nat 2%nat, field 8%nat 2%nat,
          field 11%nat 2%nat, field 14%nat 2%nat, field 17%nat 2%nat with
    | Some y, Some m, Some d, Some hh, Some mi, Some ss =>
        if (1 <=? m) && (m <=? 12) && (1 <=? d) && (d <=? 31)
           && (hh <=? 23) && (mi <=? 59) && (ss <=? 59)
        then TimeClip (UTC host (utcOf y m d hh mi ss))
        else None
    | _, _, _, _, _, _ => None
    end
  else None.

End JsDate.

(* ================================================================== *)
(** * Objects used as maps, sets, and [Array.prototype.sort] *)

Module JsObject.

(** The own properties of an object created by [{}], in creation order. *)
Definition t (V : Type) : Type := list (string * V).

(** The members every such object inherits from [Object.prototype]. *)
Definition inheritedNames : list string :=
  [ "constructor"; "__defineGetter__"; "__defineSetter__"; "hasOwnProperty";
    "__lookupGetter__"; "__lookupSetter__"; "isPrototypeOf";
    "propertyIsEnumerable"; "toString"; "valueOf"; "__proto__";
    "toLocaleString" ].

Definition inherited (k : string) : bool :=
  existsb (String.eqb k) inheritedNames.

Section Ops.
  Context {V : Type}.

Fixpoint getOwn (o : t V) (k : string) : option V :=
  match o with
  | [] => None
  | (k', v) :: o' => if (k' =? k)%string then Some v else getOwn o' k
  end.

(** [o[k] = v] for a key that is own or not inherited. *)
Fixpoint setOwn (o : t V) (k : string) (v : V) : t V :=
  match o with
  | [] => [(k, v)]
  | (k', v') :: o' =>
      if (k' =? k)%string then (k', v) :: o' else (k', v') :: setOwn o' k v
  end.

(** Whether [o[k]] is truthy, for an object whose own values are objects:
    an own property, or an inherited member. *)
Definition truthyAt (o : t V) (k : string) : bool :=
  match getOwn o k with
  | Some _ => true
  | None => inherited k
  end.

(** An array index: the canonical numeral of an integer below 2^32 - 1. *)
Definition arrayIndex (k : string) : option Z :=
  match JsString.parseDigits k with
  | Some n =>
      if (JsString.decimal n =? k)%string && (n <=? 4294967294)
      then Some n else None
  | None => None
  end.

Definition isIndex (p : string * V) : bool :=
  match arrayIndex (fst p) with Some _ => true | None => false end.

Fixpoint insertIndex (p : string * V) (l : t V) : t V :=
  match l with
  | [] => [p]
  | q :: l' =>
      match arrayIndex (fst p), arrayIndex (fst q) with
      | Some i, Some j => if i <=? j then p :: l else q :: insertIndex p l'
      | _, _ => p :: l
      end
  end.

(** [OrdinaryOwnPropertyKeys]: the array indices in ascending order, then
    the other keys in creation order. *)
Definition ownEntries (o : t V) : t V :=
  fold_right insertIndex [] (filter isIndex o)
  ++ filter (fun p => negb (isIndex p)) o.

(** [Object.keys(o)] *)
Definition keys (o : t V) : list string := map fst (ownEntries o).

(** [Object.values(o)] *)
Definition values (o : t V) : list V := map snd (ownEntries o).

End Ops.

End JsObject.

Module JsArray.

Section Sort.
  Context {A : Type}.
  (** The sign of the comparator: [Lt] when it is negative (the first
      argument goes first), [Gt] when it is positive. *)
  Variable cmp : A -> A -> comparison.

Fixpoint insertSorted (x : A) (l : list A) : list A :=
  match l with
  | [] => [x]
  | y :: l' =>
      match cmp x y with
      | Gt => y :: insertSorted x l'
      | _ => x :: l
      end
  end.

(** [Array.prototype.sort(cmp)], which is stable. *)
Definition sort (l : list A) : list A := fold_right insertSorted [] l.

End Sort.

(** [arr.sort()] on strings: by code units. *)
Definition sortStrings (l : list string) : list string := sort String.compare l.

(** [arr.slice(0, n)] *)
Definition slice0 {A : Type} (n : nat) (l : list A) : list A := firstn n l.

End JsArray.

Module JsSet.

(** A [Set] of strings, in insertion order. *)
Definition t : Type := list string.

Definition has (s : t) (k : string) : bool := existsb (String.eqb k) s.

Definition add (s : t) (k : string) : t := if has s k then s else s ++ [k].

(** [new Set(iterable)] *)
Definition ofList (l : list string) : t := fold_left add l [].

Definition size (s : t) : Z := Z.of_nat (List.length s).

End JsSet.

(** Truthiness of a string that is absent when empty. *)
Definition truthyStr (s : string) : bool := negb (s =? "")%string.

(** [a || b] on such strings. *)
Definition orStr (a b : string) : string := if truthyStr a then a else b.

(** The outcome of a call to the data store. *)
Inductive DbResult (A : Type) : Type :=
| DbOk (a : A)
| DbThrows.
Arguments DbOk {A} a.
Arguments DbThrows {A}.

(** The response of a handler: the status and the JSON body. *)
Record HttpResponse (B : Type) : Type := {
  status : Z;
  body : B
}.
Arguments status {B} _.
Arguments body {B} _.

(** An entry of [errores] in a result (models/resultado). *)
Record ErrorTag : Type := {
  etiqueta : string;
  texto : string
}.

(* ================================================================== *)
(** * progresoRoutes.js *)

Module Progreso.

Import JsDate.

(** What [dayKeyMadrid] and [computeStreak] receive: a missing value
    ([null] or [undefined]), a [Date] object, or a string. *)
Inductive DateArg : Type :=
| DMissing
| DDate (tv : option Z)
| DString (s : string).

Section Streak.

(** The offset of Europe/Madrid from UTC at a time value, as the
    [Intl.DateTimeFormat] of the platform knows it. *)
Variable madridOffset : Z -> Z.
(** [Date.parse] of the host: [new Date(string)]. *)
Variable Date_parse : string -> option Z.

(** [new Intl.DateTimeFormat("en-CA", {timeZone: "Europe/Madrid", year:
    "numeric", month: "2-digit", day: "2-digit"}).formatToParts(d)]: the
    parts, each with its type and its value. The year is the year of the
    era. *)
Definition formatToParts (t : Z) : list (string * string) :=
  let l := t + madridOffset t in
  let y := YearFromTime l in
  [ ("year", JsString.decimal (if y <=? 0 then 1 - y else y));
    ("literal", "-");
    ("month", JsString.pad2 (MonthFromTime l + 1));
    ("literal", "-");
    ("day", JsString.pad2 (DateFromTime l)) ].

(** [parts.find((p) => p.type === type)?.value] *)
Definition partValue (type : string) (parts : list (string * string)) : string :=
  match find (fun p => (fst p =? type)%string) parts with
  | Some p => snd p
  | None => ""
  end.

Definition keyOfTime (tv : option Z) : option string :=
  match tv with
  | None => None
  | Some t =>
      let parts := formatToParts t in
      let y := partValue "year" parts in
      let m := partValue "month" parts in
      let da := partValue "day" parts in
      if truthyStr y && truthyStr m && truthyStr da
      then Some (y ++ "-" ++ m ++ "-" ++ da)%string
      else None
  end.

Definition dayKeyMadrid (date : DateArg) : option string :=
  match date with
  | DMissing => None
  | DDate tv => keyOfTime tv
  | DString s => if truthyStr s then keyOfTime (Date_parse s) else None
  end.

(** The set built by the first loop of [computeStreak]. *)
Definition addDay (set : JsSet.t) (dt : DateArg) : JsSet.t :=
  match dayKeyMadrid dt with
  | Some k => if truthyStr k then JsSet.add set k else set
  | None => set
  end.

Definition daySet (dates : list DateArg) : JsSet.t := fold_left addDay dates [].

(** [diff === 1] for [a = new Date(x + "T00:00:00")] and
    [b = new Date(y + "T00:00:00")], [diff = (a - b) / (1000*60*60*24)]. *)
Definition oneDayApart (x y : string) : bool :=
  match Date_parse (x ++ "T00:00:00")%string, Date_parse (y ++ "T00:00:00")%string with
  | Some a, Some b => a - b =? 1000 * 60 * 60 * 24
  | _, _ => false
  end.

(** The second loop, on the days from the most recent one backwards:
    the number of times [streak] is incremented before the [break]. *)
Fixpoint walkBack (desc : list string) : Z :=
  match desc with
  | x :: rest =>
      match rest with
      | y :: _ => if oneDayApart x y then 1 + walkBack rest else 0
      | [] => 0
      end
  | [] => 0
  end.

Definition computeStreak (dates : list DateArg) : Z :=
  let set := daySet dates in
  if JsSet.size set =? 0 then 0
  else
    let days := JsArray.sortStrings set in
    1 + walkBack (rev days).

End Streak.

(** ** The records of the store *)

(** An exercise document: [_id.toString()], the document's own
    [toString()], and the selected fields (empty when absent). *)
Record Ejercicio : Type := {
  ej_id : string;
  ej_toString : string;
  ej_titulo : string;
  ej_concepto : string
}.

(** [ejercicio_id] of a result: [null] (nothing to populate), an
    [ObjectId] left as it is (its 24 hexadecimal digits), or the populated
    document. *)
Inductive EjRef : Type :=
| RefNull
| RefId (hex : string)
| RefDoc (e : Ejercicio).

Record Resultado : Type := {
  ejercicio_id : EjRef;
  fecha : option Z;
  createdAt : option Z;
  updatedAt : option Z;
  numMensajes : Z;
  analisisIA : string;
  consejoIA : string;
  errores : list ErrorTag
}.

(** [r.ejercicio_id?.concepto] *)
Definition refConcepto (r : EjRef) : string :=
  match r with RefDoc e => ej_concepto e | _ => "" end.

(** [r.ejercicio_id?.titulo] *)
Definition refTitulo (r : EjRef) : string :=
  match r with RefDoc e => ej_titulo e | _ => "" end.

(** The callback of [ejerciciosUnicosSemana]: the identifier of the
    populated document, else the string of the raw reference, else [null]
    (the empty string here). *)
Definition refIdString (r : EjRef) : string :=
  match r with
  | RefNull => ""
  | RefId hex => hex
  | RefDoc e => orStr (ej_id e) (ej_toString e)
  end.

(** ** The body of the response *)

Record Eficiencia : Type := {
  concepto : string;
  interacciones : Q
}.

Record ResumenSemanal : Type := {
  ejerciciosCompletados : Z;
  conceptosDistintos : Z;
  rachaDias : Z
}.

Record UltimaSesion : Type := {
  tituloEjercicio : string;
  analisis : string;
  consejo : string
}.

Record ErrorFrecuente : Type := {
  err_etiqueta : string;
  err_texto : string;
  veces : Z
}.

Record Recomendacion : Type := {
  titulo : string;
  motivo : string;
  ejercicioId : option string;
  rec_concepto : string
}.

Record Resumen : Type := {
  interaccionesMedias : Q;
  eficienciaPorConcepto : list Eficiencia;
  resumenSemanal : ResumenSemanal;
  ultimaSesion : UltimaSesion;
  erroresFrecuentes : list ErrorFrecuente;
  recomendacion : Recomendacion
}.

Inductive Body : Type :=
| BResumen (p : Resumen)
| BMessage (message : string).

Definition motivoInicial : string :=
  JsString.lit "Haz un ejercicio para que el tutor pueda recomendarte una práctica personalizada.".
Definition motivoErrores : string :=
  JsString.lit "Recomendación basada en tus errores recientes.".
Definition motivoUltimaSesion : string :=
  JsString.lit "Revisa el concepto de tu última sesión y prueba un ejercicio similar.".
Definition motivoActividad : string :=
  JsString.lit "Te recomiendo reforzar este concepto según tu actividad reciente.".
Definition motivoRefuerza (c : string) : string :=
  ("Refuerza el concepto: " ++ c ++ ".")%string.

Definition recomendacionInicial : Recomendacion :=
  {| titulo := ""; motivo := motivoInicial; ejercicioId := None; rec_concepto := "" |}.

Definition bienvenida : Resumen :=
  {| interaccionesMedias := 0%Q;
     eficienciaPorConcepto := [];
     resumenSemanal :=
       {| ejerciciosCompletados := 0; conceptosDistintos := 0; rachaDias := 0 |};
     ultimaSesion :=
       {| tituloEjercicio := JsString.lit "¡Bienvenido!";
          analisis := JsString.lit "Aún no has completado ningún ejercicio.";
          consejo := JsString.lit "Empieza con uno para ver aquí tu progreso." |};
     erroresFrecuentes := [];
     recomendacion := recomendacionInicial |}.

(** ** A) Mean interactions *)

Definition totalInteracciones (rs : list Resultado) : Z :=
  fold_left (fun sum r => sum + numMensajes r) rs 0.

(** ** B) Difficulty per concept *)

Record Acumulado : Type := { total : Z; count : Z }.

(** One turn of the loop over [todosResultados]. A concept that names a
    member of [Object.prototype] finds that member instead of an
    accumulator, and the updates land on it, not on [eficiencia]. *)
Definition acumular (eficiencia : JsObject.t Acumulado) (r : Resultado)
  : JsObject.t Acumulado :=
  let c := refConcepto (ejercicio_id r) in
  if negb (truthyStr c) then eficiencia
  else
    let e1 :=
      if negb (JsObject.truthyAt eficiencia c)
      then JsObject.setOwn eficiencia c {| total := 0; count := 0 |}
      else eficiencia in
    match JsObject.getOwn e1 c with
    | Some a =>
        JsObject.setOwn e1 c {| total := total a + numMensajes r; count := count a + 1 |}
    | None => e1
    end.

Definition eficienciaDe (rs : list Resultado) : JsObject.t Acumulado :=
  fold_left acumular rs [].

(** [Object.keys(eficiencia).map(...)]: each key with its own accumulator. *)
Definition porConcepto (eficiencia : JsObject.t Acumulado) : list Eficiencia :=
  map (fun p => {| concepto := fst p;
                   interacciones := (inject_Z (total (snd p)) / inject_Z (count (snd p)))%Q |})
      (JsObject.ownEntries eficiencia).

(** ** E) Frequent errors *)

(** One turn of the inner loop over [r.errores]. *)
Definition contar (mapaErrores : JsObject.t ErrorFrecuente) (e : ErrorTag)
  : JsObject.t ErrorFrecuente :=
  if negb (truthyStr (etiqueta e)) then mapaErrores
  else
    let m1 :=
      if negb (JsObject.truthyAt mapaErrores (etiqueta e))
      then JsObject.setOwn mapaErrores (etiqueta e)
             {| err_etiqueta := etiqueta e;
                err_texto := orStr (texto e) (etiqueta e);
                veces := 0 |}
      else mapaErrores in
    match JsObject.getOwn m1 (etiqueta e) with
    | Some x =>
        JsObject.setOwn m1 (etiqueta e)
          {| err_etiqueta := err_etiqueta x; err_texto := err_texto x;
             veces := veces x + 1 |}
    | None => m1
    end.

Definition mapaErroresDe (rs : list Resultado) : JsObject.t ErrorFrecuente :=
  fold_left (fun m r => fold_left contar (errores r) m) rs [].

(** The comparator [(a, b) => b.veces - a.veces]. *)
Definition porVeces (a b : ErrorFrecuente) : comparison := (veces b - veces a ?= 0).

Definition erroresFrecuentesDe (rs : list Resultado) : list ErrorFrecuente :=
  JsArray.slice0 3 (JsArray.sort porVeces (JsObject.values (mapaErroresDe rs))).

(** ** F) Recommendation *)

Definition hasRealErrors (frecuentes : list ErrorFrecuente) : bool :=
  existsb (fun e => truthyStr (err_etiqueta e)
                    && negb (err_etiqueta e =? "AC_UNK")%string) frecuentes.

(** The comparator [(a, b) => b.interacciones - a.interacciones]. *)
Definition porInteracciones (a b : Eficiencia) : comparison :=
  (interacciones b - interacciones a ?= 0)%Q.

(** ** The handler of [GET /:userId] *)

Section Handler.

(** The zone of the host, which [getDate], [setDate] and [Date.parse]
    read. *)
Variable host : TimeZone.
Variable madridOffset : Z -> Z.
Variable Date_parse : string -> option Z.
(** [mongoose.Types.ObjectId.isValid] *)
Variable isValidObjectId : string -> bool.
(** [Resultado.find({usuario_id}).sort({fecha: -1}).populate(...)] *)
Variable findResultados : string -> DbResult (list Resultado).
(** [Ejercicio.findOne({concepto}).select("_id titulo concepto")] *)
Variable findOneEjercicio : string -> DbResult (option Ejercicio).

(** *** C) Weekly summary *)

(** [haceUnaSemana] after [haceUnaSemana.setDate(hoy.getDate() - 7)],
    for the two readings [hoy] and [ahora] of the clock. *)
Definition haceUnaSemana (hoy ahora : Z) : option Z :=
  setDate host (Some ahora)
    (match getDate host (Some hoy) with
     | Some d => Some (d - 7)
     | None => None
     end).

(** [r.fecha && new Date(r.fecha) >= haceUnaSemana] *)
Definition enSemana (limite : option Z) (r : Resultado) : bool :=
  match fecha r, limite with
  | Some t, Some w => w <=? t
  | _, _ => false
  end.

Definition resultadosSemana (limite : option Z) (rs : list Resultado)
  : list Resultado :=
  filter (enSemana limite) rs.

Definition conceptosSemana (semana : list Resultado) : JsSet.t :=
  JsSet.ofList
    (filter truthyStr (map (fun r => refConcepto (ejercicio_id r)) semana)).

Definition ejerciciosUnicosSemana (semana : list Resultado) : JsSet.t :=
  JsSet.ofList
    (filter truthyStr (map (fun r => refIdString (ejercicio_id r)) semana)).

(** [r.fecha || r.createdAt || r.updatedAt] *)
Definition fechaRacha (r : Resultado) : DateArg :=
  match fecha r with
  | Some t => DDate (Some t)
  | None =>
      match createdAt r with
      | Some t => DDate (Some t)
      | None =>
          match updatedAt r with
          | Some t => DDate (Some t)
          | None => DMissing
          end
      end
  end.

Definition rachaDe (rs : list Resultado) : Z :=
  computeStreak madridOffset Date_parse (map fechaRacha rs).

Definition resumenSemanalDe (hoy ahora : Z) (rs : list Resultado) : ResumenSemanal :=
  let semana := resultadosSemana (haceUnaSemana hoy ahora) rs in
  {| ejerciciosCompletados := JsSet.size (ejerciciosUnicosSemana semana);
     conceptosDistintos := JsSet.size (conceptosSemana semana);
     rachaDias := rachaDe rs |}.

(** *** D) Last session *)

Definition ultimaSesionDe (ultimoResultado : Resultado) : UltimaSesion :=
  {| tituloEjercicio :=
       orStr (refTitulo (ejercicio_id ultimoResultado)) "Ejercicio Reciente";
     analisis :=
       orStr (analisisIA ultimoResultado) (JsString.lit "Análisis no disponible.");
     consejo := orStr (consejoIA ultimoResultado) "Sigue practicando." |}.

(** *** F) Recommendation *)

Definition recomendar (ultimoResultado : Resultado)
    (frecuentes : list ErrorFrecuente) (eficiencias : list Eficiencia)
  : DbResult Recomendacion :=
  if hasRealErrors frecuentes then
    let conceptoObjetivo := orStr (refConcepto (ejercicio_id ultimoResultado)) "" in
    if truthyStr conceptoObjetivo then
      match findOneEjercicio conceptoObjetivo with
      | DbThrows => DbThrows
      | DbOk (Some ej) =>
          DbOk {| titulo := orStr (ej_titulo ej) "Ejercicio recomendado";
                  motivo := motivoErrores;
                  ejercicioId := Some (ej_id ej);
                  rec_concepto := orStr (ej_concepto ej) conceptoObjetivo |}
      | DbOk None =>
          DbOk {| titulo := JsString.lit "Recomendación";
                  motivo := motivoUltimaSesion;
                  ejercicioId := None;
                  rec_concepto := conceptoObjetivo |}
      end
    else DbOk recomendacionInicial
  else
    match eficiencias with
    | [] => DbOk recomendacionInicial
    | _ :: _ =>
        match JsArray.sort porInteracciones eficiencias with
        | [] => DbThrows
        | peor :: _ =>
            let conceptoObjetivo := concepto peor in
            match findOneEjercicio conceptoObjetivo with
            | DbThrows => DbThrows
            | DbOk (Some ej) =>
                DbOk {| titulo := orStr (ej_titulo ej) "Ejercicio recomendado";
                        motivo := motivoActividad;
                        ejercicioId := Some (ej_id ej);
                        rec_concepto := orStr (ej_concepto ej) conceptoObjetivo |}
            | DbOk None =>
                DbOk {| titulo := JsString.lit "Recomendación";
                        motivo := motivoRefuerza conceptoObjetivo;
                        ejercicioId := None;
                        rec_concepto := conceptoObjetivo |}
            end
        end
    end.

Definition error500 : HttpResponse Body :=
  {| status := 500; body := BMessage "Error en el servidor." |}.

(** The handler, for the two readings [hoy] and [ahora] of the clock. *)
Definition getProgreso (hoy ahora : Z) (userId : string) : HttpResponse Body :=
  if negb (isValidObjectId userId) then
    {| status := 400; body := BMessage (JsString.lit "ID de usuario inválido.") |}
  else
    match findResultados userId with
    | DbThrows => error500
    | DbOk todosResultados =>
        match todosResultados with
        | [] => {| status := 200; body := BResumen bienvenida |}
        | ultimoResultado :: _ =>
            let medias :=
              (inject_Z (totalInteracciones todosResultados)
               / inject_Z (Z.of_nat (List.length todosResultados)))%Q in
            let eficiencias := porConcepto (eficienciaDe todosResultados) in
            let frecuentes := erroresFrecuentesDe todosResultados in
            match recomendar ultimoResultado frecuentes eficiencias with
            | DbThrows => error500
            | DbOk r =>
                {| status := 200;
                   body := BResumen
                     {| interaccionesMedias := medias;
                        eficienciaPorConcepto := eficiencias;
                        resumenSemanal := resumenSemanalDe hoy ahora todosResultados;
                        ultimaSesion := ultimaSesionDe ultimoResultado;
                        erroresFrecuentes := frecuentes;
                        recomendacion := r |} |}
            end
        end
    end.

End Handler.

End Progreso.

(* ================================================================== *)
(** * resultados.js *)

Module Resultados.

(** A JavaScript value as [JSON.parse] and the classifier deliver it. A
    number [JNum m e] is [m * 10^e]. *)
#[local] Set Warnings "-register-all".
Inductive JsVal : Type :=
| JUndefined
| JNull
| JBool (b : bool)
| JNum (m e : Z)
| JStr (s : string)
| JArr (l : list JsVal)
| JObj (o : list (string * JsVal)).

(** [ToBoolean] *)
Definition truthy (v : JsVal) : bool :=
  match v with
  | JUndefined | JNull => false
  | JBool b => b
  | JNum m _ => negb (m =? 0)
  | JStr s => truthyStr s
  | JArr _ | JObj _ => true
  end.

(** [v.k] for a key that [Object.prototype] and the wrappers of the
    primitive values do not define. *)
Definition getProp (v : JsVal) (k : string) : JsVal :=
  match v with
  | JObj o =>
      match JsObject.getOwn o k with
      | Some x => x
      | None => JUndefined
      end
  | _ => JUndefined
  end.

Definition dq : ascii := ascii_of_nat 34.
Definition nl : string := String (ascii_of_nat 10) "".

(** [s] between double quotes. *)
Definition quoted (s : string) : string := String dq (s ++ String dq "")%string.

(** ** An executable [JSON.parse]

    The grammar of ECMA-404, on texts whose strings stay below code unit
    256. [None] is the [SyntaxError]. *)
Module Json.

Definition isWs (c : ascii) : bool :=
  let n := JsString.codeUnit c in
  (n =? 32) || (n =? 9) || (n =? 10) || (n =? 13).

Fixpoint skipWs (s : string) : string :=
  match s with
  | String c r => if isWs c then skipWs r else s
  | EmptyString => EmptyString
  end.

Definition hexValue (c : ascii) : option Z :=
  let n := JsString.codeUnit c in
  if (48 <=? n) && (n <=? 57) then Some (n - 48)
  else if (65 <=? n) && (n <=? 70) then Some (n - 55)
  else if (97 <=? n) && (n <=? 102) then Some (n - 87)
  else None.

Definition escapeChar (c : ascii) : option ascii :=
  let n := JsString.codeUnit c in
  if n =? 34 then Some dq
  else if n =? 92 then Some (ascii_of_nat 92)
  else if n =? 47 then Some (ascii_of_nat 47)
  else if n =? 98 then Some (ascii_of_nat 8)
  else if n =? 102 then Some (ascii_of_nat 12)
  else if n =? 110 then Some (ascii_of_nat 10)
  else if n =? 114 then Some (ascii_of_nat 13)
  else if n =? 116 then Some (ascii_of_nat 9)
  else None.

(** The characters of a string after its opening quote, and the text
    after its closing quote. *)
Fixpoint parseStringBody (s : string) : option (string * string) :=
  match s with
  | EmptyString => None
  | String c r =>
      if JsString.codeUnit c =? 34 then Some (EmptyString, r)
      else if JsString.codeUnit c =? 92 then
        match r with
        | String e r1 =>
            if JsString.codeUnit e =? 117 then
              match r1 with
              | String h1 (String h2 (String h3 (String h4 r2))) =>
                  match hexValue h1, hexValue h2, hexValue h3, hexValue h4 with
                  | Some a, Some b, Some c', Some d =>
                      let n := ((a * 16 + b) * 16 + c') * 16 + d in
                      if n <? 256 then
                        match parseStringBody r2 with
                        | Some (t, rest) =>
                            Some (String (ascii_of_N (Z.to_N n)) t, rest)
                        | None => None
                        end
                      else None
                  | _, _, _, _ => None
                  end
              | _ => None
              end
            else
              match escapeChar e, parseStringBody r1 with
              | Some x, Some (t, rest) => Some (String x t, rest)
              | _, _ => None
              end
        | EmptyString => None
        end
      else if JsString.codeUnit c <? 32 then None
      else
        match parseStringBody r with
        | Some (t, rest) => Some (String c t, rest)
        | None => None
        end
  end.

(** The longest prefix of decimal digits, and the rest. *)
Fixpoint spanDigits (s : string) : string * string :=
  match s with
  | String c r =>
      match JsString.digitValue c with
      | Some _ => let (d, rest) := spanDigits r in (String c d, rest)
      | None => (EmptyString, s)
      end
  | EmptyString => (EmptyString, EmptyString)
  end.

Definition isChar (n : Z) (c : ascii) : bool := JsString.codeUnit c =? n.

Definition parseNumber (s : string) : option (JsVal * string) :=
  let (neg, s1) :=
    match s with
    | String c r => if isChar 45 c then (true, r) else (false, s)
    | EmptyString => (false, s)
    end in
  let (int, s2) := spanDigits s1 in
  let intOk :=
    match int with
    | EmptyString => false
    | String c EmptyString => true
    | String c _ => negb (isChar 48 c)
    end in
  if negb intOk then None
  else
    let '(frac, s3, fracOk) :=
      match s2 with
      | String c r =>
          if isChar 46 c
          then let (f, rest) := spanDigits r in (f, rest, truthyStr f)
          else (EmptyString, s2, true)
      | EmptyString => (EmptyString, s2, true)
      end in
    let '(ex, s4, exOk) :=
      match s3 with
      | String c r =>
          if isChar 101 c || isChar 69 c then
            let '(sign, r1) :=
              match r with
              | String c' r' =>
                  if isChar 45 c' then (-1, r')
                  else if isChar 43 c' then (1, r')
                  else (1, r)
              | EmptyString => (1, r)
              end in
            let (d, rest) := spanDigits r1 in
            match JsString.parseDigits d with
            | Some n => (sign * n, rest, true)
            | None => (0, rest, false)
            end
          else (0, s3, true)
      | EmptyString => (0, s3, true)
      end in
    match JsString.parseDigits (int ++ frac)%string with
    | Some m =>
        if fracOk && exOk
        then Some (JNum (if neg then - m else m)
                        (ex - Z.of_nat (String.length frac)), s4)
        else None
    | None => None
    end.

(** A value, the elements of an array after its first bracket or a
    comma, and the members of an object likewise; [fuel] bounds the
    number of calls. *)
Fixpoint parseValue (fuel : nat) (s : string) : option (JsVal * string) :=
  match fuel with
  | O => None
  | S f =>
      match skipWs s with
      | EmptyString => None
      | String c r =>
          if isChar 123 c then
            match skipWs r with
            | String c' r' =>
                if isChar 125 c' then Some (JObj [], r') else parseMembers f [] r
            | EmptyString => None
            end
          else if isChar 91 c then
            match skipWs r with
            | String c' r' =>
                if isChar 93 c' then Some (JArr [], r') else parseElements f [] r
            | EmptyString => None
            end
          else if isChar 34 c then
            match parseStringBody r with
            | Some (t, rest) => Some (JStr t, rest)
            | None => None
            end
          else if prefix "true" (String c r) then Some (JBool true, JsString.drop 4 (String c r))
          else if prefix "false" (String c r) then Some (JBool false, JsString.drop 5 (String c r))
          else if prefix "null" (String c r) then Some (JNull, JsString.drop 4 (String c r))
          else parseNumber (String c r)
      end
  end
with parseElements (fuel : nat) (acc : list JsVal) (s : string)
  : option (JsVal * string) :=
  match fuel with
  | O => None
  | S f =>
      match parseValue f s with
      | Some (v, r) =>
          match skipWs r with
          | String c r' =>
              if isChar 44 c then parseElements f (acc ++ [v]) r'
              else if isChar 93 c then Some (JArr (acc ++ [v]), r')
              else None
          | EmptyString => None
          end
      | None => None
      end
  end
with parseMembers (fuel : nat) (acc : list (string * JsVal)) (s : string)
  : option (JsVal * string) :=
  match fuel with
  | O => None
  | S f =>
      match skipWs s with
      | String q r =>
          if isChar 34 q then
            match parseStringBody r with
            | Some (k, r1) =>
                match skipWs r1 with
                | String c r2 =>
                    if isChar 58 c then
                      match parseValue f r2 with
                      | Some (v, r3) =>
                          match skipWs r3 with
                          | String c' r4 =>
                              if isChar 44 c'
                              then parseMembers f (JsObject.setOwn acc k v) r4
                              else if isChar 125 c'
                                   then Some (JObj (JsObject.setOwn acc k v), r4)
                                   else None
                          | EmptyString => None
                          end
                      | None => None
                      end
                    else None
                | EmptyString => None
                end
            | None => None
            end
          else None
      | EmptyString => None
      end
  end.

Definition parse (text : string) : option JsVal :=
  match parseValue (2 * String.length text + 2) text with
  | Some (v, rest) =>
      match skipWs rest with
      | EmptyString => Some v
      | String _ _ => None
      end
  | None => None
  end.

End Json.

(** ** [extractJsonObject] *)

Definition fence : string := "```".

(** [s.replace(/^```(json)?/i, "")] *)
Definition dropOpeningFence (s : string) : string :=
  if JsString.startsWith s fence then
    let r := JsString.drop 3 s in
    if (JsString.toLowerCase (JsString.take 4 r) =? "json")%string
    then JsString.drop 4 r else r
  else s.

(** [s.replace(/```$/i, "")] *)
Definition dropClosingFence (s : string) : string :=
  if JsString.endsWith s fence
  then JsString.take (String.length s - 3) s else s.

(** [cleaned.match(/\{[\s\S]*\}/)]: from the first opening brace to the
    last closing brace after it. *)
Definition matchBraces (s : string) : option string :=
  match JsString.fromFirst "{" s with
  | Some (String b rest) =>
      match JsString.throughLast "}" rest with
      | Some t => Some (String b t)
      | None => None
      end
  | _ => None
  end.

Section Extraction.

(** [JSON.parse]; [None] when it throws. *)
Variable JSON_parse : string -> option JsVal.

Definition cleanedOf (s : string) : string :=
  JsString.trim (dropClosingFence (dropOpeningFence s)).

Definition extractJsonObject (text : JsVal) : JsVal :=
  match text with
  | JStr t =>
      let s := JsString.trim t in
      if negb (truthyStr s) then JNull
      else
        let cleaned := cleanedOf s in
        match (if JsString.startsWith cleaned "{" && JsString.endsWith cleaned "}"
               then JSON_parse cleaned else None) with
        | Some v => v
        | None =>
            match matchBraces cleaned with
            | None => JNull
            | Some m =>
                match JSON_parse m with
                | Some v => v
                | None => JNull
                end
            end
        end
  | _ => JNull
  end.

End Extraction.

(** ** The records of the handler *)

Record Mensaje : Type := { role : string; content : string }.

(** An interaction; [conversacion] is [None] when it is not an array. *)
Record Interaccion : Type := { conversacion : option (list Mensaje) }.

Record Peticion : Type := {
  userId : string;
  exerciseId : string;
  interaccionId : string;
  resueltoALaPrimera : bool
}.

(** The document handed to [new Resultado(...)]; [analisisIA] and
    [consejoIA] are [null] when empty. *)
Record NuevoResultado : Type := {
  usuario_id : string;
  ejercicio_id : string;
  interaccion_id : string;
  nr_resueltoALaPrimera : bool;
  numMensajes : Z;
  analisisIA : string;
  consejoIA : string;
  errores : list ErrorTag
}.

Record Saved : Type := {
  sv_numMensajes : Z;
  sv_analisisIA : bool;
  sv_consejoIA : bool;
  sv_errores : list string
}.

Inductive Body : Type :=
| BGuardado (message : string) (classifierStatus : string) (saved : Saved)
| BMessage (message : string).

(** A thrown [Error]: its name, its message and its [code] (empty when it
    has none). *)
Record Thrown : Type := {
  err_name : string;
  err_message : string;
  err_code : string
}.

Inductive CallOutcome : Type :=
| Returns (content : JsVal)
| Throws (e : Thrown).

(** What the [try ... catch] leaves in the variables of the handler, and
    the prompts that were sent. *)
Record Clasificacion : Type := {
  c_analisisIA : string;
  c_consejoIA : string;
  c_errores : list ErrorTag;
  c_classifierStatus : string;
  c_llamadas : list string
}.

(** What the handler did: the response, the prompts sent to the
    classifier and the document saved. *)
Record Efecto : Type := {
  respuesta : HttpResponse Body;
  llamadas : list string;
  guardado : option NuevoResultado
}.

(** [String(e?.message || e)] for an [Error]. *)
Definition mensajeDe (e : Thrown) : string := orStr (err_message e) (err_name e).

Definition isTimeout (e : Thrown) : bool :=
  JsString.includes (JsString.toLowerCase (mensajeDe e)) "timeout"
  || (err_code e =? "ECONNABORTED")%string.

Definition errorNoJson : Thrown :=
  {| err_name := "Error";
     err_message := JsString.lit "Clasificador devolvió contenido no-JSON o JSON inválido.";
     err_code := "" |}.

Definition textoTimeout : string := "No se pudo clasificar (timeout)".
Definition textoFormato : string :=
  JsString.lit "No se pudo clasificar (formato inválido)".

Section Handler.

(** [alternative_conceptions.json]: each identifier with its [name]
    (empty when it has none). *)
Variable AC_MAP : JsObject.t string.
Variable JSON_parse : string -> option JsVal.
(** [callClassifier({model, prompt})] for the configured model. *)
Variable callClassifier : string -> CallOutcome.
Variable isValidObjectId : string -> bool.
(** [Interaccion.findById] *)
Variable findById : string -> DbResult (option Interaccion).
(** [nuevoResultado.save()] *)
Variable save : NuevoResultado -> DbResult unit.

Definition ALLOWED_AC_IDS : list string := JsObject.keys AC_MAP.
Definition ALLOWED_AC_IDS_TEXT : string := JsString.join ", " ALLOWED_AC_IDS.

Definition conversacionTextoDe (conv : list Mensaje) : string :=
  match conv with
  | [] => JsString.lit "Conversación vacía."
  | _ :: _ =>
      JsString.join nl (map (fun m => (role m ++ ": " ++ content m)%string) conv)
  end.

Definition promptBaseDe (conversacionTexto : string) : string :=
  JsString.trim (JsString.join nl
    [ "";
      JsString.lit "Eres un asistente que clasifica concepciones alternativas (AC) en un diálogo de tutoría.";
      "";
      "REGLAS ESTRICTAS (OBLIGATORIAS):";
      JsString.lit "- Devuelve ÚNICAMENTE JSON válido.";
      JsString.lit "- No escribas ningún texto fuera del JSON.";
      "- No incluyas explicaciones, comentarios ni markdown.";
      "";
      "Solo puedes devolver IDs de esta lista cerrada:";
      ALLOWED_AC_IDS_TEXT;
      "";
      JsString.lit "Devuelve como máximo 3 IDs.";
      "Si no detectas ninguna con claridad, devuelve [].";
      "";
      "FORMATO EXACTO:";
      "{";
      ("  " ++ quoted "analisis" ++ ": " ++ quoted "1-2 frases muy cortas" ++ ",")%string;
      ("  " ++ quoted "consejo" ++ ": " ++ quoted "1 frase muy corta" ++ ",")%string;
      ("  " ++ quoted "acs" ++ ": [" ++ quoted "AC13" ++ ", " ++ quoted "AC14" ++ "]")%string;
      "}";
      "";
      JsString.lit "CONVERSACIÓN:";
      "---";
      conversacionTexto;
      "---";
      "" ]).

Definition promptRetryDe (promptBase : string) : string :=
  JsString.trim (JsString.join nl
    [ "";
      JsString.lit "DEVUELVE SOLO UN OBJETO JSON VÁLIDO. SIN TEXTO ADICIONAL. SIN MARKDOWN.";
      promptBase;
      "" ]).

(** [typeof v === "string" && v.trim()] then [v.trim()], else [null]. *)
Definition textoNoVacio (v : JsVal) : string :=
  match v with
  | JStr s => JsString.trim s
  | _ => ""
  end.

(** [acs.filter(string).map(trim).filter(allowed).slice(0, 3)] *)
Definition acsFiltradosDe (acs : list JsVal) : list string :=
  JsArray.slice0 3
    (filter (fun id => existsb (String.eqb id) ALLOWED_AC_IDS)
       (map JsString.trim
          (flat_map (fun v => match v with JStr s => [s] | _ => [] end) acs))).

(** [{etiqueta: id, texto: AC_MAP[id]?.name || id}] *)
Definition errorDe (id : string) : ErrorTag :=
  {| etiqueta := id;
     texto := orStr (match JsObject.getOwn AC_MAP id with
                     | Some name => name
                     | None => ""
                     end) id |}.

(** The end of the [try] block, from [classifierStatus = "ok"] on. *)
Definition exito (parsed : JsVal) (sent : list string) : Clasificacion :=
  let acs := match getProp parsed "acs" with JArr l => l | _ => [] end in
  {| c_analisisIA := textoNoVacio (getProp parsed "analisis");
     c_consejoIA := textoNoVacio (getProp parsed "consejo");
     c_errores := map errorDe (acsFiltradosDe acs);
     c_classifierStatus := "ok";
     c_llamadas := sent |}.

(** The [catch] block, entered with [classifierStatus] as the [try]
    block left it. *)
Definition fallo (classifierStatus : string) (e : Thrown) (numMensajes : Z)
    (sent : list string) : Clasificacion :=
  {| c_analisisIA := "";
     c_consejoIA := "";
     c_errores :=
       if 0 <? numMensajes
       then [ {| etiqueta := "AC_UNK";
                 texto := if isTimeout e then textoTimeout else textoFormato |} ]
       else [];
     c_classifierStatus := if isTimeout e then "fail_timeout" else classifierStatus;
     c_llamadas := sent |}.

(** A computation that calls the classifier: it receives the prompts sent
    so far and gives its result together with the prompts sent when it
    ends. An answer of the classifier is obtained only through [llamar],
    which sends the prompt, so the prompts sent are those of the calls that
    were made, in order. *)
Definition Llamando (A : Type) : Type := list string -> A * list string.

Definition devolver {A : Type} (a : A) : Llamando A := fun sent => (a, sent).

Definition luego {A B : Type} (m : Llamando A) (k : A -> Llamando B) : Llamando B :=
  fun sent => let (a, sent') := m sent in k a sent'.

(** [await callClassifier({ model, prompt })] *)
Definition llamar (prompt : string) : Llamando CallOutcome :=
  fun sent => (callClassifier prompt, sent ++ [prompt]).

(** The [try ... catch] around the classifier; the classification records
    the prompts that were sent. *)
Definition clasificar (promptBase promptRetry : string) (numMensajes : Z)
  : Clasificacion :=
  let (fin, sent) :=
    luego (llamar promptBase) (fun content1 =>
      match content1 with
      | Throws e => devolver (fallo "skipped" e numMensajes)
      | Returns content1 =>
          let parsed := extractJsonObject JSON_parse content1 in
          if negb (truthy parsed) then
            luego (llamar promptRetry) (fun content2 =>
              match content2 with
              | Throws e => devolver (fallo "skipped" e numMensajes)
              | Returns content2 =>
                  let parsed := extractJsonObject JSON_parse content2 in
                  if negb (truthy parsed)
                  then devolver (fallo "fail_invalid_json" errorNoJson numMensajes)
                  else devolver (exito parsed)
              end)
          else devolver (exito parsed)
      end) [] in
  fin sent.

Definition sinEfecto (code : Z) (message : string) : Efecto :=
  {| respuesta := {| status := code; body := BMessage message |};
     llamadas := [];
     guardado := None |}.

Definition errorServidor : string := "Error del servidor al finalizar resultado.".

(** The handler of [POST /finalizar]. *)
Definition finalizar (req : Peticion) : Efecto :=
  if negb (truthyStr (userId req)) || negb (truthyStr (exerciseId req))
     || negb (truthyStr (interaccionId req))
  then sinEfecto 400 "Faltan datos para finalizar el resultado."
  else if negb (isValidObjectId (userId req))
          || negb (isValidObjectId (exerciseId req))
          || negb (isValidObjectId (interaccionId req))
  then sinEfecto 400 (JsString.lit "Alguno de los IDs no es válido.")
  else
    match findById (interaccionId req) with
    | DbThrows => sinEfecto 500 errorServidor
    | DbOk None => sinEfecto 404 (JsString.lit "Interacción no encontrada.")
    | DbOk (Some interaccion) =>
        let conv := match conversacion interaccion with
                    | Some l => l
                    | None => []
                    end in
        let n := Z.of_nat (List.length conv) in
        let promptBase := promptBaseDe (conversacionTextoDe conv) in
        let promptRetry := promptRetryDe promptBase in
        let c := clasificar promptBase promptRetry n in
        let nuevoResultado :=
          {| usuario_id := userId req;
             ejercicio_id := exerciseId req;
             interaccion_id := interaccionId req;
             nr_resueltoALaPrimera := resueltoALaPrimera req;
             numMensajes := n;
             analisisIA := c_analisisIA c;
             consejoIA := c_consejoIA c;
             errores := c_errores c |} in
        match save nuevoResultado with
        | DbThrows =>
            {| respuesta := {| status := 500; body := BMessage errorServidor |};
               llamadas := c_llamadas c;
               guardado := None |}
        | DbOk _ =>
            {| respuesta :=
                 {| status := 200;
                    body := BGuardado (JsString.lit "Resultado guardado con éxito.")
                              (c_classifierStatus c)
                              {| sv_numMensajes := n;
                                 sv_analisisIA := truthyStr (c_analisisIA c);
                                 sv_consejoIA := truthyStr (c_consejoIA c);
                                 sv_errores := map etiqueta (c_errores c) |} |};
               llamadas := c_llamadas c;
               guardado := Some nuevoResultado |}
        end
    end.

End Handler.

End Resultados.

(* ================================================================== *)
(** * resultados.js: configuration, the call to the classifier, and the
      route of the completed exercises *)

Module Servicio.

Import Resultados.

(** [process.env.OLLAMA_API_URL_UPV || process.env.OLLAMA_UPV_URL ||
    process.env.OLLAMA_API_URL || "https://ollama.gti-ia.upv.es:443"], a
    variable that is not set being the empty string. *)
Definition OLLAMA_BASE_URL (api_url_upv upv_url api_url : string) : string :=
  orStr api_url_upv (orStr upv_url (orStr api_url "https://ollama.gti-ia.upv.es:443")).

(** [["1", "true", "on", "yes"].includes(String(env || "").toLowerCase())] *)
Definition insecureTLS (env : string) : bool :=
  existsb (String.eqb (JsString.toLowerCase (orStr env "")))
    ["1"; "true"; "on"; "yes"]%string.

(** [s.replace(/\/+$/, "")]: the run of slashes that ends the string is
    removed. *)
Fixpoint dropTrailingSlashes (s : string) : string :=
  match s with
  | EmptyString => EmptyString
  | String c s' =>
      match dropTrailingSlashes s' with
      | EmptyString => if Ascii.eqb c "/" then EmptyString else String c EmptyString
      | t => String c t
      end
  end.

(** The [baseURL] of the axios instance. *)
Definition baseURL (api_url_upv upv_url api_url : string) : string :=
  dropTrailingSlashes (OLLAMA_BASE_URL api_url_upv upv_url api_url).

(** The body of the request to [/api/chat]. *)
Record ChatRequest : Type := {
  cr_model : string;
  cr_stream : bool;
  cr_format : string;
  cr_temperature : Z;
  cr_messages : list Mensaje
}.

Section Classifier.

(** [ollama.post(url, body)]: the response object, or the error thrown. *)
Variable post : string -> ChatRequest -> CallOutcome.

(** [callClassifier({model, prompt})]: [r?.data?.message?.content]. *)
Definition callClassifier (model prompt : string) : CallOutcome :=
  match post "/api/chat"
          {| cr_model := model; cr_stream := false; cr_format := "json";
             cr_temperature := 0;
             cr_messages := [ {| role := "user"; content := prompt |} ] |} with
  | Throws e => Throws e
  | Returns r => Returns (getProp (getProp (getProp r "data") "message") "content")
  end.

End Classifier.

(** [ejercicio_id] of a lean result: an [ObjectId], [null] or nothing. *)
Inductive RawRef : Type :=
| RawId (hex : string)
| RawNull
| RawUndefined.

(** [String(r.ejercicio_id)] *)
Definition rawToString (r : RawRef) : string :=
  match r with
  | RawId hex => hex
  | RawNull => "null"
  | RawUndefined => "undefined"
  end.

Inductive CompletedBody : Type :=
| BIds (completedIds : list string)
| BError (message : string).

Section Completed.

Variable isValidObjectId : string -> bool.
(** [Resultado.find({usuario_id}).select("ejercicio_id").lean()] *)
Variable findRefs : string -> DbResult (list RawRef).

(** [[...new Set(resultados.map((r) => String(r.ejercicio_id)))]] *)
Definition completedIdsDe (resultados : list RawRef) : list string :=
  JsSet.ofList (map rawToString resultados).

(** The handler of [GET /completed/:userId]. *)
Definition getCompleted (userId : string) : HttpResponse CompletedBody :=
  if negb (isValidObjectId userId) then
    {| status := 400; body := BError (JsString.lit "ID de usuario inválido.") |}
  else
    match findRefs userId with
    | DbThrows => {| status := 500; body := BError "Error del servidor." |}
    | DbOk resultados => {| status := 200; body := BIds (completedIdsDe resultados) |}
    end.

End Completed.

End Servicio.

(* ================================================================== *)
(** * Notions used to state the properties *)

(** [a] is not after [b] in the order of [sort()]. *)
Definition sle (a b : string) : Prop := String.compare a b <> Gt.

(** The day-keys that the elements of [dates] normalise to. *)
Definition dayKeys (madridOffset : Z -> Z) (Date_parse : string -> option Z)
    (dates : list Progreso.DateArg) : list string :=
  flat_map (fun d => match Progreso.dayKeyMadrid madridOffset Date_parse d with
                     | Some k => [k]
                     | None => []
                     end) dates.

(** Whether the character [c] occurs in [s]. *)
Fixpoint occurs (c : ascii) (s : string) : bool :=
  match s with
  | EmptyString => false
  | String a s' => Ascii.eqb a c || occurs c s'
  end.

(** The string elements of a JSON array. *)
Definition stringsOf (acs : list Resultados.JsVal) : list string :=
  flat_map (fun v => match v with Resultados.JStr s => [s] | _ => [] end) acs.

(** The tags as C4 states them: the elements that are strings of the
    vocabulary, in order, cut at three. *)
Definition tagsAsStated (allowed : list string) (acs : list Resultados.JsVal)
  : list string :=
  firstn 3 (filter (fun id => existsb (String.eqb id) allowed) (stringsOf acs)).

(** The first [n] string elements whose trimmed form is in the vocabulary,
    trimmed, read from left to right. *)
Fixpoint primerasValidas (allowed : list string) (acs : list Resultados.JsVal)
    (n : nat) {struct acs} : list string :=
  match acs with
  | [] => []
  | v :: rest =>
      match n with
      | O => []
      | S k =>
          match v with
          | Resultados.JStr s =>
              if existsb (String.eqb (JsString.trim s)) allowed
              then JsString.trim s :: primerasValidas allowed rest k
              else primerasValidas allowed rest n
          | _ => primerasValidas allowed rest n
          end
      end
  end.

(** The request passes the two checks of the handler. *)
Definition peticionValida (isValidObjectId : string -> bool) (req : Resultados.Peticion)
  : bool :=
  truthyStr (Resultados.userId req) && truthyStr (Resultados.exerciseId req)
  && truthyStr (Resultados.interaccionId req)
  && isValidObjectId (Resultados.userId req)
  && isValidObjectId (Resultados.exerciseId req)
  && isValidObjectId (Resultados.interaccionId req).

(** The messages of an interaction. *)
Definition mensajesDe (i : Resultados.Interaccion) : list Resultados.Mensaje :=
  match Resultados.conversacion i with Some l => l | None => [] end.

(** The sentinel tag of a failure [e], for a conversation of [n] messages. *)
Definition centinela (e : Resultados.Thrown) (n : Z) : list ErrorTag :=
  if 0 <? n
  then [ {| etiqueta := "AC_UNK";
            texto := if Resultados.isTimeout e
                     then Resultados.textoTimeout else Resultados.textoFormato |} ]
  else [].


(** The labels of all the error tags of all the results, in order. *)
Definition etiquetasDe (rs : list Progreso.Resultado) : list string :=
  flat_map (fun r => map etiqueta (Progreso.errores r)) rs.

(** A key that an object used as a map treats as a plain name: not empty,
    not a member of [Object.prototype], not an array index. *)
Definition plainKey (k : string) : bool :=
  truthyStr k && negb (JsObject.inherited k)
  && match JsObject.arrayIndex k with Some _ => false | None => true end.

(** The position of the first occurrence of [k] in [l]. *)
Fixpoint firstIndexOf (k : string) (l : list string) : nat :=
  match l with
  | [] => O
  | x :: l' => if (x =? k)%string then O else S (firstIndexOf k l')
  end.



(** What an entry of [mapaErrores] holds after the tags with the labels
    [labels] have been counted. *)
Definition entradaDe (labels : list string) (p : string * Progreso.ErrorFrecuente)
  : Prop :=
  Progreso.err_etiqueta (snd p) = fst p
  /\ Progreso.veces (snd p) = Z.of_nat (count_occ string_dec labels (fst p)).

(** No element of [l] has a larger mean than [h]. *)
Definition esPeor (h : Progreso.Eficiencia) (l : list Progreso.Eficiencia) : Prop :=
  forall x, In x l -> (Progreso.interacciones x <= Progreso.interacciones h)%Q.

(** The day that a day-key denotes on a host in UTC, counted from the
    epoch. *)
Definition dayNumberUTC (k : string) : Z :=
  match JsDate.parseIsoLocal JsDate.tzUTC (k ++ "T00:00:00")%string with
  | Some t => JsDate.Day t
  | None => 0
  end.

(* ================================================================== *)
(** * Inputs of the examples *)

Module Ejemplos.

Import JsDate Progreso.

(** A [Date] at [hh]:00 UTC of a civil day. *)
Definition alas (y m d hh : Z) : DateArg := DDate (Some (utcOf y m d hh 0 0)).

(** Three consecutive days around the last Sunday of March 2024, when
    Europe/Madrid moves its clocks forward. *)
Definition marzo : list DateArg :=
  [ alas 2024 4 1 12; alas 2024 3 31 12; alas 2024 3 30 12 ].

(** Three consecutive days of May 2024, the same instants shuffled and
    repeated, and two days three days apart. *)
Definition mayo : list DateArg :=
  [ alas 2024 5 15 12; alas 2024 5 14 12; alas 2024 5 13 12 ].
Definition mayoRevuelto : list DateArg :=
  [ alas 2024 5 13 9; alas 2024 5 15 12; DMissing; alas 2024 5 14 20;
    alas 2024 5 13 18; DDate None; alas 2024 5 15 7 ].
Definition mayoConHueco : list DateArg :=
  [ alas 2024 5 15 12; alas 2024 5 12 12 ].

(** The streak as a host in Europe/Madrid and as a host in UTC compute
    it. *)
Definition rachaMadrid : list DateArg -> Z :=
  computeStreak (offsetAtUtc tzMadrid) (parseIsoLocal tzMadrid).
Definition rachaUTC : list DateArg -> Z :=
  computeStreak (offsetAtUtc tzMadrid) (parseIsoLocal tzUTC).

(** Two exercises and a clock reading. *)
Definition ejOhm : Ejercicio :=
  {| ej_id := "64b000000000000000000001"; ej_toString := "[object Object]";
     ej_titulo := "Ley de Ohm"; ej_concepto := "Ley de Ohm" |}.
Definition ejKirchhoff : Ejercicio :=
  {| ej_id := "64b000000000000000000002"; ej_toString := "[object Object]";
     ej_titulo := "Mallas"; ej_concepto := "Kirchhoff" |}.
Definition ahora0 : Z := utcOf 2024 5 15 10 30 0.

(** A result saved exactly seven days before [ahora0]. *)
Definition rLimite : Resultado :=
  {| ejercicio_id := RefDoc ejOhm;
     fecha := Some (ahora0 - 7 * msPerDay);
     createdAt := Some (ahora0 - 7 * msPerDay);
     updatedAt := Some (ahora0 - 7 * msPerDay);
     numMensajes := 4; analisisIA := ""; consejoIA := ""; errores := [] |}.

(** A result of today, and one of yesterday that has no [fecha]. *)
Definition rHoy : Resultado :=
  {| ejercicio_id := RefDoc ejOhm;
     fecha := Some (utcOf 2024 5 15 9 0 0);
     createdAt := Some (utcOf 2024 5 15 9 0 0);
     updatedAt := Some (utcOf 2024 5 15 9 0 0);
     numMensajes := 4; analisisIA := ""; consejoIA := ""; errores := [] |}.


(** The answer of the classifier used in the examples: the object
    [{"acs":["AC1"]}], bare and inside a code fence. *)
Definition objetoAC1 : string :=
  ("{" ++ Resultados.quoted "acs" ++ ":[" ++ Resultados.quoted "AC1" ++ "]}")%string.
Definition cercado : string :=
  ("```json" ++ Resultados.nl ++ objetoAC1 ++ Resultados.nl ++ "```")%string.

(** A vocabulary of three identifiers. *)
Definition vocab3 : JsObject.t string :=
  [("AC1", "Corriente que se gasta"); ("AC2", ""); ("AC3", "Fuente de corriente constante")]%string.

(** A refused connection and an expired timeout, as axios throws them. *)
Definition eRefused : Resultados.Thrown :=
  {| Resultados.err_name := "AxiosError";
     Resultados.err_message := "connect ECONNREFUSED 127.0.0.1:443";
     Resultados.err_code := "ECONNREFUSED" |}.
Definition eTimeout : Resultados.Thrown :=
  {| Resultados.err_name := "AxiosError";
     Resultados.err_message := "timeout of 240000ms exceeded";
     Resultados.err_code := "ECONNABORTED" |}.

Definition peticion0 : Resultados.Peticion :=
  {| Resultados.userId := "64a000000000000000000001";
     Resultados.exerciseId := "64b000000000000000000001";
     Resultados.interaccionId := "64c000000000000000000001";
     Resultados.resueltoALaPrimera := false |}.

Definition charla : Resultados.Interaccion :=
  {| Resultados.conversacion :=
       Some [ {| Resultados.role := "user"; Resultados.content := "La corriente se gasta" |};
              {| Resultados.role := "assistant"; Resultados.content := "Veamos el circuito" |} ] |}.

(** The handler with the vocabulary of the example, every identifier valid,
    the interaction [i] in the store, a store that saves, and the
    classifier [servicio]. *)
Definition finalizarCon (servicio : string -> Resultados.CallOutcome)
    (i : Resultados.Interaccion) : Resultados.Efecto :=
  Resultados.finalizar vocab3 Resultados.Json.parse servicio (fun _ => true)
    (fun _ => DbOk (Some i)) (fun _ => DbOk tt) peticion0.

(** Five results whose tags add up to AC1: 5, AC2: 5, AC3: 3, AC4: 9, AC1
    being met first and AC2 second. *)
Definition tag (k : string) : ErrorTag := {| etiqueta := k; texto := "" |}.
Definition conErrores (ks : list string) : Resultado :=
  {| ejercicio_id := RefDoc ejOhm; fecha := Some ahora0; createdAt := Some ahora0;
     updatedAt := Some ahora0; numMensajes := 4; analisisIA := ""; consejoIA := "";
     errores := map tag ks |}.


(** A last session whose exercise is gone, with a tag of the vocabulary,
    after two sessions on Ohm's law. *)
Definition rSinEjercicio : Resultado :=
  {| ejercicio_id := RefNull; fecha := Some ahora0; createdAt := Some ahora0;
     updatedAt := Some ahora0; numMensajes := 3; analisisIA := ""; consejoIA := "";
     errores := [tag "AC13"] |}.
Definition historialSinEjercicio : list Resultado := [rSinEjercicio; rHoy; rLimite].

(** A history whose only tags are the sentinel, on two concepts. *)
Definition rDesconocido (ej : Ejercicio) (n : Z) : Resultado :=
  {| ejercicio_id := RefDoc ej; fecha := Some ahora0; createdAt := Some ahora0;
     updatedAt := Some ahora0; numMensajes := n; analisisIA := ""; consejoIA := "";
     errores := [tag "AC_UNK"] |}.
Definition historialDesconocido : list Resultado :=
  [rDesconocido ejOhm 4; rDesconocido ejKirchhoff 9; rDesconocido ejOhm 6].

(** A last session on Ohm's law with a tag of the vocabulary. *)
Definition historialConError : list Resultado :=
  [ {| ejercicio_id := RefDoc ejOhm; fecha := Some ahora0; createdAt := Some ahora0;
       updatedAt := Some ahora0; numMensajes := 5; analisisIA := ""; consejoIA := "";
       errores := [tag "AC13"] |} ].

(** A store with one exercise per concept, and the recommendation that the
    handler computes for a history. *)
Definition catalogo (c : string) : DbResult (option Ejercicio) :=
  if (c =? "Ley de Ohm")%string then DbOk (Some ejOhm)
  else if (c =? "Kirchhoff")%string then DbOk (Some ejKirchhoff)
  else DbOk None.
Definition recomendacionPara (rs : list Resultado) : option Recomendacion :=
  match body (getProgreso tzUTC (offsetAtUtc tzMadrid) (parseIsoLocal tzUTC)
                (fun _ => true) (fun _ => DbOk rs) catalogo ahora0 ahora0
                "64a000000000000000000001") with
  | BResumen p => Some (recomendacion p)
  | BMessage _ => None
  end.

End Ejemplos.


(** ** Notions for the stored tags *)

(** The name that the vocabulary gives to an identifier. *)
Definition nombreDe (AC_MAP : JsObject.t string) (id : string) : string :=
  match JsObject.getOwn AC_MAP id with
  | Some name => name
  | None => ""%string
  end.

(** The tag that stands for a failed classification. *)
Definition esCentinela (e : ErrorTag) : Prop :=
  etiqueta e = "AC_UNK"%string
  /\ (texto e = Resultados.textoTimeout \/ texto e = Resultados.textoFormato).

(** A tag of the vocabulary, with the name of its identifier, or the
    identifier where the name is empty. *)
Definition esDelVocabulario (AC_MAP : JsObject.t string) (e : ErrorTag) : Prop :=
  In (etiqueta e) (Resultados.ALLOWED_AC_IDS AC_MAP)
  /\ texto e = orStr (nombreDe AC_MAP (etiqueta e)) (etiqueta e).

(** An answer of the classifier whose texts have white space around them. *)
Definition respuestaConEspacios : string :=
  ("{" ++ Resultados.quoted "analisis" ++ ":" ++ Resultados.quoted "  Confunde corriente y tension  "
   ++ "," ++ Resultados.quoted "consejo" ++ ":" ++ Resultados.quoted " Repasa la ley de Ohm "
   ++ "," ++ Resultados.quoted "acs" ++ ":[" ++ Resultados.quoted "AC1" ++ "]}")%string.

(** ** Notions for the extraction *)

(** [m] is a part of [s]. *)
Definition subcadena (m s : string) : Prop :=
  exists a b, s = (a ++ m ++ b)%string.

(** The text [s] is the object [{mid}] with [pre] before it and [post]
    after it, no opening brace in [pre] and no closing brace in [post]. *)
Definition rodeado (mid pre post s : string) : Prop :=
  s = (pre ++ String "{" (mid ++ String "}" post))%string
  /\ occurs "{" pre = false /\ occurs "}" post = false.

(** ** Notions for the configuration *)

(** A run of [n] slashes. *)
Fixpoint barras (n : nat) : string :=
  match n with
  | O => ""%string
  | S n' => String "/" (barras n')
  end.

(** ** Notions for the classifier service *)

(** [r?.data?.message?.content] of a response. *)
Definition contenidoDe (r : Resultados.JsVal) : Resultados.JsVal :=
  Resultados.getProp (Resultados.getProp (Resultados.getProp r "data") "message") "content".

(** The body that [callClassifier] posts for a prompt. *)
Definition cuerpoDe (model prompt : string) : Servicio.ChatRequest :=
  {| Servicio.cr_model := model;
     Servicio.cr_stream := false;
     Servicio.cr_format := "json";
     Servicio.cr_temperature := 0;
     Servicio.cr_messages :=
       [ {| Resultados.role := "user"; Resultados.content := prompt |} ] |}.

(** The first line of the retry prompt. *)
Definition preambulo : string :=
  JsString.lit "DEVUELVE SOLO UN OBJETO JSON VÁLIDO. SIN TEXTO ADICIONAL. SIN MARKDOWN.".

(** A response of the service that carries an error instead of a message. *)
Definition respuestaDeError : Resultados.JsVal :=
  Resultados.JObj
    [("data"%string, Resultados.JObj [("error"%string, Resultados.JStr "model not found")])].

(** ** Notions for the difficulty per concept *)

(** [r.ejercicio_id?.concepto] of a result. *)
Definition conceptoDe (r : Progreso.Resultado) : string :=
  Progreso.refConcepto (Progreso.ejercicio_id r).

(** The concepts of a history that are not empty, one per result. *)
Definition conceptosDe (rs : list Progreso.Resultado) : list string :=
  filter truthyStr (map conceptoDe rs).

(** The results of a concept, their messages, and their mean. *)
Definition delConcepto (c : string) (rs : list Progreso.Resultado)
  : list Progreso.Resultado :=
  filter (fun r => (conceptoDe r =? c)%string) rs.

Definition sumaMensajes (rs : list Progreso.Resultado) : Z :=
  fold_right (fun r s => Progreso.numMensajes r + s) 0 rs.

Definition mediaDelConcepto (c : string) (rs : list Progreso.Resultado) : Q :=
  (inject_Z (sumaMensajes (delConcepto c rs))
   / inject_Z (Z.of_nat (List.length (delConcepto c rs))))%Q.

(** What an entry of [eficiencia] holds after the results [rs]. *)
Definition entradaEf (rs : list Progreso.Resultado) (p : string * Progreso.Acumulado)
  : Prop :=
  Progreso.total (snd p) = sumaMensajes (delConcepto (fst p) rs)
  /\ Progreso.count (snd p) = Z.of_nat (List.length (delConcepto (fst p) rs)).

(** ** Notions for the text of the frequent errors *)

(** The text of the first tag of [tags] whose label is [k], or the label
    where that text is empty. *)
Definition primerTexto (k : string) (tags : list ErrorTag) : string :=
  match find (fun e => (etiqueta e =? k)%string) tags with
  | Some e => orStr (texto e) (etiqueta e)
  | None => ""%string
  end.

(** Two tags with the label AC1 and different texts, and one without
    text. *)
Definition historialConTextos : list Progreso.Resultado :=
  [ {| Progreso.ejercicio_id := Progreso.RefNull; Progreso.fecha := None;
       Progreso.createdAt := None; Progreso.updatedAt := None;
       Progreso.numMensajes := 2; Progreso.analisisIA := ""; Progreso.consejoIA := "";
       Progreso.errores :=
         [ {| etiqueta := "AC1"; texto := "Corriente que se gasta" |};
           {| etiqueta := "AC2"; texto := "" |};
           {| etiqueta := "AC1"; texto := "Otro texto" |} ] |} ].

(** ** Notions for the meaning of the streak *)

(** The time value that [dayKeyMadrid] formats for an argument, if any. *)
Definition tiempoDe (Date_parse : string -> option Z) (d : Progreso.DateArg) : option Z :=
  match d with
  | Progreso.DMissing => None
  | Progreso.DDate tv => tv
  | Progreso.DString s => if truthyStr s then Date_parse s else None
  end.

(** The calendar day of Europe/Madrid on which a time value falls, counted
    from the epoch. *)
Definition diaMadrid (madridOffset : Z -> Z) (t : Z) : Z :=
  JsDate.Day (t + madridOffset t).

(** The day [n] is one on which the input has a date. *)
Definition activo (madridOffset : Z -> Z) (Date_parse : string -> option Z)
    (dates : list Progreso.DateArg) (n : Z) : Prop :=
  exists d t, In d dates /\ tiempoDe Date_parse d = Some t
              /\ diaMadrid madridOffset t = n.

(** The civil date of the day [n]: year, month (0 = January), day of the
    month. *)
Definition anioDe (n : Z) : Z := JsDate.YearFromDay n.
Definition bisiestoDe (n : Z) : Z :=
  if JsDate.DaysInYear (anioDe n) =? 366 then 1 else 0.
Definition diaDelAnio (n : Z) : Z := n - JsDate.DayFromYear (anioDe n).
Definition mesDe (n : Z) : Z := JsDate.monthOfDay (bisiestoDe n) (diaDelAnio n).
Definition diaDelMes (n : Z) : Z :=
  diaDelAnio n - JsDate.monthStart (bisiestoDe n) (mesDe n) + 1.

(** The day-key of the day [n], for a year of the common era. *)
Definition claveDeDia (n : Z) : string :=
  (JsString.decimal (anioDe n) ++ "-" ++ JsString.pad2 (mesDe n + 1)
   ++ "-" ++ JsString.pad2 (diaDelMes n))%string.

(** The civil date of the day [n] as one number, YYYYMMDD. *)
Definition numeroDeDia (n : Z) : Z :=
  anioDe n * 10000 + (mesDe n + 1) * 100 + diaDelMes n.

(** The character of the decimal digit [v]. *)
Definition digito (v : Z) : ascii := ascii_of_N (Z.to_N (48 + v)).

(** Four digits and two digits, with leading zeros. *)
Definition cuatroDigitos (y : Z) : string :=
  String (digito (y / 1000))
    (String (digito (y / 100 mod 10))
       (String (digito (y / 10 mod 10)) (String (digito (y mod 10)) ""))).
Definition dosDigitos (n : Z) : string :=
  String (digito (n / 10)) (String (digito (n mod 10)) "").

(** The day-key of a civil date ([m] from 1). *)
Definition claveDe (y m d : Z) : string :=
  (cuatroDigitos y ++ "-" ++ dosDigitos m ++ "-" ++ dosDigitos d)%string.

(** The numeral [d] with the digit [v] before it. *)
Definition consDigito (v : Z) (d : Decimal.uint) : Decimal.uint :=
  match v with
  | 0 => Decimal.D0 d
  | 1 => Decimal.D1 d
  | 2 => Decimal.D2 d
  | 3 => Decimal.D3 d
  | 4 => Decimal.D4 d
  | 5 => Decimal.D5 d
  | 6 => Decimal.D6 d
  | 7 => Decimal.D7 d
  | 8 => Decimal.D8 d
  | _ => Decimal.D9 d
  end.


(** A classifier whose answer to the prompt [promptBase] is [primera] and
    whose answer to any other prompt is [segunda]. *)
Definition servicioEnDosPasos (promptBase primera segunda : string)
  : string -> Resultados.CallOutcome :=
  fun prompt =>
    if (prompt =? promptBase)%string
    then Resultados.Returns (Resultados.JStr primera)
    else Resultados.Returns (Resultados.JStr segunda).

(** Two consecutive days of May 2024, the earlier one given as a string in
    the date-time form without offset. *)
Definition mayoConCadena : list Progreso.DateArg :=
  [ Ejemplos.alas 2024 5 15 12; Progreso.DString "2024-05-14T12:00:00";
    Progreso.DMissing ].

(* ================================================================== *)
(** * Properties *)

(** ** The paths of the classification *)

(** The classification along each path of the [try ... catch], with the
    prompts that were sent on it. *)
Lemma clasificar_paths (AC_MAP : JsObject.t string)
    (JSON_parse : string -> option Resultados.JsVal)
    (callClassifier : string -> Resultados.CallOutcome)
    (promptBase promptRetry : string) (n : Z) :
  Resultados.clasificar AC_MAP JSON_parse callClassifier promptBase promptRetry n
  = match callClassifier promptBase with
    | Resultados.Throws e => Resultados.fallo "skipped" e n [promptBase]
    | Resultados.Returns content1 =>
        let parsed := Resultados.extractJsonObject JSON_parse content1 in
        if negb (Resultados.truthy parsed) then
          match callClassifier promptRetry with
          | Resultados.Throws e =>
              Resultados.fallo "skipped" e n [promptBase; promptRetry]
          | Resultados.Returns content2 =>
              let parsed := Resultados.extractJsonObject JSON_parse content2 in
              if negb (Resultados.truthy parsed)
              then Resultados.fallo "fail_invalid_json" Resultados.errorNoJson n
                     [promptBase; promptRetry]
              else Resultados.exito AC_MAP parsed [promptBase; promptRetry]
          end
        else Resultados.exito AC_MAP parsed [promptBase]
    end.
Proof.
  unfold Resultados.clasificar, Resultados.luego, Resultados.llamar, Resultados.devolver.
  cbn [app].
  destruct (callClassifier promptBase) as [content1 | e]; [| reflexivity].
  cbv zeta.
  destruct (negb (Resultados.truthy (Resultados.extractJsonObject JSON_parse content1)));
    [| reflexivity].
  destruct (callClassifier promptRetry) as [content2 | e]; [| reflexivity].
  destruct (negb (Resultados.truthy (Resultados.extractJsonObject JSON_parse content2)));
    reflexivity.
Qed.

(** ** Sorting *)

Section SortFacts.

Context {A : Type}.
Variable cmp : A -> A -> comparison.

Lemma insertSorted_perm (x : A) (l : list A) :
  Permutation (x :: l) (JsArray.insertSorted cmp x l).
Proof.
  induction l as [| y l IH]; simpl.
  - apply Permutation_refl.
  - destruct (cmp x y).
    + apply Permutation_refl.
    + apply Permutation_refl.
    + eapply Permutation_trans; [apply perm_swap |].
      apply perm_skip, IH.
Qed.

Lemma sort_perm (l : list A) : Permutation l (JsArray.sort cmp l).
Proof.
  induction l as [| x l IH]; simpl.
  - constructor.
  - eapply Permutation_trans; [| apply insertSorted_perm].
    apply perm_skip, IH.
Qed.

Lemma sort_length (l : list A) : List.length (JsArray.sort cmp l) = List.length l.
Proof. symmetry. apply Permutation_length, sort_perm. Qed.

Lemma sort_In (l : list A) (x : A) : In x (JsArray.sort cmp l) <-> In x l.
Proof.
  split; intro H.
  - eapply Permutation_in; [apply Permutation_sym, sort_perm | exact H].
  - eapply Permutation_in; [apply sort_perm | exact H].
Qed.

End SortFacts.

Section SortedFacts.

Context {A : Type}.

Lemma StronglySorted_impl_in (R R' : A -> A -> Prop) (s : list A) :
  (forall a b, In a s -> In b s -> R a b -> R' a b) ->
  StronglySorted R s -> StronglySorted R' s.
Proof.
  intros H Hs. induction Hs as [| x s Hs IH Hx].
  - constructor.
  - constructor.
    + apply IH. intros a b Ha Hb. apply H; now right.
    + apply Forall_forall. intros y Hy. rewrite Forall_forall in Hx.
      apply H; [now left | now right | now apply Hx].
Qed.

Lemma StronglySorted_snoc (R : A -> A -> Prop) (s : list A) (k : A) :
  StronglySorted R s -> Forall (fun a => R a k) s -> StronglySorted R (s ++ [k]).
Proof.
  induction 1 as [| x s Hs IH Hx]; intro Hk; simpl.
  - repeat constructor.
  - inversion Hk; subst. constructor; [now apply IH |].
    apply Forall_app. split; [exact Hx | now constructor].
Qed.


End SortedFacts.

(** ** The order of strings *)

Lemma sle_cases (a b : string) : sle a b <-> a = b \/ String_as_OT.lt a b.
Proof.
  unfold sle. split.
  - intro H. destruct (String.compare a b) eqn:E.
    + left. now apply String_as_OT.cmp_eq.
    + right. now apply String_as_OT.cmp_lt.
    + congruence.
  - intros [-> | H].
    + assert (E : String.compare b b = Eq) by now apply String_as_OT.cmp_eq.
      rewrite E. discriminate.
    + apply String_as_OT.cmp_lt in H. unfold String_as_OT.cmp in H.
      rewrite H. discriminate.
Qed.

Lemma sle_trans (a b c : string) : sle a b -> sle b c -> sle a c.
Proof.
  rewrite !sle_cases. intros [-> | H1] [-> | H2]; auto.
  right. eapply String_as_OT.lt_trans; eauto.
Qed.

Lemma sle_antisym (a b : string) : sle a b -> sle b a -> a = b.
Proof.
  unfold sle. intros H1 H2.
  rewrite String.compare_antisym in H2.
  destruct (String.compare a b) eqn:E; simpl in H2; try congruence.
  now apply String_as_OT.cmp_eq.
Qed.

Lemma sle_total_gt (a b : string) : String.compare a b = Gt -> sle b a.
Proof.
  intro H. unfold sle. rewrite String.compare_antisym, H. discriminate.
Qed.

Lemma insertSorted_strings_sorted (x : string) (l : list string) :
  StronglySorted sle l -> StronglySorted sle (JsArray.insertSorted String.compare x l).
Proof.
  induction 1 as [| y l Hs IH Hy]; simpl.
  - repeat constructor.
  - destruct (String.compare x y) eqn:E.
    + constructor; [constructor; assumption |].
      assert (Hxy : sle x y) by (unfold sle; congruence).
      constructor; [exact Hxy |].
      eapply Forall_impl; [| exact Hy]. intros z Hz. eapply sle_trans; eauto.
    + constructor; [constructor; assumption |].
      assert (Hxy : sle x y) by (unfold sle; congruence).
      constructor; [exact Hxy |].
      eapply Forall_impl; [| exact Hy]. intros z Hz. eapply sle_trans; eauto.
    + constructor; [exact IH |].
      apply Forall_forall. intros z Hz.
      apply (Permutation_in z (Permutation_sym (insertSorted_perm String.compare x l))) in Hz.
      destruct Hz as [<- | Hz].
      * now apply sle_total_gt.
      * rewrite Forall_forall in Hy. now apply Hy.
Qed.

Lemma sortStrings_sorted (l : list string) : StronglySorted sle (JsArray.sortStrings l).
Proof.
  unfold JsArray.sortStrings.
  induction l as [| x l IH]; simpl.
  - constructor.
  - now apply insertSorted_strings_sorted.
Qed.

(** Two sorted lists with the same elements, counted, are the same list. *)
Lemma sorted_perm_eq (l1 l2 : list string) :
  StronglySorted sle l1 -> StronglySorted sle l2 -> Permutation l1 l2 -> l1 = l2.
Proof.
  intros H1. revert l2.
  induction H1 as [| a l1 Hs IH Ha]; intros l2 H2 HP.
  - apply Permutation_nil in HP. now subst.
  - destruct H2 as [| b l2 Hs2 Hb].
    + apply Permutation_sym, Permutation_nil in HP. discriminate.
    + assert (Hab : a = b).
      { apply sle_antisym.
        - assert (Hin : In b (a :: l1))
            by (eapply Permutation_in; [apply Permutation_sym, HP | now left]).
          destruct Hin as [-> | Hin].
          + apply sle_cases. now left.
          + rewrite Forall_forall in Ha. now apply Ha.
        - assert (Hin : In a (b :: l2))
            by (eapply Permutation_in; [apply HP | now left]).
          destruct Hin as [-> | Hin].
          + apply sle_cases. now left.
          + rewrite Forall_forall in Hb. now apply Hb. }
      subst b. f_equal. apply IH; [assumption |].
      eapply Permutation_cons_inv; eauto.
Qed.

Lemma sortStrings_perm_eq (l1 l2 : list string) :
  Permutation l1 l2 -> JsArray.sortStrings l1 = JsArray.sortStrings l2.
Proof.
  intro HP. apply sorted_perm_eq; try apply sortStrings_sorted.
  unfold JsArray.sortStrings.
  eapply Permutation_trans; [apply Permutation_sym, sort_perm |].
  eapply Permutation_trans; [exact HP | apply sort_perm].
Qed.

(** ** Sets *)

Lemma JsSet_has_In (s : JsSet.t) (k : string) : JsSet.has s k = true <-> In k s.
Proof.
  unfold JsSet.has. rewrite existsb_exists. split.
  - intros [x [Hx E]]. apply String.eqb_eq in E. now subst.
  - intro H. exists k. split; [exact H | apply String.eqb_refl].
Qed.

Lemma JsSet_add_In (s : JsSet.t) (k x : string) :
  In x (JsSet.add s k) <-> In x s \/ x = k.
Proof.
  unfold JsSet.add. destruct (JsSet.has s k) eqn:E.
  - apply JsSet_has_In in E. split; [now left | intros [H | ->]; assumption].
  - rewrite in_app_iff. simpl. split.
    + intros [H | [H | []]]; [now left | now right].
    + intros [H | H]; [now left | right; now left].
Qed.

Lemma JsSet_add_NoDup (s : JsSet.t) (k : string) : NoDup s -> NoDup (JsSet.add s k).
Proof.
  intro H. unfold JsSet.add. destruct (JsSet.has s k) eqn:E; [exact H |].
  assert (Hn : ~ In k s).
  { intro Hin. apply JsSet_has_In in Hin. congruence. }
  clear E. induction H as [| a s Ha Hs IH]; simpl.
  - constructor; [intros [] | constructor].
  - constructor.
    + rewrite in_app_iff. simpl. intros [H1 | [H1 | []]]; [now apply Ha |].
      apply Hn. now left.
    + apply IH. intro H1. apply Hn. now right.
Qed.

Lemma JsSet_ofList_gen (l : list string) (s : JsSet.t) :
  NoDup s ->
  NoDup (fold_left JsSet.add l s)
  /\ (forall x, In x (fold_left JsSet.add l s) <-> In x s \/ In x l).
Proof.
  revert s. induction l as [| k l IH]; intros s Hs; simpl.
  - split; [exact Hs | intro x; tauto].
  - destruct (IH (JsSet.add s k) (JsSet_add_NoDup s k Hs)) as [H1 H2].
    split; [exact H1 |]. intro x. rewrite H2, JsSet_add_In. intuition (subst; auto).
Qed.

Lemma JsSet_ofList_NoDup (l : list string) : NoDup (JsSet.ofList l).
Proof. apply JsSet_ofList_gen. constructor. Qed.

Lemma JsSet_ofList_In (l : list string) (x : string) : In x (JsSet.ofList l) <-> In x l.
Proof.
  unfold JsSet.ofList. destruct (JsSet_ofList_gen l [] (NoDup_nil _)) as [_ H].
  rewrite H. simpl. tauto.
Qed.

(** ** The streak *)

Section StreakFacts.

Import Progreso.

Variable madridOffset : Z -> Z.
Variable Date_parse : string -> option Z.

Lemma decimal_not_empty (n : Z) : truthyStr (JsString.decimal n) = true.
Proof.
  unfold JsString.decimal, NilZero.string_of_uint.
  destruct (N.to_uint (Z.to_N n)); reflexivity.
Qed.

Lemma pad2_not_empty (n : Z) : truthyStr (JsString.pad2 n) = true.
Proof.
  unfold JsString.pad2. destruct (n <? 10); [reflexivity | apply decimal_not_empty].
Qed.

Lemma truthyStr_app (a b : string) :
  truthyStr a = true -> truthyStr (a ++ b)%string = true.
Proof. destruct a; [discriminate | reflexivity]. Qed.

(** A valid time value always has a day-key, and it is not empty. *)
Lemma keyOfTime_valid (t : Z) :
  exists k, keyOfTime madridOffset (Some t) = Some k /\ truthyStr k = true.
Proof.
  unfold keyOfTime, formatToParts, partValue. cbn [find fst snd String.eqb Ascii.eqb Bool.eqb].
  simpl.
  rewrite decimal_not_empty, !pad2_not_empty. simpl.
  eexists. split; [reflexivity |].
  apply truthyStr_app, decimal_not_empty.
Qed.

Lemma daySet_gen (l : list DateArg) (s : JsSet.t) :
  NoDup s ->
  NoDup (fold_left (addDay madridOffset Date_parse) l s)
  /\ (forall x, In x (fold_left (addDay madridOffset Date_parse) l s)
                <-> In x s \/ (In x (dayKeys madridOffset Date_parse l)
                               /\ truthyStr x = true)).
Proof.
  revert s. induction l as [| d l IH]; intros s Hs; simpl.
  - split; [exact Hs | intro x; tauto].
  - unfold addDay at 2 4.
    destruct (dayKeyMadrid madridOffset Date_parse d) as [k |] eqn:E; simpl.
    + destruct (truthyStr k) eqn:Ek.
      * destruct (IH (JsSet.add s k) (JsSet_add_NoDup s k Hs)) as [H1 H2].
        split; [exact H1 |]. intro x. rewrite H2, JsSet_add_In.
        intuition (subst; auto).
      * destruct (IH s Hs) as [H1 H2].
        split; [exact H1 |]. intro x. rewrite H2.
        intuition (subst; auto; congruence).
    + apply IH, Hs.
Qed.

Lemma daySet_NoDup (l : list DateArg) : NoDup (daySet madridOffset Date_parse l).
Proof. apply daySet_gen. constructor. Qed.

Lemma daySet_In (l : list DateArg) (x : string) :
  In x (daySet madridOffset Date_parse l)
  <-> In x (dayKeys madridOffset Date_parse l) /\ truthyStr x = true.
Proof.
  unfold daySet. destruct (daySet_gen l [] (NoDup_nil _)) as [_ H].
  rewrite H. simpl. tauto.
Qed.

Lemma walkBack_nonneg (l : list string) : 0 <= walkBack Date_parse l.
Proof.
  induction l as [| x l IH]; [simpl; lia |].
  destruct l as [| y l]; [simpl; lia |].
  change (walkBack Date_parse (x :: y :: l))
    with (if oneDayApart Date_parse x y
          then 1 + walkBack Date_parse (y :: l) else 0).
  destruct (oneDayApart Date_parse x y); lia.
Qed.

(** No input with a day-key: the streak is 0. *)
Lemma computeStreak_no_key (dates : list DateArg) :
  dayKeys madridOffset Date_parse dates = [] ->
  computeStreak madridOffset Date_parse dates = 0.
Proof.
  intro H. unfold computeStreak.
  assert (E : daySet madridOffset Date_parse dates = []).
  { destruct (daySet madridOffset Date_parse dates) as [| k s] eqn:Es; [reflexivity |].
    assert (Hin : In k (daySet madridOffset Date_parse dates)) by (rewrite Es; now left).
    apply daySet_In in Hin. rewrite H in Hin. destruct Hin as [[] _]. }
  rewrite E. reflexivity.
Qed.


End StreakFacts.

(** ** What the streak counts when midnights are a day apart *)

Section StreakMeaning.

Import Progreso.

Variable madridOffset : Z -> Z.
Variable Date_parse : string -> option Z.
(** The day that a key denotes. *)
Variable dayNumber : string -> Z.
Variable dates : list DateArg.

(** On the keys of the input, the host reads the midnights of two keys as
    one day apart exactly when the keys denote consecutive days, and the
    order of the keys as strings is the order of their days. *)
Hypothesis gap_is_day :
  forall a b,
    In a (daySet madridOffset Date_parse dates) ->
    In b (daySet madridOffset Date_parse dates) ->
    oneDayApart Date_parse a b = (dayNumber a - dayNumber b =? 1).
Hypothesis order_is_day :
  forall a b,
    In a (daySet madridOffset Date_parse dates) ->
    In b (daySet madridOffset Date_parse dates) ->
    (String.compare a b = Lt <-> dayNumber a < dayNumber b).

Lemma walkBack_run (l : list string) :
  (forall a b, In a l -> In b l ->
               oneDayApart Date_parse a b = (dayNumber a - dayNumber b =? 1)) ->
  StronglySorted (fun a b => dayNumber b < dayNumber a) l ->
  forall x rest, l = x :: rest ->
    (forall i, 0 <= i <= walkBack Date_parse l ->
               exists k, In k l /\ dayNumber k = dayNumber x - i)
    /\ (forall k, In k l -> dayNumber k <> dayNumber x - (walkBack Date_parse l + 1)).
Proof.
  intros Hgap Hs. induction Hs as [| y l Hs IH Hy]; intros x rest E; [discriminate |].
  inversion E; subst y l. clear E.
  destruct rest as [| z rest'].
  - simpl. split.
    + intros i Hi. exists x. split; [now left | lia].
    + intros k [<- | []]. lia.
  - change (walkBack Date_parse (x :: z :: rest'))
      with (if oneDayApart Date_parse x z
            then 1 + walkBack Date_parse (z :: rest') else 0).
    rewrite (Hgap x z) by (simpl; tauto).
    assert (Hxz : dayNumber z < dayNumber x) by (inversion Hy; assumption).
    destruct (dayNumber x - dayNumber z =? 1) eqn:Eg.
    + apply Z.eqb_eq in Eg.
      destruct (IH (fun a b Ha Hb => Hgap a b (or_intror Ha) (or_intror Hb))
                  z rest' eq_refl) as [H1 H2].
      pose proof (walkBack_nonneg Date_parse (z :: rest')) as Hw.
      split.
      * intros i Hi. destruct (Z.eq_dec i 0) as [-> | Hne].
        -- exists x. split; [now left | lia].
        -- destruct (H1 (i - 1)) as [k [Hk Ek]]; [lia |].
           exists k. split; [now right | lia].
      * intros k [<- | Hk]; [lia |].
        specialize (H2 k Hk). lia.
    + apply Z.eqb_neq in Eg. split.
      * intros i Hi. exists x. split; [now left | lia].
      * intros k [<- | Hk]; [lia |].
        destruct Hk as [<- | Hk]; [lia |].
        inversion Hs as [| ? ? _ Hz]; subst.
        rewrite Forall_forall in Hz. specialize (Hz k Hk). lia.
Qed.

Lemma sorted_strings_by_day (t : list string) :
  StronglySorted sle t -> NoDup t ->
  (forall k, In k t -> In k (daySet madridOffset Date_parse dates)) ->
  StronglySorted (fun a b => dayNumber a < dayNumber b) t.
Proof.
  induction 1 as [| a t Hs IH Ha]; intros Hnd Hm; [constructor |].
  inversion Hnd as [| ? ? Hna Hnt]; subst.
  constructor; [apply IH; [exact Hnt | intros k Hk; apply Hm; now right] |].
  apply Forall_forall. intros b Hb. rewrite Forall_forall in Ha.
  specialize (Ha b Hb).
  apply order_is_day; [apply Hm; now left | apply Hm; now right |].
  unfold sle in Ha. destruct (String.compare a b) eqn:C; [| reflexivity | congruence].
  apply String_as_OT.cmp_eq in C. subst. contradiction.
Qed.

(** With those two facts the streak is the length of the run of
    consecutive days that ends at the most recent day of the input. *)
Lemma computeStreak_counts_run :
  daySet madridOffset Date_parse dates <> [] ->
  exists top,
    In top (daySet madridOffset Date_parse dates)
    /\ (forall k, In k (daySet madridOffset Date_parse dates) ->
                  dayNumber k <= dayNumber top)
    /\ 1 <= computeStreak madridOffset Date_parse dates
    /\ (forall i, 0 <= i < computeStreak madridOffset Date_parse dates ->
                  exists k, In k (daySet madridOffset Date_parse dates)
                            /\ dayNumber k = dayNumber top - i)
    /\ (forall k, In k (daySet madridOffset Date_parse dates) ->
                  dayNumber k
                  <> dayNumber top - computeStreak madridOffset Date_parse dates).
Proof.
  intro Hne. unfold computeStreak.
  set (s := daySet madridOffset Date_parse dates) in *.
  assert (Hsz : (JsSet.size s =? 0) = false).
  { unfold JsSet.size. destruct s; [congruence |]. reflexivity. }
  rewrite Hsz.
  set (l := rev (JsArray.sortStrings s)).
  assert (Hin : forall k, In k l <-> In k s).
  { intro k. unfold l, JsArray.sortStrings. rewrite <- in_rev. apply sort_In. }
  assert (Hnd : NoDup (JsArray.sortStrings s)).
  { eapply Permutation_NoDup; [apply sort_perm | apply daySet_NoDup]. }
  assert (Hsorted : StronglySorted (fun a b => dayNumber b < dayNumber a) l).
  { unfold l.
    assert (Hinc : StronglySorted (fun a b => dayNumber a < dayNumber b)
                     (JsArray.sortStrings s)).
    { apply sorted_strings_by_day; [apply sortStrings_sorted | exact Hnd |].
      intros k Hk. unfold JsArray.sortStrings in Hk.
      exact (proj1 (sort_In String.compare s k) Hk). }
    clear - Hinc. induction Hinc as [| a t Hs IH Ha]; [constructor |].
    simpl. apply StronglySorted_snoc; [exact IH |].
    apply Forall_forall. intros b Hb. apply in_rev in Hb.
    rewrite Forall_forall in Ha. now apply Ha. }
  destruct l as [| top rest] eqn:El.
  { exfalso. destruct s as [| k s']; [congruence |].
    apply (proj2 (Hin k)). now left. }
  destruct (walkBack_run (top :: rest)
              (fun a b Ha Hb => gap_is_day a b (proj1 (Hin a) Ha) (proj1 (Hin b) Hb))
              Hsorted top rest eq_refl) as [H1 H2].
  pose proof (walkBack_nonneg Date_parse (top :: rest)) as Hw.
  exists top. split; [apply Hin; now left |]. split; [| split; [lia | split]].
  - intros k Hk. apply Hin in Hk. destruct Hk as [<- | Hk]; [lia |].
    inversion Hsorted as [| ? ? _ Hf]; subst. rewrite Forall_forall in Hf.
    specialize (Hf k Hk). lia.
  - intros i Hi. destruct (H1 i) as [k [Hk Ek]]; [lia |].
    exists k. split; [now apply Hin | exact Ek].
  - intros k Hk. apply Hin in Hk. specialize (H2 k Hk). lia.
Qed.

End StreakMeaning.

(** On a host in UTC the two facts hold for the days of May of the
    example, shuffled and repeated: the streak is the run of three days that
    ends on 2024-05-15. *)
Lemma streak_counts_run_on_utc_host :
  exists top,
    dayNumberUTC top = JsDate.Day (JsDate.utcOf 2024 5 15 0 0 0)
    /\ Ejemplos.rachaUTC Ejemplos.mayoRevuelto = 3
    /\ (forall i, 0 <= i < 3 ->
                  exists k,
                    In k (Progreso.daySet (JsDate.offsetAtUtc JsDate.tzMadrid)
                            (JsDate.parseIsoLocal JsDate.tzUTC) Ejemplos.mayoRevuelto)
                    /\ dayNumberUTC k = dayNumberUTC top - i)
    /\ (forall k,
           In k (Progreso.daySet (JsDate.offsetAtUtc JsDate.tzMadrid)
                   (JsDate.parseIsoLocal JsDate.tzUTC) Ejemplos.mayoRevuelto) ->
           dayNumberUTC k <> dayNumberUTC top - 3).
Proof.
  assert (Es : Progreso.daySet (JsDate.offsetAtUtc JsDate.tzMadrid)
                 (JsDate.parseIsoLocal JsDate.tzUTC) Ejemplos.mayoRevuelto
               = ["2024-05-13"; "2024-05-15"; "2024-05-14"]%string)
    by (vm_compute; reflexivity).
  assert (Er : Ejemplos.rachaUTC Ejemplos.mayoRevuelto = 3) by (vm_compute; reflexivity).
  destruct (computeStreak_counts_run (JsDate.offsetAtUtc JsDate.tzMadrid)
              (JsDate.parseIsoLocal JsDate.tzUTC) dayNumberUTC Ejemplos.mayoRevuelto)
    as [top [Ht [Hmax [_ [Hrun Hstop]]]]].
  - intros a b Ha Hb. rewrite Es in Ha, Hb.
    destruct Ha as [<- | [<- | [<- | []]]];
      destruct Hb as [<- | [<- | [<- | []]]]; vm_compute; reflexivity.
  - intros a b Ha Hb. rewrite Es in Ha, Hb.
    destruct Ha as [<- | [<- | [<- | []]]];
      destruct Hb as [<- | [<- | [<- | []]]];
      vm_compute; split; intro H; try exact H; try discriminate H; reflexivity.
  - rewrite Es. discriminate.
  - fold (Ejemplos.rachaUTC Ejemplos.mayoRevuelto) in Hrun, Hstop.
    rewrite Er in Hrun, Hstop.
    exists top. split; [| split; [exact Er | split; [exact Hrun | exact Hstop]]].
    rewrite Es in Ht, Hmax.
    assert (H15 : dayNumberUTC "2024-05-15" <= dayNumberUTC top)
      by (apply Hmax; right; now left).
    destruct Ht as [<- | [<- | [<- | []]]]; vm_compute in H15 |- *;
      try reflexivity; exfalso; apply H15; reflexivity.
Qed.

(** C8. [computeStreak] depends only on the set of day-keys of its input:
    two lists of timestamps whose elements normalise to the same set of
    calendar day-keys, whatever their order and their repetitions, have the
    same streak. *)
Theorem computeStreak_invariant
    (madridOffset : Z -> Z) (Date_parse : string -> option Z)
    (l1 l2 : list Progreso.DateArg) :
  (forall k, In k (dayKeys madridOffset Date_parse l1)
             <-> In k (dayKeys madridOffset Date_parse l2)) ->
  Progreso.computeStreak madridOffset Date_parse l1
  = Progreso.computeStreak madridOffset Date_parse l2.
Proof.
  intro H.
  assert (HP : Permutation (Progreso.daySet madridOffset Date_parse l1)
                           (Progreso.daySet madridOffset Date_parse l2)).
  { apply NoDup_Permutation; try apply daySet_NoDup.
    intro x. rewrite !daySet_In, H. tauto. }
  unfold Progreso.computeStreak, JsSet.size.
  rewrite (Permutation_length HP), (sortStrings_perm_eq _ _ HP). reflexivity.
Qed.

Lemma computeStreak_invariant_witness :
  (forall k,
      In k (dayKeys (JsDate.offsetAtUtc JsDate.tzMadrid)
              (JsDate.parseIsoLocal JsDate.tzMadrid) Ejemplos.mayo)
      <-> In k (dayKeys (JsDate.offsetAtUtc JsDate.tzMadrid)
                  (JsDate.parseIsoLocal JsDate.tzMadrid) Ejemplos.mayoRevuelto))
  /\ Ejemplos.rachaMadrid Ejemplos.mayo = Ejemplos.rachaMadrid Ejemplos.mayoRevuelto
  /\ Ejemplos.rachaMadrid Ejemplos.mayoRevuelto = 3.
Proof.
  assert (H : forall k,
      In k (dayKeys (JsDate.offsetAtUtc JsDate.tzMadrid)
              (JsDate.parseIsoLocal JsDate.tzMadrid) Ejemplos.mayo)
      <-> In k (dayKeys (JsDate.offsetAtUtc JsDate.tzMadrid)
                  (JsDate.parseIsoLocal JsDate.tzMadrid) Ejemplos.mayoRevuelto)).
  { intro k. vm_compute. tauto. }
  split; [exact H |]. split.
  - exact (computeStreak_invariant _ _ _ _ H).
  - vm_compute. reflexivity.
Defined.

(** C2. On a host whose zone is Europe/Madrid, three consecutive days
    around the change to summer time give a streak of 1: the midnights that
    [new Date(key + "T00:00:00")] reads on the host's clock are 23 hours
    apart, and [diff === 1] fails. The same input on a host in UTC gives 3,
    and so do three consecutive days of May on either host. *)
Theorem computeStreak_breaks_at_clock_change :
  Ejemplos.rachaMadrid Ejemplos.marzo = 1
  /\ Ejemplos.rachaUTC Ejemplos.marzo = 3
  /\ Ejemplos.rachaMadrid Ejemplos.mayo = 3
  /\ Ejemplos.rachaMadrid Ejemplos.mayoConHueco = 1
  /\ Progreso.oneDayApart (JsDate.parseIsoLocal JsDate.tzMadrid)
       "2024-04-01" "2024-03-31" = false
  /\ JsDate.parseIsoLocal JsDate.tzMadrid "2024-04-01T00:00:00"
     = Some (JsDate.utcOf 2024 3 31 22 0 0)
  /\ JsDate.parseIsoLocal JsDate.tzMadrid "2024-03-31T00:00:00"
     = Some (JsDate.utcOf 2024 3 30 23 0 0).
Proof. vm_compute. repeat split; reflexivity. Qed.

(** ** The weekly window *)

Section DateFacts.

Import JsDate.






End DateFacts.

Section WeekFacts.

Import JsDate Progreso.



End WeekFacts.




(** ** Results without [fecha] *)

Section FechaFacts.

Import Progreso.

Variable host : JsDate.TimeZone.
Variable madridOffset : Z -> Z.
Variable Date_parse : string -> option Z.




End FechaFacts.



(** ** Extraction of the JSON object *)

Section StringFacts.

Local Open Scope string_scope.

Lemma append_length (a b : string) :
  String.length (a ++ b) = (String.length a + String.length b)%nat.
Proof. induction a as [| c a IH]; simpl; [reflexivity | now rewrite IH]. Qed.

Lemma drop_append (a b : string) : JsString.drop (String.length a) (a ++ b) = b.
Proof. induction a as [| c a IH]; simpl; [reflexivity | exact IH]. Qed.


Lemma endsWith_append (a p : string) : JsString.endsWith (a ++ p) p = true.
Proof.
  unfold JsString.endsWith. rewrite append_length.
  replace (String.length a + String.length p - String.length p)%nat
    with (String.length a) by lia.
  rewrite drop_append, String.eqb_refl.
  replace (String.length p <=? String.length a + String.length p)%nat with true
    by (symmetry; apply Nat.leb_le; lia).
  reflexivity.
Qed.

Lemma occurs_append (c : ascii) (a b : string) :
  occurs c (a ++ b) = occurs c a || occurs c b.
Proof.
  induction a as [| x a IH]; simpl; [reflexivity |].
  rewrite IH. now rewrite orb_assoc.
Qed.

Lemma fromFirst_some (c : ascii) (s r : string) :
  JsString.fromFirst c s = Some r ->
  exists pre r', s = pre ++ String c r' /\ r = String c r' /\ occurs c pre = false.
Proof.
  revert r. induction s as [| a s IH]; intros r H; simpl in H; [discriminate |].
  destruct (Ascii.eqb a c) eqn:E.
  - apply Ascii.eqb_eq in E. subst a. inversion H; subst.
    exists "", s. auto.
  - destruct (IH r H) as [pre [r' [E1 [E2 E3]]]].
    exists (String a pre), r'. simpl. rewrite E, E3. subst. auto.
Qed.


Lemma throughLast_some (c : ascii) (s t : string) :
  JsString.throughLast c s = Some t ->
  exists mid post, t = mid ++ String c "" /\ s = t ++ post /\ occurs c post = false.
Proof.
  revert t. induction s as [| a s IH]; intros t H; simpl in H; [discriminate |].
  destruct (JsString.throughLast c s) as [t' |] eqn:E.
  - inversion H; subst. destruct (IH t' eq_refl) as [mid [post [E1 [E2 E3]]]].
    exists (String a mid), post. simpl. subst t'. rewrite <- E2. auto.
  - destruct (Ascii.eqb a c) eqn:Ea; [| discriminate].
    apply Ascii.eqb_eq in Ea. subst a. inversion H; subst.
    exists "", s. simpl. repeat split.
    clear H IH. revert E. induction s as [| b s IHs]; simpl; [reflexivity |].
    destruct (JsString.throughLast c s); [discriminate |].
    destruct (Ascii.eqb b c); [discriminate |]. intros _. now apply IHs.
Qed.



Lemma matchBraces_some (s m : string) :
  Resultados.matchBraces s = Some m ->
  exists pre mid post,
    s = pre ++ m ++ post /\ m = "{" ++ mid ++ "}"
    /\ occurs "{" pre = false /\ occurs "}" post = false.
Proof.
  unfold Resultados.matchBraces. intro H.
  destruct (JsString.fromFirst "{" s) as [r |] eqn:E1; [| discriminate].
  destruct (fromFirst_some _ _ _ E1) as [pre [r' [Es [Er Hpre]]]]. subst r.
  destruct (JsString.throughLast "}" r') as [t |] eqn:E2; [| discriminate].
  inversion H; subst m.
  destruct (throughLast_some _ _ _ E2) as [mid [post [Et [Er' Hpost]]]].
  exists pre, mid, post. subst t. rewrite Es, Er'. simpl. auto.
Qed.


End StringFacts.




(** ** The tags of a classification *)

Section TagFacts.

Import Resultados.

Variable AC_MAP : JsObject.t string.

Lemma primerasValidas_filter (acs : list JsVal) (n : nat) :
  firstn n (filter (fun id => existsb (String.eqb id) (ALLOWED_AC_IDS AC_MAP))
              (map JsString.trim (stringsOf acs)))
  = primerasValidas (ALLOWED_AC_IDS AC_MAP) acs n.
Proof.
  revert n. induction acs as [| v acs IH]; intro n.
  - simpl. now rewrite firstn_nil.
  - destruct n as [| k]; [reflexivity |].
    destruct v as [| | b | m e | s | l | o]; try exact (IH (S k)).
    change (stringsOf (JStr s :: acs)) with (s :: stringsOf acs).
    cbn [map filter primerasValidas].
    destruct (existsb (String.eqb (JsString.trim s)) (ALLOWED_AC_IDS AC_MAP)).
    + cbn [firstn]. f_equal. apply IH.
    + apply IH.
Qed.

Lemma In_firstn {A : Type} (n : nat) (l : list A) (x : A) :
  In x (firstn n l) -> In x l.
Proof.
  revert l. induction n as [| n IH]; intros l H; [destruct H |].
  destruct l as [| a l]; [destruct H |].
  destruct H as [H | H]; [now left | right; now apply IH].
Qed.

Lemma acsFiltrados_allowed (acs : list JsVal) :
  Forall (fun id => In id (ALLOWED_AC_IDS AC_MAP)) (acsFiltradosDe AC_MAP acs).
Proof.
  apply Forall_forall. intros id H. unfold acsFiltradosDe, JsArray.slice0 in H.
  apply In_firstn, filter_In in H. destruct H as [_ H].
  apply existsb_exists in H. destruct H as [x [Hx E]].
  apply String.eqb_eq in E. now subst.
Qed.

Lemma map_trim_id (l : list string) :
  (forall s, In s l -> JsString.trim s = s) -> map JsString.trim l = l.
Proof.
  induction l as [| a l IH]; intro H; simpl; [reflexivity |].
  rewrite (H a) by now left. f_equal. apply IH. intros s Hs. apply H. now right.
Qed.

Lemma In_stringsOf (acs : list JsVal) (s : string) :
  In s (stringsOf acs) <-> In (JStr s) acs.
Proof.
  unfold stringsOf. rewrite in_flat_map. split.
  - intros [v [Hv Hs]]. destruct v; simpl in Hs; try tauto.
    destruct Hs as [-> | []]. exact Hv.
  - intro H. exists (JStr s). split; [exact H | now left].
Qed.

Variable JSON_parse : string -> option JsVal.
Variable callClassifier : string -> CallOutcome.

(** The [try ... catch] ends in its last statement or in the [catch]
    block, entered with one of two statuses. *)
Lemma clasificar_cases (promptBase promptRetry : string) (n : Z) :
  let c := clasificar AC_MAP JSON_parse callClassifier promptBase promptRetry n in
  (exists parsed sent, c = exito AC_MAP parsed sent)
  \/ (exists st e sent,
         c = fallo st e n sent /\ (st = "skipped" \/ st = "fail_invalid_json")%string).
Proof.
  rewrite clasificar_paths. cbv zeta.
  destruct (callClassifier promptBase) as [content1 | e].
  - destruct (negb (truthy (extractJsonObject JSON_parse content1))).
    + destruct (callClassifier promptRetry) as [content2 | e].
      * destruct (negb (truthy (extractJsonObject JSON_parse content2))).
        -- right. eexists _, _, _. split; [reflexivity | now right].
        -- left. eexists _, _. reflexivity.
      * right. eexists _, _, _. split; [reflexivity | now left].
    + left. eexists _, _. reflexivity.
  - right. eexists _, _, _. split; [reflexivity | now left].
Qed.

End TagFacts.

(** C4 (as amended). The tags attached for a parsed answer are the string
    elements of its [acs], each with the white space around it removed,
    that are then in the vocabulary, in order, cut at the first three of
    them: identifiers that are not in the vocabulary and elements that are
    not strings are dropped without an error, every attached tag is in the
    vocabulary and there are never more than three, also when the
    classifier fails. When no string element has white space around it this
    is the claim as stated; ["AC1","BOGUS","AC2","AC3","AC4"] against
    {AC1, AC2, AC3} gives ["AC1","AC2","AC3"]. *)
Theorem acs_trimmed_filtered_capped (AC_MAP : JsObject.t string)
    (acs : list Resultados.JsVal) :
  let allowed := Resultados.ALLOWED_AC_IDS AC_MAP in
  Resultados.acsFiltradosDe AC_MAP acs = primerasValidas allowed acs 3
  /\ (List.length (Resultados.acsFiltradosDe AC_MAP acs) <= 3)%nat
  /\ Forall (fun id => In id allowed) (Resultados.acsFiltradosDe AC_MAP acs)
  /\ ((forall s, In (Resultados.JStr s) acs -> JsString.trim s = s) ->
      Resultados.acsFiltradosDe AC_MAP acs = tagsAsStated allowed acs)
  /\ (forall o sent,
         JsObject.getOwn o "acs"%string = Some (Resultados.JArr acs) ->
         map etiqueta (Resultados.c_errores
                         (Resultados.exito AC_MAP (Resultados.JObj o) sent))
         = primerasValidas allowed acs 3)
  /\ (forall JSON_parse callClassifier promptBase promptRetry n,
         (List.length
            (Resultados.c_errores
               (Resultados.clasificar AC_MAP JSON_parse callClassifier
                  promptBase promptRetry n)) <= 3)%nat)
  /\ Resultados.acsFiltradosDe Ejemplos.vocab3
       [Resultados.JStr "AC1"; Resultados.JStr "BOGUS"; Resultados.JStr "AC2";
        Resultados.JStr "AC3"; Resultados.JStr "AC4"]
     = ["AC1"; "AC2"; "AC3"]%string.
Proof.
  intro allowed.
  assert (E : Resultados.acsFiltradosDe AC_MAP acs = primerasValidas allowed acs 3).
  { unfold Resultados.acsFiltradosDe, JsArray.slice0.
    apply (primerasValidas_filter AC_MAP acs 3). }
  assert (L : forall l, (List.length (Resultados.acsFiltradosDe AC_MAP l) <= 3)%nat).
  { intro l. unfold Resultados.acsFiltradosDe, JsArray.slice0.
    rewrite length_firstn. apply Nat.le_min_l. }
  split; [exact E |]. split; [apply L |]. split; [apply acsFiltrados_allowed |].
  split; [| split; [| split]].
  - intro H. unfold Resultados.acsFiltradosDe, tagsAsStated, JsArray.slice0.
    fold (stringsOf acs). rewrite map_trim_id; [reflexivity |].
    intros s Hs. apply H. now apply In_stringsOf.
  - intros o sent Ho. unfold Resultados.exito. cbn [Resultados.c_errores].
    unfold Resultados.getProp. rewrite Ho.
    rewrite map_map. cbn [etiqueta Resultados.errorDe]. rewrite map_id. exact E.
  - intros JSON_parse callClassifier promptBase promptRetry n.
    destruct (clasificar_cases AC_MAP JSON_parse callClassifier promptBase promptRetry n)
      as [[parsed [sent ->]] | [st [e [sent [-> _]]]]].
    + unfold Resultados.exito. cbn [Resultados.c_errores].
      rewrite length_map. apply L.
    + unfold Resultados.fallo. cbn [Resultados.c_errores].
      destruct (0 <? n); simpl; lia.
  - vm_compute. reflexivity.
Qed.

Lemma acs_trimmed_filtered_capped_witness :
  (forall s, In (Resultados.JStr s) [Resultados.JStr "AC3"; Resultados.JNum 7 0;
                                     Resultados.JStr "AC1"] -> JsString.trim s = s)
  /\ Resultados.acsFiltradosDe Ejemplos.vocab3
       [Resultados.JStr "AC3"; Resultados.JNum 7 0; Resultados.JStr "AC1"]
     = tagsAsStated (Resultados.ALLOWED_AC_IDS Ejemplos.vocab3)
         [Resultados.JStr "AC3"; Resultados.JNum 7 0; Resultados.JStr "AC1"].
Proof.
  assert (H : forall s, In (Resultados.JStr s)
                          [Resultados.JStr "AC3"; Resultados.JNum 7 0; Resultados.JStr "AC1"]
                        -> JsString.trim s = s).
  { intros s [E | [E | [E | []]]]; inversion E; subst; reflexivity. }
  split; [exact H |].
  exact (proj1 (proj2 (proj2 (proj2
           (acs_trimmed_filtered_capped Ejemplos.vocab3
              [Resultados.JStr "AC3"; Resultados.JNum 7 0; Resultados.JStr "AC1"])))) H).
Defined.

(** C4, the claim as stated fails: the element [" AC1"] is not an
    identifier of the vocabulary, and the tag [AC1] is attached for it. *)
Lemma acs_with_space_is_attached :
  Resultados.acsFiltradosDe Ejemplos.vocab3 [Resultados.JStr " AC1"] = ["AC1"%string]
  /\ tagsAsStated (Resultados.ALLOWED_AC_IDS Ejemplos.vocab3) [Resultados.JStr " AC1"] = []
  /\ Resultados.acsFiltradosDe Ejemplos.vocab3 [Resultados.JStr " AC1"]
     <> tagsAsStated (Resultados.ALLOWED_AC_IDS Ejemplos.vocab3) [Resultados.JStr " AC1"].
Proof. vm_compute. repeat split; discriminate. Qed.

(** ** The statuses of a failed classification *)

Section FailureFacts.

Import Resultados.

Lemma fallo_status (st : string) (e : Thrown) (n : Z) (sent : list string) :
  c_classifierStatus (fallo st e n sent)
  = (if isTimeout e then "fail_timeout" else st)%string
  /\ c_errores (fallo st e n sent) = centinela e n
  /\ c_analisisIA (fallo st e n sent) = ""%string
  /\ c_consejoIA (fallo st e n sent) = ""%string.
Proof. repeat split. Qed.

Lemma centinela_labels (e : Thrown) (n : Z) :
  (0 < n -> map etiqueta (centinela e n) = ["AC_UNK"%string])
  /\ (n <= 0 -> centinela e n = []).
Proof.
  unfold centinela. split; intro H.
  - replace (0 <? n) with true by (symmetry; apply Z.ltb_lt; lia). reflexivity.
  - replace (0 <? n) with false by (symmetry; apply Z.ltb_ge; lia). reflexivity.
Qed.

Lemma isTimeout_spec (e : Thrown) :
  isTimeout e = true
  <-> JsString.includes (JsString.toLowerCase (mensajeDe e)) "timeout" = true
      \/ err_code e = "ECONNABORTED"%string.
Proof.
  unfold isTimeout. rewrite orb_true_iff, String.eqb_eq. tauto.
Qed.

End FailureFacts.

(** C3 (as amended). When the classifier path throws, the status is
    "fail_timeout" if the message of the error contains "timeout" (in any
    case) or its code is ECONNABORTED; otherwise the status is left as the
    [try] block had it: "fail_invalid_json" after two extractions without a
    JSON object, and the initial "skipped" when a call to the classifier
    throws another error. On each of these failures one sentinel tag AC_UNK
    is attached when the conversation has at least one message and no tag
    when it is empty, and no analysis and no advice are kept. *)
Theorem classifier_failure_status
    (AC_MAP : JsObject.t string)
    (JSON_parse : string -> option Resultados.JsVal)
    (callClassifier : string -> Resultados.CallOutcome)
    (promptBase promptRetry : string) (n : Z) :
  let c := Resultados.clasificar AC_MAP JSON_parse callClassifier
             promptBase promptRetry n in
  let falsy content :=
    Resultados.truthy (Resultados.extractJsonObject JSON_parse content) = false in
  (forall e,
      callClassifier promptBase = Resultados.Throws e ->
      Resultados.c_classifierStatus c
      = (if Resultados.isTimeout e then "fail_timeout" else "skipped")%string
      /\ Resultados.c_errores c = centinela e n)
  /\ (forall content1 e,
         callClassifier promptBase = Resultados.Returns content1 ->
         falsy content1 ->
         callClassifier promptRetry = Resultados.Throws e ->
         Resultados.c_classifierStatus c
         = (if Resultados.isTimeout e then "fail_timeout" else "skipped")%string
         /\ Resultados.c_errores c = centinela e n)
  /\ (forall content1 content2,
         callClassifier promptBase = Resultados.Returns content1 ->
         falsy content1 ->
         callClassifier promptRetry = Resultados.Returns content2 ->
         falsy content2 ->
         Resultados.c_classifierStatus c = "fail_invalid_json"%string
         /\ Resultados.c_errores c = centinela Resultados.errorNoJson n)
  /\ (Resultados.c_classifierStatus c <> "ok"%string ->
      (0 < n -> map etiqueta (Resultados.c_errores c) = ["AC_UNK"%string])
      /\ (n <= 0 -> Resultados.c_errores c = [])
      /\ Resultados.c_analisisIA c = ""%string
      /\ Resultados.c_consejoIA c = ""%string)
  /\ (forall e,
         Resultados.isTimeout e = true
         <-> JsString.includes (JsString.toLowerCase (Resultados.mensajeDe e)) "timeout" = true
             \/ Resultados.err_code e = "ECONNABORTED"%string)
  /\ (forall e k,
         (0 < k -> map etiqueta (centinela e k) = ["AC_UNK"%string])
         /\ (k <= 0 -> centinela e k = [])).
Proof.
  intros c falsy. unfold falsy.
  split; [| split; [| split; [| split; [| split]]]].
  - intros e He. unfold c. rewrite clasificar_paths. cbv zeta. rewrite He.
    split; reflexivity.
  - intros content1 e H1 Hf H2. unfold c. rewrite clasificar_paths. cbv zeta.
    rewrite H1, Hf. cbn [negb]. rewrite H2. split; reflexivity.
  - intros content1 content2 H1 Hf1 H2 Hf2. unfold c. rewrite clasificar_paths. cbv zeta.
    rewrite H1, Hf1. cbn [negb]. rewrite H2, Hf2. cbn [negb].
    split; reflexivity.
  - intro Hno.
    destruct (clasificar_cases AC_MAP JSON_parse callClassifier promptBase promptRetry n)
      as [[parsed [sent E]] | [st [e [sent [E _]]]]]; fold c in E.
    + exfalso. apply Hno. rewrite E. reflexivity.
    + rewrite E. destruct (fallo_status st e n sent) as [_ [H2 [H3 H4]]].
      rewrite H2, H3, H4. destruct (centinela_labels e n) as [Ha Hb].
      repeat split; assumption.
  - apply isTimeout_spec.
  - intros e k. apply centinela_labels.
Qed.

Lemma classifier_failure_status_witness :
  (fun _ : string => Resultados.Throws Ejemplos.eTimeout) "p"%string
  = Resultados.Throws Ejemplos.eTimeout
  /\ Resultados.c_classifierStatus
       (Resultados.clasificar Ejemplos.vocab3 Resultados.Json.parse
          (fun _ => Resultados.Throws Ejemplos.eTimeout) "p" "q" 2)
     = "fail_timeout"%string
  /\ map etiqueta
       (Resultados.c_errores
          (Resultados.clasificar Ejemplos.vocab3 Resultados.Json.parse
             (fun _ => Resultados.Throws Ejemplos.eTimeout) "p" "q" 2))
     = ["AC_UNK"%string].
Proof.
  pose proof (classifier_failure_status Ejemplos.vocab3 Resultados.Json.parse
                (fun _ => Resultados.Throws Ejemplos.eTimeout) "p" "q" 2) as H.
  cbv zeta in H. destruct H as [H1 [_ [_ [H4 _]]]].
  split; [reflexivity |].
  destruct (H1 Ejemplos.eTimeout eq_refl) as [Hs _].
  split.
  - rewrite Hs. vm_compute. reflexivity.
  - apply H4; [rewrite Hs; vm_compute; discriminate | lia].
Defined.

(** C3, the claim as stated fails: a refused connection is not a timeout,
    no status was set before the call threw, and the final status is
    "skipped", not "fail_invalid_json". *)
Lemma refused_connection_leaves_skipped :
  Resultados.isTimeout Ejemplos.eRefused = false
  /\ Resultados.respuesta
       (Ejemplos.finalizarCon (fun _ => Resultados.Throws Ejemplos.eRefused) Ejemplos.charla)
     = {| status := 200;
          body := Resultados.BGuardado
                    (JsString.lit "Resultado guardado con éxito.") "skipped"
                    {| Resultados.sv_numMensajes := 2;
                       Resultados.sv_analisisIA := false;
                       Resultados.sv_consejoIA := false;
                       Resultados.sv_errores := ["AC_UNK"%string] |} |}
  /\ Resultados.c_classifierStatus
       (Resultados.clasificar Ejemplos.vocab3 Resultados.Json.parse
          (fun _ => Resultados.Throws Ejemplos.eRefused) "p" "q" 2)
     <> "fail_invalid_json"%string.
Proof. vm_compute. repeat split; discriminate. Qed.

(** ** The handler of [POST /finalizar] *)

Section FinalizarFacts.

Import Resultados.

Variable AC_MAP : JsObject.t string.
Variable JSON_parse : string -> option JsVal.
Variable callClassifier : string -> CallOutcome.
Variable isValidObjectId : string -> bool.
Variable findById : string -> DbResult (option Interaccion).
Variable save : NuevoResultado -> DbResult unit.



End FinalizarFacts.



(** ** Objects used as maps *)

Section ObjectFacts.

Context {V : Type}.

Lemma getOwn_None (o : JsObject.t V) (k : string) :
  JsObject.getOwn o k = None <-> ~ In k (map fst o).
Proof.
  induction o as [| [k' v] o IH]; simpl.
  - tauto.
  - destruct (String.eqb_spec k' k) as [-> | Hne].
    + split; [discriminate | intro H; exfalso; apply H; now left].
    + rewrite IH. split.
      * intros H [E | Hin]; [congruence | tauto].
      * intros H Hin. apply H. now right.
Qed.

Lemma setOwn_absent (o : JsObject.t V) (k : string) (v : V) :
  JsObject.getOwn o k = None -> JsObject.setOwn o k v = o ++ [(k, v)].
Proof.
  induction o as [| [k' v'] o IH]; simpl; [reflexivity |].
  destruct (k' =? k)%string; [discriminate |].
  intro H. now rewrite IH.
Qed.

Lemma setOwn_present (o : JsObject.t V) (k : string) (v x : V) :
  JsObject.getOwn o k = Some x ->
  exists o1 o2,
    o = o1 ++ (k, x) :: o2 /\ ~ In k (map fst o1)
    /\ JsObject.setOwn o k v = o1 ++ (k, v) :: o2.
Proof.
  induction o as [| [k' v'] o IH]; simpl; [discriminate |].
  destruct (String.eqb_spec k' k) as [-> | Hne].
  - intro H. inversion H; subst. exists [], o. simpl. auto.
  - intro H. destruct (IH H) as [o1 [o2 [E1 [E2 E3]]]].
    exists ((k', v') :: o1), o2. simpl. rewrite E3. subst o.
    repeat split. intros [E | Hin]; [congruence | tauto].
Qed.

(** Without array indices among the keys, [Object.values] and
    [Object.keys] follow the order of creation. *)
Lemma ownEntries_plain (o : JsObject.t V) :
  Forall (fun p => JsObject.arrayIndex (fst p) = None) o ->
  JsObject.ownEntries o = o.
Proof.
  intro H. unfold JsObject.ownEntries.
  assert (E1 : filter JsObject.isIndex o = []).
  { induction H as [| p o Hp Ho IH]; simpl; [reflexivity |].
    unfold JsObject.isIndex at 1. rewrite Hp. exact IH. }
  assert (E2 : filter (fun p => negb (JsObject.isIndex p)) o = o).
  { induction H as [| p o Hp Ho IH]; simpl; [reflexivity |].
    unfold JsObject.isIndex at 1. rewrite Hp. simpl. f_equal.
    apply IH. simpl in E1. unfold JsObject.isIndex at 1 in E1.
    rewrite Hp in E1. exact E1. }
  rewrite E1, E2. reflexivity.
Qed.

End ObjectFacts.

(** ** Stability of [sort] *)

Section StableSort.

Context {A : Type}.
Variable key : A -> Z.
(** The comparator [(a, b) => key(b) - key(a)]. *)
Variable cmp : A -> A -> comparison.
Hypothesis cmp_key : forall a b, cmp a b = (key b - key a ?= 0).
(** The order of the elements before the sort. *)
Variable before : A -> A -> Prop.




End StableSort.

(** ** The ranking of the frequent errors *)

Section FirstIndexFacts.

Lemma firstIndexOf_app_in (k : string) (l l' : list string) :
  In k l -> firstIndexOf k (l ++ l') = firstIndexOf k l.
Proof.
  induction l as [| x l IH]; simpl; [tauto |].
  intro H. destruct (String.eqb_spec x k) as [-> | Hne]; [reflexivity |].
  f_equal. apply IH. destruct H; [congruence | assumption].
Qed.

Lemma firstIndexOf_lt (k : string) (l : list string) :
  In k l -> (firstIndexOf k l < List.length l)%nat.
Proof.
  induction l as [| x l IH]; simpl; [tauto |].
  intro H. destruct (String.eqb_spec x k) as [-> | Hne]; [lia |].
  destruct H as [H | H]; [congruence |]. apply IH in H. lia.
Qed.

Lemma firstIndexOf_app_new (k : string) (l : list string) :
  ~ In k l -> firstIndexOf k (l ++ [k]) = List.length l.
Proof.
  induction l as [| x l IH]; simpl; intro H.
  - now rewrite String.eqb_refl.
  - destruct (String.eqb_spec x k) as [-> | Hne]; [exfalso; apply H; now left |].
    f_equal. apply IH. tauto.
Qed.

Lemma ofList_snoc (l : list string) (k : string) :
  JsSet.ofList (l ++ [k]) = JsSet.add (JsSet.ofList l) k.
Proof. unfold JsSet.ofList. now rewrite fold_left_app. Qed.

(** The set lists its elements in the order in which they were first met. *)
Lemma ofList_first_index (l : list string) :
  StronglySorted (fun a b => (firstIndexOf a l < firstIndexOf b l)%nat) (JsSet.ofList l).
Proof.
  induction l as [| k l IH] using rev_ind.
  - constructor.
  - rewrite ofList_snoc.
    assert (Hold : StronglySorted
                     (fun a b => (firstIndexOf a (l ++ [k]) < firstIndexOf b (l ++ [k]))%nat)
                     (JsSet.ofList l)).
    { eapply StronglySorted_impl_in; [| exact IH].
      intros a b Ha Hb Hab.
      apply (proj1 (JsSet_ofList_In _ _)) in Ha.
      apply (proj1 (JsSet_ofList_In _ _)) in Hb.
      cbv beta in Hab |- *.
      rewrite (firstIndexOf_app_in a l [k] Ha), (firstIndexOf_app_in b l [k] Hb).
      exact Hab. }
    unfold JsSet.add. destruct (JsSet.has (JsSet.ofList l) k) eqn:E; [exact Hold |].
    assert (Hk : ~ In k l).
    { intro H. apply (proj2 (JsSet_ofList_In _ _)) in H.
      apply (proj2 (JsSet_has_In _ _)) in H. congruence. }
    apply StronglySorted_snoc; [exact Hold |].
    apply Forall_forall. intros a Ha. apply (proj1 (JsSet_ofList_In _ _)) in Ha.
    rewrite firstIndexOf_app_in by exact Ha.
    rewrite firstIndexOf_app_new by exact Hk.
    now apply firstIndexOf_lt.
Qed.

End FirstIndexFacts.

Section FrequentFacts.

Import Progreso.

Lemma etiquetasDe_flat (rs : list Resultado) :
  etiquetasDe rs = map etiqueta (flat_map errores rs).
Proof.
  unfold etiquetasDe. induction rs as [| r rs IH]; simpl; [reflexivity |].
  now rewrite map_app, IH.
Qed.

Lemma mapaErroresDe_flat (rs : list Resultado) :
  mapaErroresDe rs = fold_left contar (flat_map errores rs) [].
Proof.
  unfold mapaErroresDe. generalize (@nil (string * ErrorFrecuente)).
  induction rs as [| r rs IH]; intro m; simpl; [reflexivity |].
  now rewrite IH, fold_left_app.
Qed.

Lemma plainKey_spec (k : string) :
  plainKey k = true ->
  truthyStr k = true /\ JsObject.inherited k = false /\ JsObject.arrayIndex k = None.
Proof.
  unfold plainKey. intro H.
  apply andb_true_iff in H. destruct H as [H H3].
  apply andb_true_iff in H. destruct H as [H1 H2].
  apply negb_true_iff in H2.
  destruct (JsObject.arrayIndex k); [discriminate | auto].
Qed.

Lemma getOwn_snoc_new {V : Type} (o : JsObject.t V) (k : string) (v : V) :
  JsObject.getOwn o k = None -> JsObject.getOwn (o ++ [(k, v)]) k = Some v.
Proof.
  induction o as [| [k' v'] o IH]; simpl.
  - now rewrite String.eqb_refl.
  - destruct (k' =? k)%string; [discriminate | exact IH].
Qed.

Lemma setOwn_snoc_new {V : Type} (o : JsObject.t V) (k : string) (v w : V) :
  JsObject.getOwn o k = None ->
  JsObject.setOwn (o ++ [(k, v)]) k w = o ++ [(k, w)].
Proof.
  induction o as [| [k' v'] o IH]; simpl.
  - now rewrite String.eqb_refl.
  - destruct (k' =? k)%string; [discriminate |]. intro H. now rewrite IH.
Qed.

Lemma count_occ_snoc (labels : list string) (k x : string) :
  count_occ string_dec (labels ++ [k]) x
  = (count_occ string_dec labels x + (if string_dec k x then 1 else 0))%nat.
Proof. rewrite count_occ_app. simpl. destruct (string_dec k x); reflexivity. Qed.

Lemma entradaDe_other (labels : list string) (k : string) (p : string * ErrorFrecuente) :
  fst p <> k -> entradaDe labels p -> entradaDe (labels ++ [k]) p.
Proof.
  intros Hne [H1 H2]. split; [exact H1 |].
  rewrite count_occ_snoc. destruct (string_dec k (fst p)); [congruence |].
  rewrite H2. f_equal. lia.
Qed.

(** The keys of [mapaErrores] are the labels in the order in which they
    were first met, and each entry counts the occurrences of its label. *)
Lemma contar_invariant (tags : list ErrorTag) :
  Forall (fun e => plainKey (etiqueta e) = true) tags ->
  map fst (fold_left contar tags []) = JsSet.ofList (map etiqueta tags)
  /\ Forall (entradaDe (map etiqueta tags)) (fold_left contar tags []).
Proof.
  induction tags as [| e tags IH] using rev_ind; intro Hp.
  - split; constructor.
  - apply Forall_app in Hp. destruct Hp as [Hp He].
    inversion He as [| ? ? Hk _]; subst. clear He.
    destruct (IH Hp) as [Ha Hb]. clear IH.
    rewrite fold_left_app, map_app. simpl fold_left. simpl map.
    set (m := fold_left contar tags []) in *.
    set (labels := map etiqueta tags) in *.
    set (k := etiqueta e) in *.
    rewrite ofList_snoc.
    destruct (plainKey_spec k Hk) as [Ht [Hi _]].
    assert (Hnd : NoDup (map fst m)) by (rewrite Ha; apply JsSet_ofList_NoDup).
    unfold contar. fold k. rewrite Ht. cbn [negb].
    unfold JsObject.truthyAt. rewrite Hi.
    destruct (JsObject.getOwn m k) as [x |] eqn:G.
    + cbn [negb]. rewrite G.
      destruct (setOwn_present m k
                  {| err_etiqueta := err_etiqueta x; err_texto := err_texto x;
                     veces := veces x + 1 |} x G) as [o1 [o2 [Em [Hn1 Es]]]].
      rewrite Es.
      assert (Hin : In k (JsSet.ofList labels)).
      { rewrite <- Ha, Em, map_app. apply in_or_app. right. now left. }
      unfold JsSet.add. rewrite (proj2 (JsSet_has_In _ _) Hin).
      split.
      * rewrite <- Ha, Em, !map_app. reflexivity.
      * rewrite Em in Hb, Hnd. rewrite map_app in Hnd. simpl in Hnd.
        apply NoDup_remove_2 in Hnd.
        apply Forall_app in Hb. destruct Hb as [Hb1 Hb2].
        inversion Hb2 as [| ? ? [Hx1 Hx2] Hb3]; subst.
        apply Forall_app. split; [| constructor].
        -- apply Forall_forall. intros p Hp1. rewrite Forall_forall in Hb1.
           apply entradaDe_other; [| now apply Hb1].
           intro E. apply Hnd. apply in_or_app. left.
           rewrite <- E. now apply in_map.
        -- simpl in Hx1, Hx2. split; [exact Hx1 |]. simpl.
           rewrite count_occ_snoc. destruct (string_dec k k); [| congruence].
           rewrite Hx2. lia.
        -- apply Forall_forall. intros p Hp1. rewrite Forall_forall in Hb3.
           apply entradaDe_other; [| now apply Hb3].
           intro E. apply Hnd. apply in_or_app. right.
           rewrite <- E. now apply in_map.
    + cbn [negb].
      rewrite (setOwn_absent m k _ G), (getOwn_snoc_new m k _ G),
              (setOwn_snoc_new m k _ _ G).
      assert (Hnin : ~ In k (JsSet.ofList labels)).
      { rewrite <- Ha. now apply getOwn_None. }
      unfold JsSet.add.
      destruct (JsSet.has (JsSet.ofList labels) k) eqn:Eh.
      { exfalso. apply Hnin. now apply JsSet_has_In. }
      split.
      * rewrite map_app, Ha. reflexivity.
      * apply Forall_app. split.
        -- apply Forall_forall. intros p Hp1. rewrite Forall_forall in Hb.
           apply entradaDe_other; [| now apply Hb].
           intro E. apply (proj1 (getOwn_None m k) G).
           rewrite <- E. now apply in_map.
        -- constructor; [| constructor]. split; [reflexivity |]. simpl.
           rewrite count_occ_snoc. destruct (string_dec k k); [| congruence].
           rewrite (proj1 (count_occ_not_In string_dec labels k)); [reflexivity |].
           intro H. apply Hnin. now apply JsSet_ofList_In.
Qed.

End FrequentFacts.




(** ** The recommendation *)

Section RecommendationFacts.

Import Progreso.

Lemma porInteracciones_Gt (a b : Eficiencia) :
  porInteracciones a b = Gt <-> (interacciones a < interacciones b)%Q.
Proof.
  unfold porInteracciones. rewrite <- Qgt_alt. split; intro H; lra.
Qed.

Lemma porInteracciones_not_Gt (a b : Eficiencia) :
  porInteracciones a b <> Gt <-> (interacciones b <= interacciones a)%Q.
Proof.
  unfold porInteracciones. rewrite <- Qle_alt. split; intro H; lra.
Qed.

(** The first element of the sorted list has the highest mean. *)
Lemma sort_head_is_worst (l : list Eficiencia) :
  match JsArray.sort porInteracciones l with
  | [] => l = []
  | h :: _ => In h l /\ esPeor h l
  end.
Proof.
  induction l as [| x l IH]; simpl; [reflexivity |].
  destruct (JsArray.sort porInteracciones l) as [| h t] eqn:E.
  - subst l. simpl. split; [now left |].
    intros y [<- | []]. apply Qle_refl.
  - destruct IH as [Hin Hmax]. simpl.
    destruct (porInteracciones x h) eqn:C.
    + assert (Hle : (interacciones h <= interacciones x)%Q)
        by (apply porInteracciones_not_Gt; congruence).
      split; [now left |]. intros y [<- | Hy]; [apply Qle_refl |].
      eapply Qle_trans; [apply Hmax, Hy | exact Hle].
    + assert (Hle : (interacciones h <= interacciones x)%Q)
        by (apply porInteracciones_not_Gt; congruence).
      split; [now left |]. intros y [<- | Hy]; [apply Qle_refl |].
      eapply Qle_trans; [apply Hmax, Hy | exact Hle].
    + apply porInteracciones_Gt in C.
      split; [now right |]. intros y [<- | Hy]; [now apply Qlt_le_weak |].
      now apply Hmax.
Qed.

Lemma hasRealErrors_spec (frecuentes : list ErrorFrecuente) :
  hasRealErrors frecuentes = true
  <-> exists e, In e frecuentes /\ err_etiqueta e <> ""%string
                /\ err_etiqueta e <> "AC_UNK"%string.
Proof.
  unfold hasRealErrors. rewrite existsb_exists. split.
  - intros [e [He H]]. apply andb_true_iff in H. destruct H as [H1 H2].
    exists e. split; [exact He |]. split.
    + unfold truthyStr in H1. apply negb_true_iff, String.eqb_neq in H1. exact H1.
    + apply negb_true_iff, String.eqb_neq in H2. exact H2.
  - intros [e [He [H1 H2]]]. exists e. split; [exact He |].
    apply andb_true_iff. split.
    + unfold truthyStr. apply negb_true_iff, String.eqb_neq. exact H1.
    + apply negb_true_iff, String.eqb_neq. exact H2.
Qed.

End RecommendationFacts.

(** C9 (as amended). The recommendation follows the policy in order. If
    the frequent errors contain a tag other than AC_UNK and the exercise of
    the most recent session has a concept, that concept is looked up: an
    exercise found gives the motive based on the errors, no exercise gives a
    recommendation with no exercise identifier and the name of the concept.
    If they contain such a tag and the most recent session has no concept,
    the recommendation is the generic one. If they contain none and there
    are means per concept, a concept with the highest mean is looked up,
    with the same two outcomes and other motives. With neither, the
    recommendation is the generic one. The lookup that finds no exercise
    never makes the computation throw. *)
Theorem recommendation_policy
    (findOneEjercicio : string -> DbResult (option Progreso.Ejercicio))
    (ultimoResultado : Progreso.Resultado)
    (frecuentes : list Progreso.ErrorFrecuente)
    (eficiencias : list Progreso.Eficiencia) :
  let c := Progreso.refConcepto (Progreso.ejercicio_id ultimoResultado) in
  let r := Progreso.recomendar findOneEjercicio ultimoResultado frecuentes eficiencias in
  let encontrado motivo cc ej :=
    DbOk {| Progreso.titulo := orStr (Progreso.ej_titulo ej) "Ejercicio recomendado";
            Progreso.motivo := motivo;
            Progreso.ejercicioId := Some (Progreso.ej_id ej);
            Progreso.rec_concepto := orStr (Progreso.ej_concepto ej) cc |} in
  let noEncontrado motivo cc :=
    DbOk {| Progreso.titulo := JsString.lit "Recomendación";
            Progreso.motivo := motivo;
            Progreso.ejercicioId := None;
            Progreso.rec_concepto := cc |} in
  (Progreso.hasRealErrors frecuentes = true -> truthyStr c = true ->
   (forall ej, findOneEjercicio c = DbOk (Some ej) ->
               r = encontrado Progreso.motivoErrores c ej)
   /\ (findOneEjercicio c = DbOk None ->
       r = noEncontrado Progreso.motivoUltimaSesion c))
  /\ (Progreso.hasRealErrors frecuentes = true -> truthyStr c = false ->
      r = DbOk Progreso.recomendacionInicial)
  /\ (Progreso.hasRealErrors frecuentes = false -> eficiencias <> [] ->
      exists peor,
        In peor eficiencias /\ esPeor peor eficiencias
        /\ (forall ej, findOneEjercicio (Progreso.concepto peor) = DbOk (Some ej) ->
                       r = encontrado Progreso.motivoActividad (Progreso.concepto peor) ej)
        /\ (findOneEjercicio (Progreso.concepto peor) = DbOk None ->
            r = noEncontrado (Progreso.motivoRefuerza (Progreso.concepto peor))
                  (Progreso.concepto peor)))
  /\ (Progreso.hasRealErrors frecuentes = false -> eficiencias = [] ->
      r = DbOk Progreso.recomendacionInicial)
  /\ ((forall k, findOneEjercicio k <> DbThrows) -> r <> DbThrows)
  /\ (Progreso.hasRealErrors frecuentes = true
      <-> exists e, In e frecuentes /\ Progreso.err_etiqueta e <> ""%string
                    /\ Progreso.err_etiqueta e <> "AC_UNK"%string)
  /\ (option_map Progreso.motivo (Ejemplos.recomendacionPara Ejemplos.historialConError)
      = Some Progreso.motivoErrores
      /\ Ejemplos.recomendacionPara Ejemplos.historialDesconocido
         = Some {| Progreso.titulo := "Mallas";
                   Progreso.motivo := Progreso.motivoActividad;
                   Progreso.ejercicioId := Some "64b000000000000000000002"%string;
                   Progreso.rec_concepto := "Kirchhoff" |}).
Proof.
  intros c r encontrado noEncontrado.
  unfold r, encontrado, noEncontrado, Progreso.recomendar. fold c.
  replace (orStr c "") with c by (unfold orStr; destruct (truthyStr c) eqn:E;
    [reflexivity | destruct c; [reflexivity | discriminate]]).
  split; [| split; [| split; [| split; [| split; [| split]]]]].
  - intros He Hc. rewrite He, Hc. split.
    + intros ej Hf. rewrite Hf. reflexivity.
    + intro Hf. rewrite Hf. reflexivity.
  - intros He Hc. rewrite He, Hc. reflexivity.
  - intros He Hne. rewrite He.
    destruct eficiencias as [| e0 es] eqn:El; [congruence |].
    rewrite <- El in *. clear Hne.
    pose proof (sort_head_is_worst eficiencias) as Hs.
    destruct (JsArray.sort Progreso.porInteracciones eficiencias) as [| peor t] eqn:Es.
    + rewrite Hs in El. discriminate.
    + destruct Hs as [Hin Hmax]. exists peor.
      split; [exact Hin |]. split; [exact Hmax |]. split.
      * intros ej Hf. rewrite Hf. reflexivity.
      * intro Hf. rewrite Hf. reflexivity.
  - intros He Hnil. rewrite He, Hnil. reflexivity.
  - intro Hno.
    destruct (Progreso.hasRealErrors frecuentes).
    + destruct (truthyStr c); [| discriminate].
      destruct (findOneEjercicio c) as [[ej |] |] eqn:Ef; try discriminate.
      exfalso. now apply (Hno c).
    + destruct eficiencias as [| e0 es] eqn:El; [discriminate |].
      rewrite <- El in *.
      pose proof (sort_head_is_worst eficiencias) as Hs.
      destruct (JsArray.sort Progreso.porInteracciones eficiencias) as [| peor t] eqn:Es.
      * rewrite Hs in El. discriminate.
      * destruct (findOneEjercicio (Progreso.concepto peor)) as [[ej |] |] eqn:Ef;
          try discriminate.
        exfalso. now apply (Hno (Progreso.concepto peor)).
  - apply hasRealErrors_spec.
  - vm_compute. split; reflexivity.
Qed.

Lemma recommendation_policy_witness :
  Progreso.hasRealErrors (Progreso.erroresFrecuentesDe Ejemplos.historialConError) = true
  /\ truthyStr "Ley de Ohm" = true
  /\ Ejemplos.catalogo "Ley de Ohm" = DbOk (Some Ejemplos.ejOhm)
  /\ Progreso.recomendar Ejemplos.catalogo
       (Ejemplos.conErrores []) (Progreso.erroresFrecuentesDe Ejemplos.historialConError) []
     = DbOk {| Progreso.titulo := "Ley de Ohm";
               Progreso.motivo := Progreso.motivoErrores;
               Progreso.ejercicioId := Some "64b000000000000000000001"%string;
               Progreso.rec_concepto := "Ley de Ohm" |}.
Proof.
  assert (H1 : Progreso.hasRealErrors
                 (Progreso.erroresFrecuentesDe Ejemplos.historialConError) = true)
    by (vm_compute; reflexivity).
  split; [exact H1 |]. split; [reflexivity |]. split; [reflexivity |].
  pose proof (recommendation_policy Ejemplos.catalogo (Ejemplos.conErrores [])
                (Progreso.erroresFrecuentesDe Ejemplos.historialConError) []) as H.
  cbv zeta in H. destruct H as [H _].
  destruct (H H1 eq_refl) as [Hf _].
  exact (Hf Ejemplos.ejOhm eq_refl).
Defined.

(** C9, the claim as stated fails: the frequent errors contain the tag AC13
    and there are means per concept, but the exercise of the most recent
    session is gone, so no concept is targeted: the recommendation is the
    generic one, without the motive based on the errors and without a
    concept. *)
Lemma real_errors_without_last_concept_give_generic :
  Progreso.hasRealErrors (Progreso.erroresFrecuentesDe Ejemplos.historialSinEjercicio) = true
  /\ Progreso.porConcepto (Progreso.eficienciaDe Ejemplos.historialSinEjercicio) <> []
  /\ Ejemplos.recomendacionPara Ejemplos.historialSinEjercicio
     = Some Progreso.recomendacionInicial
  /\ Progreso.motivo Progreso.recomendacionInicial <> Progreso.motivoErrores
  /\ Progreso.motivo Progreso.recomendacionInicial <> Progreso.motivoUltimaSesion
  /\ Progreso.rec_concepto Progreso.recomendacionInicial = ""%string.
Proof.
  vm_compute. repeat split; discriminate.
Qed.

(* ================================================================== *)
(** * Further properties of the handlers *)

(** ** [POST /finalizar]: what each response has done *)

Section FinalizarStatusFacts.

Import Resultados.

Variable AC_MAP : JsObject.t string.
Variable JSON_parse : string -> option JsVal.
Variable callClassifier : string -> CallOutcome.

Lemma clasificar_llamadas (promptBase promptRetry : string) (n : Z) :
  let c := clasificar AC_MAP JSON_parse callClassifier promptBase promptRetry n in
  (c_llamadas c = [promptBase]
   /\ ((exists e, callClassifier promptBase = Throws e)
       \/ exists content1,
           callClassifier promptBase = Returns content1
           /\ truthy (extractJsonObject JSON_parse content1) = true))
  \/ (c_llamadas c = [promptBase; promptRetry]
      /\ exists content1,
          callClassifier promptBase = Returns content1
          /\ truthy (extractJsonObject JSON_parse content1) = false).
Proof.
  rewrite clasificar_paths. cbv zeta.
  destruct (callClassifier promptBase) as [content1 | e].
  - destruct (truthy (extractJsonObject JSON_parse content1)) eqn:E; cbn [negb].
    + left. split; [reflexivity |]. right. exists content1. auto.
    + right. split; [| exists content1; auto].
      destruct (callClassifier promptRetry) as [content2 | e]; [| reflexivity].
      destruct (negb (truthy (extractJsonObject JSON_parse content2))); reflexivity.
  - left. split; [reflexivity |]. left. exists e. reflexivity.
Qed.

End FinalizarStatusFacts.

Ltac finalizar_case :=
  unfold Resultados.sinEfecto;
  cbn [status Resultados.respuesta Resultados.llamadas Resultados.guardado In];
  repeat match goal with
         | |- _ /\ _ => split
         | |- _ <-> _ => split
         end;
  try (intros [? ?]; discriminate);
  try (intros [? | ?]; discriminate);
  try (intros _; eexists; reflexivity);
  try (intros; discriminate);
  try (intros; split; reflexivity);
  try (intros; reflexivity);
  auto 8.

(** X1. The handler of [POST /finalizar] answers 200, 400, 404 or 500. It
    answers 400 exactly when a field of the request is missing or an
    identifier is not valid, and 404 exactly when the request is valid and
    the interaction does not exist; in both cases the classifier was not
    called and nothing was saved. A result was saved exactly when the answer
    is 200. *)
Theorem finalizar_status_and_effects
    (AC_MAP : JsObject.t string)
    (JSON_parse : string -> option Resultados.JsVal)
    (callClassifier : string -> Resultados.CallOutcome)
    (isValidObjectId : string -> bool)
    (findById : string -> DbResult (option Resultados.Interaccion))
    (save : Resultados.NuevoResultado -> DbResult unit)
    (req : Resultados.Peticion) :
  let ef := Resultados.finalizar AC_MAP JSON_parse callClassifier
              isValidObjectId findById save req in
  let st := status (Resultados.respuesta ef) in
  In st [200; 400; 404; 500]
  /\ (st = 400 <-> peticionValida isValidObjectId req = false)
  /\ (st = 404 <-> peticionValida isValidObjectId req = true
                   /\ findById (Resultados.interaccionId req) = DbOk None)
  /\ (st = 400 \/ st = 404 ->
      Resultados.llamadas ef = [] /\ Resultados.guardado ef = None)
  /\ (st = 200 <-> exists r, Resultados.guardado ef = Some r).
Proof.
  intros ef st. unfold st, ef, Resultados.finalizar, peticionValida.
  destruct (truthyStr (Resultados.userId req)),
           (truthyStr (Resultados.exerciseId req)),
           (truthyStr (Resultados.interaccionId req));
    cbn [negb orb andb]; try solve [finalizar_case].
  destruct (isValidObjectId (Resultados.userId req)),
           (isValidObjectId (Resultados.exerciseId req)),
           (isValidObjectId (Resultados.interaccionId req));
    cbn [negb orb andb]; try solve [finalizar_case].
  destruct (findById (Resultados.interaccionId req)) as [[i |] |];
    try solve [finalizar_case].
  match goal with
  | |- context [save ?r] => destruct (save r)
  end; finalizar_case.
Qed.

(** ** White space *)

Lemma trimEnd_idempotent (s : string) :
  JsString.trimEnd (JsString.trimEnd s) = JsString.trimEnd s.
Proof.
  induction s as [| c s IH]; [reflexivity |].
  cbn [JsString.trimEnd].
  destruct (JsString.trimEnd s) as [| d t] eqn:E.
  - destruct (JsString.isWhiteSpace c) eqn:W; [reflexivity |].
    cbn [JsString.trimEnd]. now rewrite W.
  - cbn [JsString.trimEnd] in *. now rewrite IH.
Qed.

Lemma trimEnd_keeps_head (c : ascii) (s : string) :
  JsString.isWhiteSpace c = false ->
  exists t, JsString.trimEnd (String c s) = String c t.
Proof.
  intro W. cbn [JsString.trimEnd].
  destruct (JsString.trimEnd s) as [| d t].
  - rewrite W. now exists EmptyString.
  - now exists (String d t).
Qed.

Lemma trimStart_head (s : string) :
  JsString.trimStart s = EmptyString
  \/ exists c t, JsString.trimStart s = String c t /\ JsString.isWhiteSpace c = false.
Proof.
  induction s as [| c s IH]; [now left |].
  cbn [JsString.trimStart].
  destruct (JsString.isWhiteSpace c) eqn:W; [exact IH |].
  right. now exists c, s.
Qed.

Lemma trim_idempotent (s : string) : JsString.trim (JsString.trim s) = JsString.trim s.
Proof.
  unfold JsString.trim.
  destruct (trimStart_head s) as [-> | [c [t [-> W]]]]; [reflexivity |].
  destruct (trimEnd_keeps_head c t W) as [u E].
  rewrite E. cbn [JsString.trimStart]. rewrite W. rewrite <- E.
  apply trimEnd_idempotent.
Qed.

(** ** [POST /finalizar]: the classifier calls and the stored record *)

Section FinalizarRecordFacts.

Import Resultados.

Variable AC_MAP : JsObject.t string.
Variable JSON_parse : string -> option JsVal.
Variable callClassifier : string -> CallOutcome.
Variable isValidObjectId : string -> bool.
Variable findById : string -> DbResult (option Interaccion).
Variable save : NuevoResultado -> DbResult unit.

(** After the validations the handler calls the classifier, and saves what
    it made of the answers unless the store refuses. *)
Lemma finalizar_found (req : Peticion) (i : Interaccion) :
  peticionValida isValidObjectId req = true ->
  findById (interaccionId req) = DbOk (Some i) ->
  let n := Z.of_nat (List.length (mensajesDe i)) in
  let promptBase := promptBaseDe AC_MAP (conversacionTextoDe (mensajesDe i)) in
  let c := clasificar AC_MAP JSON_parse callClassifier
             promptBase (promptRetryDe promptBase) n in
  let ef := finalizar AC_MAP JSON_parse callClassifier isValidObjectId findById save req in
  llamadas ef = c_llamadas c
  /\ (guardado ef = None
      \/ exists r, guardado ef = Some r
                   /\ numMensajes r = n
                   /\ analisisIA r = c_analisisIA c
                   /\ consejoIA r = c_consejoIA c
                   /\ errores r = c_errores c).
Proof.
  intros Hv Hf n promptBase c ef.
  unfold peticionValida in Hv.
  repeat (apply andb_true_iff in Hv; destruct Hv as [Hv ?]).
  unfold ef, finalizar.
  repeat match goal with H : _ = true |- _ => rewrite H; clear H end.
  cbn [negb orb]. rewrite Hf. fold (mensajesDe i).
  match goal with
  | |- context [save ?r] => destruct (save r)
  end; cbn [llamadas guardado]; (split; [reflexivity |]).
  - right. eexists. split; [reflexivity |]. cbn [numMensajes analisisIA consejoIA errores].
    repeat split.
  - now left.
Qed.

(** Whatever was saved was made by the classification of a stored
    interaction. *)
Lemma finalizar_guardado (req : Peticion) (r : NuevoResultado) :
  guardado (finalizar AC_MAP JSON_parse callClassifier isValidObjectId findById save req)
  = Some r ->
  exists promptBase promptRetry n,
    let c := clasificar AC_MAP JSON_parse callClassifier promptBase promptRetry n in
    0 <= n
    /\ numMensajes r = n
    /\ analisisIA r = c_analisisIA c
    /\ consejoIA r = c_consejoIA c
    /\ errores r = c_errores c.
Proof.
  unfold finalizar.
  destruct (_ || _ || _); [discriminate |].
  destruct (_ || _ || _); [discriminate |].
  destruct (findById (interaccionId req)) as [[i |] |]; try discriminate.
  match goal with
  | |- context [save ?r] => destruct (save r)
  end; cbn [guardado]; [| discriminate].
  intro E. injection E as <-.
  eexists _, _, _. cbn [numMensajes analisisIA consejoIA errores].
  split; [apply Nat2Z.is_nonneg |]. repeat split.
Qed.

Lemma textoNoVacio_trimmed (v : JsVal) :
  JsString.trim (textoNoVacio v) = textoNoVacio v.
Proof.
  destruct v; try reflexivity. apply trim_idempotent.
Qed.

Lemma clasificar_textos (promptBase promptRetry : string) (n : Z) :
  let c := clasificar AC_MAP JSON_parse callClassifier promptBase promptRetry n in
  JsString.trim (c_analisisIA c) = c_analisisIA c
  /\ JsString.trim (c_consejoIA c) = c_consejoIA c.
Proof.
  destruct (clasificar_cases AC_MAP JSON_parse callClassifier promptBase promptRetry n)
    as [[parsed [sent ->]] | [st [e [sent [-> _]]]]].
  - split; apply textoNoVacio_trimmed.
  - split; reflexivity.
Qed.

Lemma clasificar_errores (promptBase promptRetry : string) (n : Z) :
  let c := clasificar AC_MAP JSON_parse callClassifier promptBase promptRetry n in
  (c_errores c = [] /\ c_classifierStatus c <> "ok"%string /\ n <= 0)
  \/ (exists e, c_errores c = [e] /\ esCentinela e
                /\ c_classifierStatus c <> "ok"%string /\ 0 < n)
  \/ (Forall (esDelVocabulario AC_MAP) (c_errores c)
      /\ c_classifierStatus c = "ok"%string).
Proof.
  destruct (clasificar_cases AC_MAP JSON_parse callClassifier promptBase promptRetry n)
    as [[parsed [sent ->]] | [st [e [sent [-> Hst]]]]].
  - right. right. split; [| reflexivity].
    unfold exito. cbn [c_errores]. apply Forall_forall. intros t Ht.
    apply in_map_iff in Ht. destruct Ht as [id [<- Hid]].
    split; [| reflexivity]. cbn [etiqueta errorDe].
    exact (proj1 (Forall_forall _ _) (acsFiltrados_allowed AC_MAP _) id Hid).
  - assert (Hno : c_classifierStatus (fallo st e n sent) <> "ok"%string).
    { unfold fallo. cbn [c_classifierStatus].
      destruct (isTimeout e); [discriminate |].
      destruct Hst as [-> | ->]; discriminate. }
    unfold fallo in *. cbn [c_errores c_classifierStatus] in *.
    destruct (0 <? n) eqn:Hn.
    + right. left. eexists. split; [reflexivity |].
      split; [| split; [exact Hno | now apply Z.ltb_lt]].
      split; [reflexivity |]. cbn [texto].
      destruct (isTimeout e); [now left | now right].
    + left. split; [reflexivity |]. split; [exact Hno |]. now apply Z.ltb_ge.
Qed.

End FinalizarRecordFacts.

(** X2. For a valid request on a stored interaction the classifier is called
    once with the base prompt, or twice, with the base prompt and then the
    retry prompt; never more, also when the store then refuses the record.
    The second call is made exactly when the first one returned and no
    object could be extracted from its answer, and then it is the outcome of
    that second call that decides the classification: an object extracted
    from its answer is the one used, no object gives the failure for invalid
    JSON, and a throw gives the failure of the throw. After a first call
    that throws there is no retry, and an object extracted from the first
    answer is used without a retry. *)
Theorem classifier_called_once_or_twice
    (AC_MAP : JsObject.t string)
    (JSON_parse : string -> option Resultados.JsVal)
    (callClassifier : string -> Resultados.CallOutcome)
    (isValidObjectId : string -> bool)
    (findById : string -> DbResult (option Resultados.Interaccion))
    (save : Resultados.NuevoResultado -> DbResult unit)
    (req : Resultados.Peticion) (i : Resultados.Interaccion) :
  peticionValida isValidObjectId req = true ->
  findById (Resultados.interaccionId req) = DbOk (Some i) ->
  let n := Z.of_nat (List.length (mensajesDe i)) in
  let promptBase :=
    Resultados.promptBaseDe AC_MAP (Resultados.conversacionTextoDe (mensajesDe i)) in
  let promptRetry := Resultados.promptRetryDe promptBase in
  let extract := Resultados.extractJsonObject JSON_parse in
  let c := Resultados.clasificar AC_MAP JSON_parse callClassifier
             promptBase promptRetry n in
  let ef := Resultados.finalizar AC_MAP JSON_parse callClassifier
              isValidObjectId findById save req in
  let sent := Resultados.llamadas ef in
  sent = Resultados.c_llamadas c
  /\ (sent = [promptBase] \/ sent = [promptBase; promptRetry])
  /\ (sent = [promptBase; promptRetry] <->
      exists content1,
        callClassifier promptBase = Resultados.Returns content1
        /\ Resultados.truthy (extract content1) = false)
  /\ (forall e, callClassifier promptBase = Resultados.Throws e ->
                c = Resultados.fallo "skipped" e n [promptBase])
  /\ (forall content1,
         callClassifier promptBase = Resultados.Returns content1 ->
         Resultados.truthy (extract content1) = true ->
         c = Resultados.exito AC_MAP (extract content1) [promptBase])
  /\ (forall content1,
         callClassifier promptBase = Resultados.Returns content1 ->
         Resultados.truthy (extract content1) = false ->
         (forall content2,
             callClassifier promptRetry = Resultados.Returns content2 ->
             c = if Resultados.truthy (extract content2)
                 then Resultados.exito AC_MAP (extract content2) [promptBase; promptRetry]
                 else Resultados.fallo "fail_invalid_json" Resultados.errorNoJson n
                        [promptBase; promptRetry])
         /\ (forall e,
                callClassifier promptRetry = Resultados.Throws e ->
                c = Resultados.fallo "skipped" e n [promptBase; promptRetry]))
  /\ (forall r, Resultados.guardado ef = Some r ->
                Resultados.analisisIA r = Resultados.c_analisisIA c
                /\ Resultados.consejoIA r = Resultados.c_consejoIA c
                /\ Resultados.errores r = Resultados.c_errores c).
Proof.
  intros Hv Hf n promptBase promptRetry extract c ef sent.
  destruct (finalizar_found AC_MAP JSON_parse callClassifier isValidObjectId
              findById save req i Hv Hf) as [E G].
  fold n promptBase promptRetry c ef in E, G. fold sent in E.
  assert (P : c = _) by apply clasificar_paths. cbv zeta in P.
  fold extract in P.
  split; [exact E |]. rewrite E.
  split; [| split; [| split; [| split; [| split]]]].
  - rewrite P. destruct (callClassifier promptBase) as [content1 | e]; [| now left].
    destruct (negb (Resultados.truthy (extract content1))); [| now left].
    right. destruct (callClassifier promptRetry) as [content2 | e]; [| reflexivity].
    destruct (negb (Resultados.truthy (extract content2))); reflexivity.
  - rewrite P. destruct (callClassifier promptBase) as [content1 | e].
    + destruct (Resultados.truthy (extract content1)) eqn:T; cbn [negb].
      * split; [discriminate |]. intros [c1 [H1 H2]].
        injection H1 as <-. congruence.
      * split; [intros _; exists content1; auto |]. intros _.
        destruct (callClassifier promptRetry) as [content2 | e]; [| reflexivity].
        destruct (negb (Resultados.truthy (extract content2))); reflexivity.
    + split; [discriminate |]. intros [c1 [H1 _]]. discriminate.
  - intros e He. rewrite P, He. reflexivity.
  - intros content1 H1 T. rewrite P, H1, T. reflexivity.
  - intros content1 H1 T. split.
    + intros content2 H2. rewrite P, H1, T, H2. cbn [negb].
      destruct (Resultados.truthy (extract content2)); reflexivity.
    + intros e H2. rewrite P, H1, T, H2. reflexivity.
  - intros r Hr. destruct G as [G | [r' [G [_ [G1 [G2 G3]]]]]]; [congruence |].
    rewrite G in Hr. injection Hr as <-. auto.
Qed.

(** A classifier that answers the base prompt with prose and the retry
    prompt with the fenced object: the second call is made and its answer is
    the one classified. *)
Lemma classifier_called_once_or_twice_witness :
  let promptBase :=
    Resultados.promptBaseDe Ejemplos.vocab3
      (Resultados.conversacionTextoDe (mensajesDe Ejemplos.charla)) in
  let servicio := servicioEnDosPasos promptBase "no json here" Ejemplos.cercado in
  let ef := Ejemplos.finalizarCon servicio Ejemplos.charla in
  peticionValida (fun _ => true) Ejemplos.peticion0 = true
  /\ Resultados.llamadas ef = [promptBase; Resultados.promptRetryDe promptBase]
  /\ option_map (fun r => map etiqueta (Resultados.errores r)) (Resultados.guardado ef)
     = Some ["AC1"%string].
Proof.
  intros promptBase servicio ef.
  split; [reflexivity |].
  pose proof (classifier_called_once_or_twice
                Ejemplos.vocab3 Resultados.Json.parse servicio (fun _ => true)
                (fun _ => DbOk (Some Ejemplos.charla)) (fun _ => DbOk tt)
                Ejemplos.peticion0 Ejemplos.charla eq_refl eq_refl) as H.
  cbv zeta in H. destruct H as [_ [_ [H _]]].
  split; [| vm_compute; reflexivity].
  apply H. exists (Resultados.JStr "no json here").
  split; vm_compute; reflexivity.
Defined.

(** X3. The tags of every record that the handler stores are of one kind:
    either the single tag AC_UNK with one of the two texts of a failed
    classification, or tags whose labels all belong to the vocabulary, each
    with the name that the vocabulary gives to its label (the label itself
    when that name is empty). The two kinds are never mixed. *)
Theorem stored_tags_are_sentinel_or_vocabulary
    (AC_MAP : JsObject.t string)
    (JSON_parse : string -> option Resultados.JsVal)
    (callClassifier : string -> Resultados.CallOutcome)
    (isValidObjectId : string -> bool)
    (findById : string -> DbResult (option Resultados.Interaccion))
    (save : Resultados.NuevoResultado -> DbResult unit)
    (req : Resultados.Peticion) (r : Resultados.NuevoResultado) :
  Resultados.guardado
    (Resultados.finalizar AC_MAP JSON_parse callClassifier
       isValidObjectId findById save req) = Some r ->
  (exists e, Resultados.errores r = [e] /\ esCentinela e
             /\ 0 < Resultados.numMensajes r)
  \/ Forall (esDelVocabulario AC_MAP) (Resultados.errores r).
Proof.
  intro H.
  destruct (finalizar_guardado AC_MAP JSON_parse callClassifier isValidObjectId
              findById save req r H) as [pb [pr [n [_ [Hn [_ [_ He]]]]]]].
  rewrite He, Hn.
  destruct (clasificar_errores AC_MAP JSON_parse callClassifier pb pr n)
    as [[E _] | [[e [E [Hc [_ Hpos]]]] | [Hv _]]].
  - right. rewrite E. constructor.
  - left. exists e. auto.
  - right. exact Hv.
Qed.

Lemma stored_tags_are_sentinel_or_vocabulary_witness :
  exists r,
    Resultados.guardado
      (Ejemplos.finalizarCon (fun _ => Resultados.Returns (Resultados.JStr Ejemplos.cercado))
         Ejemplos.charla) = Some r
    /\ ((exists e, Resultados.errores r = [e] /\ esCentinela e
                   /\ 0 < Resultados.numMensajes r)
        \/ Forall (esDelVocabulario Ejemplos.vocab3) (Resultados.errores r)).
Proof.
  eexists. split; [reflexivity |].
  apply (stored_tags_are_sentinel_or_vocabulary
           Ejemplos.vocab3 Resultados.Json.parse
           (fun _ => Resultados.Returns (Resultados.JStr Ejemplos.cercado)) (fun _ => true)
           (fun _ => DbOk (Some Ejemplos.charla)) (fun _ => DbOk tt)
           Ejemplos.peticion0).
  reflexivity.
Defined.

(** X4. The analysis and the advice of every record that the handler stores
    have no white space around them: each one is empty (nothing was
    produced) or is its own [trim]. *)
Theorem stored_texts_are_trimmed
    (AC_MAP : JsObject.t string)
    (JSON_parse : string -> option Resultados.JsVal)
    (callClassifier : string -> Resultados.CallOutcome)
    (isValidObjectId : string -> bool)
    (findById : string -> DbResult (option Resultados.Interaccion))
    (save : Resultados.NuevoResultado -> DbResult unit)
    (req : Resultados.Peticion) (r : Resultados.NuevoResultado) :
  Resultados.guardado
    (Resultados.finalizar AC_MAP JSON_parse callClassifier
       isValidObjectId findById save req) = Some r ->
  JsString.trim (Resultados.analisisIA r) = Resultados.analisisIA r
  /\ JsString.trim (Resultados.consejoIA r) = Resultados.consejoIA r.
Proof.
  intro H.
  destruct (finalizar_guardado AC_MAP JSON_parse callClassifier isValidObjectId
              findById save req r H) as [pb [pr [n [_ [_ [Ha [Hc _]]]]]]].
  rewrite Ha, Hc. apply clasificar_textos.
Qed.

Lemma stored_texts_are_trimmed_witness :
  exists r,
    Resultados.guardado
      (Ejemplos.finalizarCon
         (fun _ => Resultados.Returns (Resultados.JStr respuestaConEspacios))
         Ejemplos.charla) = Some r
    /\ Resultados.analisisIA r = "Confunde corriente y tension"%string
    /\ JsString.trim (Resultados.analisisIA r) = Resultados.analisisIA r
    /\ JsString.trim (Resultados.consejoIA r) = Resultados.consejoIA r.
Proof.
  eexists. split; [reflexivity |]. split; [reflexivity |].
  apply (stored_texts_are_trimmed
           Ejemplos.vocab3 Resultados.Json.parse
           (fun _ => Resultados.Returns (Resultados.JStr respuestaConEspacios))
           (fun _ => true)
           (fun _ => DbOk (Some Ejemplos.charla)) (fun _ => DbOk tt)
           Ejemplos.peticion0).
  reflexivity.
Defined.

(** ** [extractJsonObject]: what reaches the parser *)

Lemma append_assoc (a b c : string) : ((a ++ b) ++ c = a ++ b ++ c)%string.
Proof. induction a as [| x a IH]; simpl; [reflexivity | now rewrite IH]. Qed.

Lemma append_empty_r (a : string) : (a ++ "")%string = a.
Proof. induction a as [| x a IH]; simpl; [reflexivity | now rewrite IH]. Qed.

Lemma subcadena_refl (s : string) : subcadena s s.
Proof. exists ""%string, ""%string. simpl. now rewrite append_empty_r. Qed.

Lemma subcadena_trans (a b c : string) : subcadena a b -> subcadena b c -> subcadena a c.
Proof.
  intros [x [y ->]] [u [v ->]]. exists (u ++ x)%string, (y ++ v)%string.
  now rewrite !append_assoc.
Qed.

Lemma subcadena_suffix (w s : string) : subcadena s (w ++ s).
Proof. exists w, ""%string. now rewrite append_empty_r. Qed.

Lemma subcadena_prefix (s w : string) : subcadena s (s ++ w).
Proof. now exists ""%string, w. Qed.

Lemma subcadena_occurs (c : ascii) (m s : string) :
  subcadena m s -> occurs c s = false -> occurs c m = false.
Proof.
  intros [a [b ->]] H. rewrite !occurs_append in H.
  apply orb_false_iff in H. destruct H as [_ H].
  apply orb_false_iff in H. tauto.
Qed.

Lemma trimStart_suffix (s : string) : exists w, s = (w ++ JsString.trimStart s)%string.
Proof.
  induction s as [| c s [w IH]]; [now exists ""%string |].
  cbn [JsString.trimStart]. destruct (JsString.isWhiteSpace c).
  - exists (String c w). simpl. now rewrite <- IH.
  - now exists ""%string.
Qed.

Lemma trimEnd_prefix (s : string) : exists w, s = (JsString.trimEnd s ++ w)%string.
Proof.
  induction s as [| c s [w IH]]; [now exists ""%string |].
  cbn [JsString.trimEnd]. destruct (JsString.trimEnd s) as [| d t].
  - destruct (JsString.isWhiteSpace c).
    + now exists (String c s).
    + exists s. reflexivity.
  - exists w. simpl. simpl in IH. now rewrite <- IH.
Qed.

Lemma trim_subcadena (s : string) : subcadena (JsString.trim s) s.
Proof.
  unfold JsString.trim.
  destruct (trimStart_suffix s) as [w E].
  destruct (trimEnd_prefix (JsString.trimStart s)) as [u F].
  exists w, u. now rewrite <- F.
Qed.

Lemma take_drop (n : nat) (s : string) : s = (JsString.take n s ++ JsString.drop n s)%string.
Proof.
  revert s. induction n as [| n IH]; intros [| c s]; simpl; try reflexivity.
  now rewrite <- IH.
Qed.

Lemma drop_subcadena (n : nat) (s : string) : subcadena (JsString.drop n s) s.
Proof. rewrite (take_drop n s) at 2. apply subcadena_suffix. Qed.

Lemma take_subcadena (n : nat) (s : string) : subcadena (JsString.take n s) s.
Proof. rewrite (take_drop n s) at 2. apply subcadena_prefix. Qed.

Lemma cleanedOf_subcadena (s : string) : subcadena (Resultados.cleanedOf s) s.
Proof.
  unfold Resultados.cleanedOf.
  eapply subcadena_trans; [apply trim_subcadena |].
  eapply (subcadena_trans _ (Resultados.dropOpeningFence s)).
  - unfold Resultados.dropClosingFence.
    destruct (JsString.endsWith _ _); [apply take_subcadena | apply subcadena_refl].
  - unfold Resultados.dropOpeningFence.
    destruct (JsString.startsWith s Resultados.fence); [| apply subcadena_refl].
    destruct (String.eqb _ _).
    + eapply subcadena_trans; apply drop_subcadena.
    + apply drop_subcadena.
Qed.

Lemma fromFirst_absent (c : ascii) (s : string) :
  occurs c s = false -> JsString.fromFirst c s = None.
Proof.
  induction s as [| a s IH]; simpl; [reflexivity |].
  intro H. apply orb_false_iff in H. destruct H as [-> H]. now apply IH.
Qed.

Lemma throughLast_absent (c : ascii) (s : string) :
  occurs c s = false -> JsString.throughLast c s = None.
Proof.
  induction s as [| a s IH]; simpl; [reflexivity |].
  intro H. apply orb_false_iff in H. destruct H as [-> H]. now rewrite IH.
Qed.

Lemma startsWith_occurs (c : ascii) (s : string) :
  JsString.startsWith s (String c "") = true -> occurs c s = true.
Proof.
  destruct s as [| a s]; simpl; [discriminate |].
  destruct (ascii_dec c a) as [-> | _]; [| discriminate].
  now rewrite Ascii.eqb_refl.
Qed.

Lemma startsWith_head (c : ascii) (s : string) :
  JsString.startsWith (String c s) (String c "") = true.
Proof.
  unfold JsString.startsWith. simpl.
  destruct (ascii_dec c c) as [_ | N]; [now destruct s | now elim N].
Qed.

Lemma matchBraces_absent (s : string) :
  occurs "{" s = false \/ occurs "}" s = false -> Resultados.matchBraces s = None.
Proof.
  intro H. destruct (Resultados.matchBraces s) as [m |] eqn:E; [| reflexivity].
  destruct (matchBraces_some s m E) as [pre [mid [post [-> [-> _]]]]].
  assert (Ho : occurs "{" (pre ++ ("{" ++ mid ++ "}") ++ post) = true).
  { rewrite occurs_append. simpl. apply orb_true_r. }
  assert (Hc : occurs "}" (pre ++ ("{" ++ mid ++ "}") ++ post) = true).
  { rewrite occurs_append. simpl. rewrite !occurs_append. simpl.
    rewrite !orb_true_r. reflexivity. }
  destruct H; congruence.
Qed.

(** X5. [extractJsonObject] never makes a value up: its result is [null], or
    what [JSON.parse] returned for a part of the given text that starts with
    an opening brace and ends with a closing brace. A text in which no
    opening brace, or no closing brace, occurs gives [null] whatever the
    parser would do. *)
Theorem extractJsonObject_sound (JSON_parse : string -> option Resultados.JsVal)
    (text : Resultados.JsVal) :
  let v := Resultados.extractJsonObject JSON_parse text in
  (v = Resultados.JNull
   \/ exists t m,
        text = Resultados.JStr t /\ subcadena m t
        /\ JsString.startsWith m "{" = true /\ JsString.endsWith m "}" = true
        /\ JSON_parse m = Some v)
  /\ (forall t, text = Resultados.JStr t ->
                occurs "{" t = false \/ occurs "}" t = false ->
                v = Resultados.JNull).
Proof.
  intro v. unfold v. clear v.
  destruct text as [| | | | t | |]; try (split; [now left | intros; discriminate]).
  unfold Resultados.extractJsonObject.
  destruct (negb (truthyStr (JsString.trim t))); [split; [now left | reflexivity] |].
  set (cleaned := Resultados.cleanedOf (JsString.trim t)).
  assert (Hsub : subcadena cleaned t).
  { eapply subcadena_trans; [apply cleanedOf_subcadena | apply trim_subcadena]. }
  split.
  - destruct (JsString.startsWith cleaned "{" && JsString.endsWith cleaned "}") eqn:Hb.
    + apply andb_true_iff in Hb. destruct Hb as [Hs He].
      destruct (JSON_parse cleaned) as [v |] eqn:Hp.
      * right. exists t, cleaned. auto.
      * destruct (Resultados.matchBraces cleaned) as [m |] eqn:Hm; [| now left].
        destruct (JSON_parse m) as [v |] eqn:Hpm; [| now left].
        right. exists t, m.
        destruct (matchBraces_some cleaned m Hm) as [pre [mid [post [Ec [Em _]]]]].
        split; [reflexivity |]. split.
        { eapply subcadena_trans; [| exact Hsub]. exists pre, post. exact Ec. }
        split; [rewrite Em; apply startsWith_head |]. split; [| exact Hpm].
        rewrite Em.
        change ("{" ++ mid ++ "}")%string with (String "{" mid ++ "}")%string.
        apply endsWith_append.
    + destruct (Resultados.matchBraces cleaned) as [m |] eqn:Hm; [| now left].
      destruct (JSON_parse m) as [v |] eqn:Hpm; [| now left].
      right. exists t, m.
      destruct (matchBraces_some cleaned m Hm) as [pre [mid [post [Ec [Em _]]]]].
      split; [reflexivity |]. split.
      { eapply subcadena_trans; [| exact Hsub]. exists pre, post. exact Ec. }
      split; [rewrite Em; apply startsWith_head |]. split; [| exact Hpm].
      rewrite Em.
      change ("{" ++ mid ++ "}")%string with (String "{" mid ++ "}")%string.
      apply endsWith_append.
  - intros t' E H. injection E as <-.
    assert (Hc : occurs "{" cleaned = false \/ occurs "}" cleaned = false).
    { destruct H as [H | H]; [left | right];
        exact (subcadena_occurs _ _ _ Hsub H). }
    rewrite (matchBraces_absent cleaned Hc).
    destruct (JsString.startsWith cleaned "{") eqn:Hs; [| reflexivity].
    destruct (JsString.endsWith cleaned "}") eqn:He; [| reflexivity].
    exfalso. apply startsWith_occurs in Hs.
    destruct Hc as [Hc | Hc]; [congruence |].
    unfold JsString.endsWith in He. apply andb_true_iff in He. destruct He as [_ He].
    apply String.eqb_eq in He.
    assert (Hd : subcadena "}" cleaned).
    { rewrite <- He. apply drop_subcadena. }
    apply (subcadena_occurs "}" _ _ Hd) in Hc. discriminate.
Qed.

(** ** [extractJsonObject]: an object with text around it *)

Lemma trimEnd_nonws (c : ascii) (s : string) :
  JsString.isWhiteSpace c = false ->
  JsString.trimEnd (String c s) = String c (JsString.trimEnd s).
Proof.
  intro W. cbn [JsString.trimEnd].
  destruct (JsString.trimEnd s); [now rewrite W | reflexivity].
Qed.

Lemma trimEnd_app (a b : string) :
  JsString.trimEnd b <> ""%string ->
  JsString.trimEnd (a ++ b) = (a ++ JsString.trimEnd b)%string.
Proof.
  intro H. induction a as [| c a IH]; [reflexivity |].
  simpl. rewrite IH.
  destruct (a ++ JsString.trimEnd b)%string eqn:E; [| reflexivity].
  destruct a; simpl in E; [contradiction | discriminate].
Qed.

Lemma append_eq_split (a b c d : string) :
  (a ++ b = c ++ d)%string ->
  (exists e, c = (a ++ e)%string /\ b = (e ++ d)%string)
  \/ (exists e, a = (c ++ e)%string /\ d = (e ++ b)%string).
Proof.
  revert c. induction a as [| x a IH]; intros c E; simpl in E.
  - left. now exists c.
  - destruct c as [| y c]; simpl in E.
    + right. now exists (String x a).
    + injection E as -> E. destruct (IH c E) as [[e [-> ->]] | [e [-> ->]]].
      * left. now exists e.
      * right. now exists e.
Qed.

Lemma append_last_inj (a b : string) (x y : ascii) :
  (a ++ String x "" = b ++ String y "")%string -> a = b /\ x = y.
Proof.
  revert b. induction a as [| c a IH]; intros [| d b] E; simpl in E.
  - now injection E.
  - injection E as _ E. destruct b; discriminate.
  - injection E as _ E. destruct a; discriminate.
  - injection E as -> E. destruct (IH b E) as [-> ->]. auto.
Qed.

Lemma endsWith_split (s p : string) :
  JsString.endsWith s p = true ->
  s = (JsString.take (String.length s - String.length p) s ++ p)%string.
Proof.
  unfold JsString.endsWith. intro H. apply andb_true_iff in H. destruct H as [_ H].
  apply String.eqb_eq in H.
  transitivity (JsString.take (String.length s - String.length p) s
                ++ JsString.drop (String.length s - String.length p) s)%string;
    [apply take_drop | now rewrite H].
Qed.

Section AroundAnObject.

Variable mid : string.

Lemma rodeado_trimStart (pre post s : string) :
  rodeado mid pre post s -> exists pre', rodeado mid pre' post (JsString.trimStart s).
Proof.
  intros [-> [Hp Hq]]. induction pre as [| c pre IH].
  - exists ""%string. repeat split; assumption.
  - simpl in Hp. apply orb_false_iff in Hp. destruct Hp as [Hc Hp].
    cbn [append JsString.trimStart]. destruct (JsString.isWhiteSpace c).
    + exact (IH Hp).
    + exists (String c pre). repeat split; [| assumption].
      simpl. now rewrite Hc.
Qed.

Lemma rodeado_trimEnd (pre post s : string) :
  rodeado mid pre post s -> exists post', rodeado mid pre post' (JsString.trimEnd s).
Proof.
  intros [-> [Hp Hq]]. exists (JsString.trimEnd post). split; [| split; [exact Hp |]].
  - change (pre ++ String "{" (mid ++ String "}" post))%string
      with (pre ++ (String "{" mid ++ String "}" post))%string.
    rewrite <- !append_assoc.
    assert (E : JsString.trimEnd (String "}" post) = String "}" (JsString.trimEnd post)).
    { apply trimEnd_nonws. reflexivity. }
    rewrite trimEnd_app; rewrite E; [| discriminate].
    rewrite !append_assoc. reflexivity.
  - destruct (trimEnd_prefix post) as [w E].
    apply (subcadena_occurs "}" _ post); [| exact Hq].
    exists ""%string, w. exact E.
Qed.

Lemma rodeado_dropClosingFence (pre post s : string) :
  rodeado mid pre post s -> exists post', rodeado mid pre post' (Resultados.dropClosingFence s).
Proof.
  intros [E [Hp Hq]]. unfold Resultados.dropClosingFence.
  destruct (JsString.endsWith s Resultados.fence) eqn:He;
    [| exists post; repeat split; assumption].
  apply endsWith_split in He.
  set (s0 := JsString.take (String.length s - String.length Resultados.fence) s) in *.
  change (String.length s - 3)%nat
    with (String.length s - String.length Resultados.fence)%nat.
  fold s0.
  assert (Es : ((pre ++ String "{" mid ++ String "}" "") ++ post
                = s0 ++ Resultados.fence)%string).
  { rewrite <- He, E. rewrite ?append_assoc; simpl; rewrite ?append_assoc; reflexivity. }
  destruct (append_eq_split _ _ _ _ Es) as [[e [E0 Ee]] | [e [E0 Ee]]].
  - exists e. split; [| split; [exact Hp |]].
    + rewrite E0. rewrite ?append_assoc; simpl; rewrite ?append_assoc; reflexivity.
    + apply (subcadena_occurs "}" _ post); [| exact Hq].
      exists ""%string, Resultados.fence. exact Ee.
  - unfold Resultados.fence in Ee.
    destruct e as [| e1 [| e2 [| e3 [| e4 e]]]]; simpl in Ee.
    + exists ""%string. rewrite append_empty_r in E0. split; [| split; [exact Hp | reflexivity]].
      rewrite <- E0. rewrite ?append_assoc; simpl; rewrite ?append_assoc; reflexivity.
    + exfalso. injection Ee as <- _. rewrite <- append_assoc in E0.
      apply append_last_inj in E0. destruct E0 as [_ E0]. discriminate.
    + exfalso. injection Ee as <- <- _.
      change (s0 ++ "``")%string with (s0 ++ ("`" ++ "`"))%string in E0.
      rewrite <- !append_assoc in E0.
      apply append_last_inj in E0. destruct E0 as [_ E0]. discriminate.
    + exfalso. injection Ee as <- <- <- _.
      change (s0 ++ "```")%string with (s0 ++ ("``" ++ "`"))%string in E0.
      rewrite <- !append_assoc in E0.
      apply append_last_inj in E0. destruct E0 as [_ E0]. discriminate.
    + discriminate.
Qed.

End AroundAnObject.

Lemma prefix_split (p s : string) :
  prefix p s = true -> exists r, s = (p ++ r)%string.
Proof.
  revert s. induction p as [| a p IH]; intros s H.
  - now exists s.
  - destruct s as [| b s]; [discriminate |]. simpl in H.
    revert H. destruct (ascii_dec a b) as [<- | _]; [| discriminate].
    intro H. destruct (IH s H) as [r ->]. now exists r.
Qed.

Lemma occurs_toLowerCase_brace (x : string) :
  occurs "{" x = true -> occurs "{" (JsString.toLowerCase x) = true.
Proof.
  induction x as [| a x IH]; simpl; [discriminate |].
  intro H. apply orb_true_iff in H. destruct H as [H | H].
  - apply Ascii.eqb_eq in H. subst a. reflexivity.
  - rewrite (IH H). apply orb_true_r.
Qed.

(** A prefix that holds no [c] ends before the first [c]. *)
Lemma prefix_before_first (c : ascii) (pre rest x r : string) :
  occurs c pre = false -> occurs c x = false ->
  (pre ++ String c rest = x ++ r)%string ->
  exists e, pre = (x ++ e)%string /\ r = (e ++ String c rest)%string.
Proof.
  intros Hp Hx E.
  destruct (append_eq_split _ _ _ _ E) as [[e [E1 E2]] | [e [E1 E2]]].
  - destruct e as [| y e]; simpl in E2.
    + exists ""%string. rewrite append_empty_r in E1. subst x. split.
      * now rewrite append_empty_r.
      * now rewrite <- E2.
    + injection E2 as <- _. rewrite E1, occurs_append in Hx. simpl in Hx.
      rewrite Ascii.eqb_refl in Hx. rewrite orb_true_r in Hx. discriminate.
  - exists e. auto.
Qed.

Lemma rodeado_dropOpeningFence (mid pre post s : string) :
  rodeado mid pre post s ->
  exists pre', rodeado mid pre' post (Resultados.dropOpeningFence s).
Proof.
  intros [E [Hp Hq]]. unfold Resultados.dropOpeningFence.
  destruct (JsString.startsWith s Resultados.fence) eqn:Hs;
    [| exists pre; repeat split; assumption].
  apply prefix_split in Hs. destruct Hs as [r Er].
  assert (Hr : JsString.drop 3 s = r) by (rewrite Er; reflexivity).
  rewrite Hr. rewrite E in Er.
  destruct (prefix_before_first "{" pre _ Resultados.fence r Hp eq_refl Er)
    as [e [Epre Ee]].
  assert (He : occurs "{" e = false).
  { apply (subcadena_occurs "{" _ pre); [| exact Hp].
    rewrite Epre. apply subcadena_suffix. }
  destruct (String.eqb _ _) eqn:Hj; [| exists e; repeat split; assumption].
  apply String.eqb_eq in Hj.
  assert (H4 : occurs "{" (JsString.take 4 r) = false).
  { destruct (occurs "{" (JsString.take 4 r)) eqn:H; [| reflexivity].
    apply occurs_toLowerCase_brace in H. rewrite Hj in H. discriminate. }
  pose proof (take_drop 4 r) as Et. rewrite Ee in Et at 1.
  destruct (prefix_before_first "{" e _ _ _ He H4 Et) as [f [Ef Ed]].
  exists f. split; [exact Ed | split; [| exact Hq]].
  apply (subcadena_occurs "{" _ e); [| exact He].
  rewrite Ef. apply subcadena_suffix.
Qed.

Lemma fromFirst_found (c : ascii) (pre r : string) :
  occurs c pre = false ->
  JsString.fromFirst c (pre ++ String c r) = Some (String c r).
Proof.
  induction pre as [| a pre IH]; simpl; intro H.
  - now rewrite Ascii.eqb_refl.
  - apply orb_false_iff in H. destruct H as [-> H]. now apply IH.
Qed.

Lemma throughLast_found (c : ascii) (mid post : string) :
  occurs c post = false ->
  JsString.throughLast c (mid ++ String c post) = Some (mid ++ String c "")%string.
Proof.
  intro H. induction mid as [| a mid IH]; simpl.
  - rewrite (throughLast_absent c post H). now rewrite Ascii.eqb_refl.
  - now rewrite IH.
Qed.

Lemma rodeado_matchBraces (mid pre post s : string) :
  rodeado mid pre post s ->
  Resultados.matchBraces s = Some (String "{" (mid ++ "}"))%string.
Proof.
  intros [-> [Hp Hq]]. unfold Resultados.matchBraces.
  rewrite (fromFirst_found "{" pre _ Hp).
  now rewrite (throughLast_found "}" mid post Hq).
Qed.

(** When such a text starts and ends with the braces it is the object. *)
Lemma rodeado_exact (mid pre post s : string) :
  rodeado mid pre post s ->
  JsString.startsWith s "{" = true -> JsString.endsWith s "}" = true ->
  s = String "{" (mid ++ "}")%string.
Proof.
  intros [E [Hp Hq]] Hs He.
  assert (pre = ""%string) as ->.
  { destruct pre as [| c pre]; [reflexivity |].
    rewrite E in Hs. unfold JsString.startsWith in Hs. cbn [append prefix] in Hs.
    revert Hs. destruct (ascii_dec "{" c) as [<- | _]; [| discriminate].
    simpl in Hp. discriminate. }
  simpl in E. apply endsWith_split in He.
  set (s0 := JsString.take _ s) in He.
  assert (Es : ((String "{" mid ++ String "}" "") ++ post = s0 ++ "}")%string).
  { rewrite <- He, E. rewrite append_assoc. reflexivity. }
  destruct (append_eq_split _ _ _ _ Es) as [[e [_ Ee]] | [e [_ Ee]]].
  - rewrite Ee, occurs_append in Hq. simpl in Hq. rewrite orb_true_r in Hq. discriminate.
  - destruct e as [| x e]; simpl in Ee.
    + rewrite <- Ee in Hq. discriminate.
    + injection Ee as _ Ee. destruct e; [| discriminate]. simpl in Ee.
      rewrite <- Ee in E. exact E.
Qed.

(** X6. [extractJsonObject] tolerates text around the object: when the text
    is an object in braces with anything before it that holds no opening
    brace and anything after it that holds no closing brace (prose, code
    fences, line breaks), and the object parses, the result is the parsed
    object. *)
Theorem extractJsonObject_tolerates_text_around
    (JSON_parse : string -> option Resultados.JsVal)
    (pre mid post : string) (v : Resultados.JsVal) :
  occurs "{" pre = false ->
  occurs "}" post = false ->
  JSON_parse ("{" ++ mid ++ "}")%string = Some v ->
  Resultados.extractJsonObject JSON_parse
    (Resultados.JStr (pre ++ "{" ++ mid ++ "}" ++ post)%string) = v.
Proof.
  intros Hp Hq Hv.
  assert (H0 : rodeado mid pre post (pre ++ "{" ++ mid ++ "}" ++ post)%string)
    by (repeat split; assumption).
  set (t := (pre ++ "{" ++ mid ++ "}" ++ post)%string) in *.
  destruct (rodeado_trimStart mid _ _ _ H0) as [p1 H1].
  destruct (rodeado_trimEnd mid _ _ _ H1) as [q1 H2].
  fold (JsString.trim t) in H2.
  destruct (rodeado_dropOpeningFence mid _ _ _ H2) as [p2 H3].
  destruct (rodeado_dropClosingFence mid _ _ _ H3) as [q2 H4].
  destruct (rodeado_trimStart mid _ _ _ H4) as [p3 H5].
  destruct (rodeado_trimEnd mid _ _ _ H5) as [q3 H6].
  fold (JsString.trim (Resultados.dropClosingFence
                         (Resultados.dropOpeningFence (JsString.trim t)))) in H6.
  fold (Resultados.cleanedOf (JsString.trim t)) in H6.
  unfold Resultados.extractJsonObject.
  assert (Ht : truthyStr (JsString.trim t) = true).
  { destruct H2 as [-> _]. now destruct p1. }
  rewrite Ht. cbn [negb].
  set (cleaned := Resultados.cleanedOf (JsString.trim t)) in *.
  rewrite (rodeado_matchBraces mid _ _ _ H6).
  change (String "{" (mid ++ "}"))%string with ("{" ++ mid ++ "}")%string.
  rewrite Hv.
  destruct (JsString.startsWith cleaned "{" && JsString.endsWith cleaned "}") eqn:Hb;
    [| reflexivity].
  apply andb_true_iff in Hb. destruct Hb as [Hs He].
  rewrite (rodeado_exact mid _ _ _ H6 Hs He).
  change (String "{" (mid ++ "}"))%string with ("{" ++ mid ++ "}")%string.
  now rewrite Hv.
Qed.

Lemma extractJsonObject_tolerates_text_around_witness :
  Resultados.extractJsonObject Resultados.Json.parse
    (Resultados.JStr
       ("Aqui va el resultado: "
        ++ "{" ++ (Resultados.quoted "acs" ++ ":[" ++ Resultados.quoted "AC1" ++ "]")
        ++ "}" ++ " (fin)")%string)
  = Resultados.JObj [("acs"%string, Resultados.JArr [Resultados.JStr "AC1"])].
Proof.
  apply (extractJsonObject_tolerates_text_around Resultados.Json.parse
           "Aqui va el resultado: "
           (Resultados.quoted "acs" ++ ":[" ++ Resultados.quoted "AC1" ++ "]")
           " (fin)");
    vm_compute; reflexivity.
Defined.

(** ** [GET /completed/:userId] *)

(** X7. The handler of [GET /completed/:userId] answers 400 exactly when the
    identifier is not valid and 500 exactly when it is valid and the store
    throws. Otherwise it answers 200 with the exercise references of the
    user's results as strings: each one once, however many results share
    it, none that is not the reference of a result, in the order in which
    they are first met; a result whose reference is [null] contributes the
    string "null". *)
Theorem completed_ids_are_the_distinct_references
    (isValidObjectId : string -> bool)
    (findRefs : string -> DbResult (list Servicio.RawRef))
    (userId : string) :
  let r := Servicio.getCompleted isValidObjectId findRefs userId in
  (status r = 400 <-> isValidObjectId userId = false)
  /\ (status r = 500 <-> isValidObjectId userId = true /\ findRefs userId = DbThrows)
  /\ (forall refs,
         isValidObjectId userId = true -> findRefs userId = DbOk refs ->
         exists ids,
           r = {| status := 200; body := Servicio.BIds ids |}
           /\ NoDup ids
           /\ (forall x, In x ids <-> exists ref, In ref refs /\ Servicio.rawToString ref = x)
           /\ StronglySorted
                (fun a b => (firstIndexOf a (map Servicio.rawToString refs)
                             < firstIndexOf b (map Servicio.rawToString refs))%nat) ids
           /\ (List.length ids <= List.length refs)%nat
           /\ (In Servicio.RawNull refs -> In "null"%string ids)).
Proof.
  intro r. unfold r, Servicio.getCompleted.
  destruct (isValidObjectId userId); cbn [negb].
  - destruct (findRefs userId) as [refs |]; cbn [status].
    + split; [split; discriminate |].
      split; [split; [discriminate | intros [_ ?]; discriminate] |].
      intros refs' _ E. injection E as <-.
      exists (Servicio.completedIdsDe refs). unfold Servicio.completedIdsDe.
      split; [reflexivity |]. split; [apply JsSet_ofList_NoDup |].
      assert (Hin : forall x, In x (JsSet.ofList (map Servicio.rawToString refs))
                              <-> exists ref, In ref refs /\ Servicio.rawToString ref = x).
      { intro x. rewrite JsSet_ofList_In, in_map_iff. split.
        - intros [ref [E H]]. exists ref. auto.
        - intros [ref [H E]]. exists ref. auto. }
      split; [exact Hin |]. split; [apply ofList_first_index |]. split.
      * rewrite <- (length_map Servicio.rawToString refs).
        apply NoDup_incl_length; [apply JsSet_ofList_NoDup |].
        intros x Hx. now apply JsSet_ofList_In.
      * intro Hn. apply Hin. exists Servicio.RawNull. auto.
    + split; [split; discriminate |].
      split; [split; auto |]. intros refs _ E. discriminate.
  - cbn [status]. split; [split; reflexivity |].
    split; [split; [discriminate | intros [? _]; discriminate] |].
    intros refs E. discriminate.
Qed.

(** ** The address of the classifier *)

Lemma dropTrailingSlashes_run (s : string) :
  exists n, s = (Servicio.dropTrailingSlashes s ++ barras n)%string.
Proof.
  induction s as [| c s [n IH]]; [now exists O |].
  cbn [Servicio.dropTrailingSlashes].
  destruct (Servicio.dropTrailingSlashes s) as [| d t].
  - destruct (Ascii.eqb_spec c "/") as [-> | _].
    + exists (S n). simpl. simpl in IH. now rewrite <- IH.
    + exists n. simpl. simpl in IH. now rewrite <- IH.
  - exists n. simpl. simpl in IH. now rewrite <- IH.
Qed.

Lemma dropTrailingSlashes_last (s : string) :
  Servicio.dropTrailingSlashes s = ""%string
  \/ exists a x, Servicio.dropTrailingSlashes s = (a ++ String x "")%string
                 /\ x <> "/"%char.
Proof.
  induction s as [| c s IH]; [now left |].
  cbn [Servicio.dropTrailingSlashes].
  destruct (Servicio.dropTrailingSlashes s) as [| d t].
  - destruct (Ascii.eqb_spec c "/") as [-> | Hne]; [now left |].
    right. now exists ""%string, c.
  - right. destruct IH as [IH | [a [x [E Hx]]]]; [discriminate |].
    exists (String c a), x. simpl. now rewrite E.
Qed.

Lemma endsWith_last (a : string) (x y : ascii) :
  x <> y -> JsString.endsWith (a ++ String x "") (String y "") = false.
Proof.
  intro H. unfold JsString.endsWith. rewrite append_length.
  replace (String.length a + String.length (String x "") - String.length (String y ""))%nat
    with (String.length a) by (simpl; lia).
  rewrite drop_append. apply andb_false_iff. right.
  apply String.eqb_neq. congruence.
Qed.

Lemma lowerChar_idempotent (c : ascii) :
  JsString.lowerChar (JsString.lowerChar c) = JsString.lowerChar c.
Proof.
  destruct c as [[] [] [] [] [] [] [] []]; vm_compute; reflexivity.
Qed.

Lemma toLowerCase_idempotent (s : string) :
  JsString.toLowerCase (JsString.toLowerCase s) = JsString.toLowerCase s.
Proof.
  induction s as [| c s IH]; simpl; [reflexivity |].
  now rewrite lowerChar_idempotent, IH.
Qed.

(** X8. The address given to the HTTP client is the first of the three
    environment variables, in the order OLLAMA_API_URL_UPV, OLLAMA_UPV_URL,
    OLLAMA_API_URL, that is set and not empty, or else the default one,
    without the slashes that end it: only a run of slashes at the end is
    removed, and what is left never ends with a slash, so that a request
    path that starts with one slash gives an address with exactly one
    between them. The switch for insecure TLS is on exactly when its
    variable, in lower case, is one of 1, true, on and yes. *)
Theorem baseURL_has_no_trailing_slash (api_url_upv upv_url api_url : string) :
  let configured := Servicio.OLLAMA_BASE_URL api_url_upv upv_url api_url in
  let base := Servicio.baseURL api_url_upv upv_url api_url in
  (api_url_upv <> ""%string -> configured = api_url_upv)
  /\ (api_url_upv = ""%string -> upv_url <> ""%string -> configured = upv_url)
  /\ (api_url_upv = ""%string -> upv_url = ""%string -> api_url <> ""%string ->
      configured = api_url)
  /\ (api_url_upv = ""%string -> upv_url = ""%string -> api_url = ""%string ->
      configured = "https://ollama.gti-ia.upv.es:443"%string
      /\ base = "https://ollama.gti-ia.upv.es:443"%string)
  /\ configured <> ""%string
  /\ (exists n, configured = (base ++ barras n)%string)
  /\ JsString.endsWith base "/" = false
  /\ Servicio.dropTrailingSlashes base = base
  /\ (forall env,
         Servicio.insecureTLS env = true
         <-> In (JsString.toLowerCase env) ["1"; "true"; "on"; "yes"]%string)
  /\ (forall env, Servicio.insecureTLS (JsString.toLowerCase env) = Servicio.insecureTLS env).
Proof.
  intros configured base.
  assert (Hins : forall env,
             Servicio.insecureTLS env
             = existsb (String.eqb (JsString.toLowerCase env))
                 ["1"; "true"; "on"; "yes"]%string).
  { intro env. unfold Servicio.insecureTLS, orStr, truthyStr.
    destruct env; reflexivity. }
  split; [| split; [| split; [| split; [| split; [| split; [| split; [| split; [| split]]]]]]]].
  - intro H. unfold configured, Servicio.OLLAMA_BASE_URL, orStr, truthyStr.
    destruct (String.eqb_spec api_url_upv ""); [contradiction | reflexivity].
  - intros -> H. unfold configured, Servicio.OLLAMA_BASE_URL, orStr, truthyStr.
    cbn [String.eqb negb].
    destruct (String.eqb_spec upv_url ""); [contradiction | reflexivity].
  - intros -> -> H. unfold configured, Servicio.OLLAMA_BASE_URL, orStr, truthyStr.
    cbn [String.eqb negb].
    destruct (String.eqb_spec api_url ""); [contradiction | reflexivity].
  - intros -> -> ->. split; reflexivity.
  - unfold configured, Servicio.OLLAMA_BASE_URL, orStr, truthyStr.
    destruct (String.eqb_spec api_url_upv ""); cbn [negb]; [| assumption].
    destruct (String.eqb_spec upv_url ""); cbn [negb]; [| assumption].
    destruct (String.eqb_spec api_url ""); cbn [negb]; [discriminate | assumption].
  - apply dropTrailingSlashes_run.
  - unfold base, Servicio.baseURL. fold configured.
    destruct (dropTrailingSlashes_last configured) as [-> | [a [x [-> Hx]]]];
      [reflexivity | now apply endsWith_last].
  - unfold base, Servicio.baseURL. fold configured.
    destruct (dropTrailingSlashes_last configured) as [-> | [a [x [E Hx]]]];
      [reflexivity |].
    rewrite E. clear E. induction a as [| c a IH].
    + simpl. destruct (Ascii.eqb_spec x "/"); [contradiction | reflexivity].
    + cbn [append Servicio.dropTrailingSlashes]. rewrite IH.
      destruct a; reflexivity.
  - intro env. rewrite Hins, existsb_exists. split.
    + intros [x [Hx E]]. apply String.eqb_eq in E. now rewrite E.
    + intro H. exists (JsString.toLowerCase env). split; [exact H | apply String.eqb_refl].
  - intro env. now rewrite !Hins, toLowerCase_idempotent.
Qed.

(** ** The call to the classifier and its prompts *)

(** X9. A response of the service without a text in [data.message.content]
    (an error body, for instance) is handled like an answer that is not
    JSON: when the base prompt and then the retry prompt both get such a
    response, both calls are made, the status is "fail_invalid_json",
    no analysis and no advice are produced, and the only tag is the
    sentinel with the text for an invalid format when the conversation has
    messages. The parser is not consulted: the outcome is the same for
    every [JSON.parse]. *)
Theorem response_without_content_is_invalid_json
    (AC_MAP : JsObject.t string)
    (JSON_parse : string -> option Resultados.JsVal)
    (post : string -> Servicio.ChatRequest -> Resultados.CallOutcome)
    (model promptBase promptRetry : string) (n : Z)
    (r1 r2 : Resultados.JsVal) :
  post "/api/chat"%string (cuerpoDe model promptBase) = Resultados.Returns r1 ->
  post "/api/chat"%string (cuerpoDe model promptRetry) = Resultados.Returns r2 ->
  (forall s, contenidoDe r1 <> Resultados.JStr s) ->
  (forall s, contenidoDe r2 <> Resultados.JStr s) ->
  let c := Resultados.clasificar AC_MAP JSON_parse (Servicio.callClassifier post model)
             promptBase promptRetry n in
  Resultados.c_llamadas c = [promptBase; promptRetry]
  /\ Resultados.c_classifierStatus c = "fail_invalid_json"%string
  /\ Resultados.c_analisisIA c = ""%string
  /\ Resultados.c_consejoIA c = ""%string
  /\ Resultados.c_errores c
     = if 0 <? n
       then [ {| etiqueta := "AC_UNK"; texto := Resultados.textoFormato |} ]
       else [].
Proof.
  intros H1 H2 N1 N2 c.
  assert (Hnull : forall r, (forall s, contenidoDe r <> Resultados.JStr s) ->
                            Resultados.extractJsonObject JSON_parse (contenidoDe r)
                            = Resultados.JNull).
  { intros r N. destruct (contenidoDe r) eqn:E; try reflexivity.
    exfalso. exact (N _ eq_refl). }
  unfold c. rewrite clasificar_paths. cbv zeta. unfold Servicio.callClassifier.
  fold (cuerpoDe model promptBase). fold (cuerpoDe model promptRetry).
  rewrite H1. fold (contenidoDe r1). rewrite (Hnull r1 N1). cbn [Resultados.truthy negb].
  rewrite H2. fold (contenidoDe r2). rewrite (Hnull r2 N2). cbn [Resultados.truthy negb].
  unfold Resultados.fallo.
  replace (Resultados.isTimeout Resultados.errorNoJson) with false
    by (vm_compute; reflexivity).
  cbn [Resultados.c_llamadas Resultados.c_classifierStatus Resultados.c_analisisIA
       Resultados.c_consejoIA Resultados.c_errores].
  repeat split.
Qed.

Lemma response_without_content_is_invalid_json_witness :
  Resultados.c_classifierStatus
    (Resultados.clasificar Ejemplos.vocab3 Resultados.Json.parse
       (Servicio.callClassifier (fun _ _ => Resultados.Returns respuestaDeError) "llama3")
       "base" "retry" 2)
  = "fail_invalid_json"%string.
Proof.
  apply (response_without_content_is_invalid_json
           Ejemplos.vocab3 Resultados.Json.parse
           (fun _ _ => Resultados.Returns respuestaDeError) "llama3" "base" "retry" 2
           respuestaDeError respuestaDeError eq_refl eq_refl);
    intros s; vm_compute; discriminate.
Defined.

Lemma trimStart_nonws (c : ascii) (s : string) :
  JsString.isWhiteSpace c = false -> JsString.trimStart (String c s) = String c s.
Proof. intro W. cbn [JsString.trimStart]. now rewrite W. Qed.

Lemma append_length_neq (a b : string) : a <> ""%string -> (a ++ b)%string <> b.
Proof.
  intros Ha E. apply (f_equal String.length) in E. rewrite append_length in E.
  destruct a; [contradiction | simpl in E; lia].
Qed.

Lemma trimEnd_app_keeps (a b b' : string) :
  JsString.trimEnd b = b' /\ b' <> ""%string ->
  JsString.trimEnd (a ++ b) = (a ++ b')%string /\ (a ++ b')%string <> ""%string.
Proof.
  intros [E H]. split.
  - rewrite trimEnd_app; rewrite E; [reflexivity | exact H].
  - destruct a; [exact H | discriminate].
Qed.

(** The template of the base prompt around its two holes. *)
Lemma promptBaseDe_template :
  exists h1 h2,
    JsString.startsWith h1 "Eres un asistente" = true
    /\ JsString.endsWith h2 (Resultados.nl ++ "---" ++ Resultados.nl) = true
    /\ forall AC_MAP t,
         Resultados.promptBaseDe AC_MAP t
         = (h1 ++ Resultados.ALLOWED_AC_IDS_TEXT AC_MAP ++ h2 ++ t
            ++ Resultados.nl ++ "---")%string.
Proof.
  exists (JsString.take 304 (Resultados.promptBaseDe [] "")),
         (JsString.take 219 (JsString.drop 304 (Resultados.promptBaseDe [] ""))).
  split; [vm_compute; reflexivity |]. split; [vm_compute; reflexivity |].
  intros AC_MAP t. unfold Resultados.promptBaseDe at 1.
  generalize (Resultados.ALLOWED_AC_IDS_TEXT AC_MAP). intro ids.
  set (h1 := JsString.take 304 (Resultados.promptBaseDe [] "")).
  set (h2 := JsString.take 219 (JsString.drop 304 (Resultados.promptBaseDe [] ""))).
  match goal with
  | |- JsString.trim ?j = _ =>
      assert (E : j = (Resultados.nl ++ h1 ++ ids ++ h2 ++ t
                       ++ Resultados.nl ++ "---" ++ Resultados.nl)%string)
        by (vm_compute; reflexivity);
      rewrite E; clear E
  end.
  assert (Hh : exists c r, h1 = String c r /\ JsString.isWhiteSpace c = false).
  { eexists _, _. split; vm_compute; reflexivity. }
  destruct Hh as [c [r [Eh W]]].
  unfold JsString.trim. change (Resultados.nl ++ ?x)%string with (String (ascii_of_nat 10) x).
  cbn [JsString.trimStart]. 
  replace (JsString.isWhiteSpace (ascii_of_nat 10)) with true by (vm_compute; reflexivity).
  rewrite Eh. cbn [append]. rewrite (trimStart_nonws c _ W).
  change (String c (r ++ ?x))%string with (String c r ++ x)%string.
  rewrite <- Eh.
  assert (T0 : JsString.trimEnd (Resultados.nl ++ "---" ++ Resultados.nl)
               = (Resultados.nl ++ "---")%string
               /\ (Resultados.nl ++ "---")%string <> ""%string)
    by (split; [vm_compute; reflexivity | discriminate]).
  pose proof (trimEnd_app_keeps t _ _ T0) as T1.
  pose proof (trimEnd_app_keeps h2 _ _ T1) as T2.
  pose proof (trimEnd_app_keeps ids _ _ T2) as T3.
  pose proof (trimEnd_app_keeps h1 _ _ T3) as T4.
  exact (proj1 T4).
Qed.

Lemma trimStart_ws (c : ascii) (s : string) :
  JsString.isWhiteSpace c = true -> JsString.trimStart (String c s) = JsString.trimStart s.
Proof. intro W. cbn [JsString.trimStart]. now rewrite W. Qed.

Lemma trimStart_app_nonws (a b : string) (c : ascii) (r : string) :
  a = String c r -> JsString.isWhiteSpace c = false ->
  JsString.trimStart (a ++ b) = (a ++ b)%string.
Proof. intros -> W. apply trimStart_nonws, W. Qed.

(** The retry prompt of a text that white space does not end. *)
Lemma promptRetryDe_prepends (promptBase : string) :
  JsString.trimEnd (promptBase ++ Resultados.nl) = promptBase /\ promptBase <> ""%string ->
  Resultados.promptRetryDe promptBase = (preambulo ++ Resultados.nl ++ promptBase)%string.
Proof.
  intro T5.
  unfold Resultados.promptRetryDe, preambulo.
  match goal with
  | |- context [JsString.lit ?x] => set (P := JsString.lit x)
  end.
  assert (Hh : exists c r, P = String c r /\ JsString.isWhiteSpace c = false).
  { eexists _, _. split; vm_compute; reflexivity. }
  destruct Hh as [c [r [Eh W]]]. clearbody P.
  change (JsString.join Resultados.nl [""%string; P; promptBase; ""%string])
    with (String (ascii_of_nat 10)
            (P ++ Resultados.nl ++ promptBase ++ Resultados.nl))%string.
  unfold JsString.trim.
  rewrite trimStart_ws by (vm_compute; reflexivity).
  rewrite (trimStart_app_nonws P _ c r Eh W).
  pose proof (trimEnd_app_keeps Resultados.nl _ _ T5) as T6.
  pose proof (trimEnd_app_keeps P _ _ T6) as T7.
  exact (proj1 T7).
Qed.

(** X10. The two prompts are the fixed template around what is put into it.
    The base prompt is a fixed text that starts with the instructions, the
    identifiers of the vocabulary, a fixed text that ends with a line of
    three dashes, the text of the conversation exactly as it is (trimming
    the template removes nothing of it, not even white space at its ends),
    and a closing line of three dashes. The retry prompt is the base prompt
    with one line before it, so the two prompts of a request are never the
    same text. *)
Theorem prompts_keep_the_conversation_verbatim :
  exists h1 h2,
    JsString.startsWith h1 "Eres un asistente" = true
    /\ JsString.endsWith h2 (Resultados.nl ++ "---" ++ Resultados.nl) = true
    /\ forall AC_MAP t,
         let promptBase := Resultados.promptBaseDe AC_MAP t in
         promptBase
         = (h1 ++ Resultados.ALLOWED_AC_IDS_TEXT AC_MAP ++ h2 ++ t
            ++ Resultados.nl ++ "---")%string
         /\ Resultados.promptRetryDe promptBase
            = (preambulo ++ Resultados.nl ++ promptBase)%string
         /\ Resultados.promptRetryDe promptBase <> promptBase.
Proof.
  destruct promptBaseDe_template as [h1 [h2 [A [B C]]]].
  exists h1, h2. split; [exact A |]. split; [exact B |].
  intros AC_MAP t. cbv zeta. pose proof (C AC_MAP t) as E.
  generalize dependent (Resultados.promptBaseDe AC_MAP t). intros promptBase E.
  generalize dependent (Resultados.ALLOWED_AC_IDS_TEXT AC_MAP). intros ids E.
  assert (T0 : JsString.trimEnd (Resultados.nl ++ "---" ++ Resultados.nl)
               = (Resultados.nl ++ "---")%string
               /\ (Resultados.nl ++ "---")%string <> ""%string)
    by (split; [vm_compute; reflexivity | discriminate]).
  pose proof (trimEnd_app_keeps t _ _ T0) as T1.
  pose proof (trimEnd_app_keeps h2 _ _ T1) as T2.
  pose proof (trimEnd_app_keeps ids _ _ T2) as T3.
  pose proof (trimEnd_app_keeps h1 _ _ T3) as T4.
  rewrite <- E in T4.
  assert (T5 : JsString.trimEnd (promptBase ++ Resultados.nl) = promptBase
               /\ promptBase <> ""%string).
  { destruct T4 as [T4 N]. split; [| exact N].
    replace (promptBase ++ Resultados.nl)%string
      with (h1 ++ ids ++ h2 ++ t ++ Resultados.nl ++ "---" ++ Resultados.nl)%string;
      [exact T4 | rewrite E, !append_assoc; reflexivity]. }
  pose proof (promptRetryDe_prepends promptBase T5) as R.
  split; [exact E |]. split; [exact R |].
  rewrite R. rewrite <- append_assoc. apply append_length_neq.
  vm_compute. discriminate.
Qed.

(** ** B) The difficulty per concept *)

Section EficienciaFacts.

Import Progreso.

Lemma sumaMensajes_snoc (l : list Resultado) (r : Resultado) :
  sumaMensajes (l ++ [r]) = sumaMensajes l + numMensajes r.
Proof.
  unfold sumaMensajes. induction l as [| x l IH]; simpl; [lia |].
  rewrite IH. lia.
Qed.

Lemma delConcepto_snoc (c : string) (rs : list Resultado) (r : Resultado) :
  delConcepto c (rs ++ [r])
  = delConcepto c rs ++ (if (conceptoDe r =? c)%string then [r] else []).
Proof. unfold delConcepto. rewrite filter_app. reflexivity. Qed.

Lemma entradaEf_other (rs : list Resultado) (r : Resultado) (p : string * Acumulado) :
  fst p <> conceptoDe r -> entradaEf rs p -> entradaEf (rs ++ [r]) p.
Proof.
  intros Hne [H1 H2]. unfold entradaEf. rewrite delConcepto_snoc.
  destruct (String.eqb_spec (conceptoDe r) (fst p)) as [E | _]; [congruence |].
  rewrite app_nil_r. auto.
Qed.

Lemma entradaEf_same (rs : list Resultado) (r : Resultado) (a : Acumulado) :
  entradaEf rs (conceptoDe r, a) ->
  entradaEf (rs ++ [r])
    (conceptoDe r, {| total := total a + numMensajes r; count := count a + 1 |}).
Proof.
  intros [H1 H2]. unfold entradaEf. cbn [fst snd total count] in *.
  rewrite delConcepto_snoc, String.eqb_refl, sumaMensajes_snoc, length_app.
  rewrite H1, H2. simpl. split; [reflexivity | lia].
Qed.

(** The keys of [eficiencia] are the concepts in the order in which they
    were first met, and each entry adds up the results of its concept. *)
Lemma acumular_invariant (rs : list Resultado) :
  Forall (fun c => plainKey c = true) (conceptosDe rs) ->
  map fst (eficienciaDe rs) = JsSet.ofList (conceptosDe rs)
  /\ Forall (entradaEf rs) (eficienciaDe rs).
Proof.
  unfold eficienciaDe.
  induction rs as [| r rs IH] using rev_ind; intro Hp.
  - split; constructor.
  - unfold conceptosDe in Hp. rewrite map_app, filter_app in Hp.
    apply Forall_app in Hp. destruct Hp as [Hp He].
    destruct (IH Hp) as [Ha Hb]. clear IH.
    rewrite fold_left_app. simpl fold_left.
    unfold conceptosDe. rewrite map_app, filter_app. fold (conceptosDe rs).
    set (m := fold_left acumular rs []) in *.
    set (k := conceptoDe r) in *.
    assert (Hkeys : forall p, In p m -> truthyStr (fst p) = true).
    { intros p Hin. assert (Hk : In (fst p) (JsSet.ofList (conceptosDe rs))).
      { rewrite <- Ha. now apply in_map. }
      apply (proj1 (JsSet_ofList_In _ _)) in Hk. unfold conceptosDe in Hk.
      apply (proj1 (filter_In _ _ _)) in Hk. tauto. }
    unfold acumular. fold (conceptoDe r). fold k.
    simpl map in *. simpl filter in *.
    change (conceptoDe r) with k in He. change (conceptoDe r) with k.
    destruct (truthyStr k) eqn:Ht; cbn [negb].
    + inversion He as [| ? ? Hk _]; subst. clear He.
      rewrite ofList_snoc.
      destruct (plainKey_spec k Hk) as [_ [Hi _]].
      assert (Hnd : NoDup (map fst m)) by (rewrite Ha; apply JsSet_ofList_NoDup).
      unfold JsObject.truthyAt. rewrite Hi.
      destruct (JsObject.getOwn m k) as [x |] eqn:G.
      * cbn [negb]. rewrite G.
        destruct (setOwn_present m k
                    {| total := total x + numMensajes r; count := count x + 1 |} x G)
          as [o1 [o2 [Em [Hn1 Es]]]].
        rewrite Es.
        assert (Hin : In k (JsSet.ofList (conceptosDe rs))).
        { rewrite <- Ha, Em, map_app. apply in_or_app. right. now left. }
        unfold JsSet.add. rewrite (proj2 (JsSet_has_In _ _) Hin).
        split.
        -- rewrite <- Ha, Em, !map_app. reflexivity.
        -- rewrite Em in Hb, Hnd. rewrite map_app in Hnd. simpl in Hnd.
           apply NoDup_remove_2 in Hnd.
           apply Forall_app in Hb. destruct Hb as [Hb1 Hb2].
           inversion Hb2 as [| ? ? Hx Hb3]; subst.
           apply Forall_app. split; [| constructor].
           ++ apply Forall_forall. intros p Hp1. rewrite Forall_forall in Hb1.
              apply entradaEf_other; [| now apply Hb1].
              intro E. change (fst p = k) in E. apply Hnd. apply in_or_app. left.
              rewrite <- E. now apply in_map.
           ++ now apply entradaEf_same.
           ++ apply Forall_forall. intros p Hp1. rewrite Forall_forall in Hb3.
              apply entradaEf_other; [| now apply Hb3].
              intro E. change (fst p = k) in E. apply Hnd. apply in_or_app. right.
              rewrite <- E. now apply in_map.
      * cbn [negb].
        rewrite (setOwn_absent m k _ G), (getOwn_snoc_new m k _ G),
                (setOwn_snoc_new m k _ _ G).
        assert (Hnin : ~ In k (JsSet.ofList (conceptosDe rs))).
        { rewrite <- Ha. now apply getOwn_None. }
        unfold JsSet.add.
        destruct (JsSet.has (JsSet.ofList (conceptosDe rs)) k) eqn:Eh.
        { exfalso. apply Hnin. now apply JsSet_has_In. }
        split.
        -- rewrite map_app, Ha. reflexivity.
        -- apply Forall_app. split.
           ++ apply Forall_forall. intros p Hp1. rewrite Forall_forall in Hb.
              apply entradaEf_other; [| now apply Hb].
              intro E. change (fst p = k) in E. apply (proj1 (getOwn_None m k) G).
              rewrite <- E. now apply in_map.
           ++ constructor; [| constructor].
              assert (E0 : delConcepto k rs = []).
              { unfold delConcepto.
                destruct (filter _ rs) as [| y l] eqn:Ef; [reflexivity |].
                exfalso. apply Hnin. apply JsSet_ofList_In.
                assert (Hy : In y (y :: l)) by now left.
                rewrite <- Ef in Hy. apply (proj1 (filter_In _ _ _)) in Hy.
                destruct Hy as [Hy1 Hy2].
                apply String.eqb_eq in Hy2. unfold conceptosDe.
                apply filter_In. split; [| exact Ht].
                rewrite <- Hy2. now apply in_map. }
              unfold entradaEf. cbn [fst snd total count].
              rewrite delConcepto_snoc. change (conceptoDe r) with k.
              rewrite String.eqb_refl, E0.
              simpl. split; lia.
    + rewrite app_nil_r. split; [exact Ha |].
      apply Forall_forall. intros p Hp1. rewrite Forall_forall in Hb.
      apply entradaEf_other; [| now apply Hb].
      intro E. pose proof (Hkeys p Hp1) as Hk. rewrite E in Hk.
      change (conceptoDe r) with k in Hk. congruence.
Qed.

End EficienciaFacts.

(** X11. When the concepts of the exercises are plain names, the difficulty
    per concept has one entry for each distinct concept of the history, in
    the order in which the concepts are first met, and the value of an
    entry is the number of messages of the results of its concept divided
    by the number of those results, which is never zero. Results without a
    concept are left out. *)
Theorem difficulty_is_the_mean_per_concept (rs : list Progreso.Resultado) :
  Forall (fun c => plainKey c = true) (conceptosDe rs) ->
  Progreso.porConcepto (Progreso.eficienciaDe rs)
  = map (fun c => {| Progreso.concepto := c;
                     Progreso.interacciones := mediaDelConcepto c rs |})
        (JsSet.ofList (conceptosDe rs))
  /\ NoDup (map Progreso.concepto (Progreso.porConcepto (Progreso.eficienciaDe rs)))
  /\ (forall c, In c (map Progreso.concepto (Progreso.porConcepto (Progreso.eficienciaDe rs)))
                <-> c <> ""%string /\ exists r, In r rs /\ conceptoDe r = c)
  /\ Forall (fun e => delConcepto (Progreso.concepto e) rs <> [])
       (Progreso.porConcepto (Progreso.eficienciaDe rs)).
Proof.
  intro Hp. destruct (acumular_invariant rs Hp) as [Ha Hb].
  set (m := Progreso.eficienciaDe rs) in *.
  assert (Hin : forall c, In c (JsSet.ofList (conceptosDe rs))
                          <-> c <> ""%string /\ exists r, In r rs /\ conceptoDe r = c).
  { intro c. rewrite JsSet_ofList_In. unfold conceptosDe.
    rewrite filter_In, in_map_iff. unfold truthyStr. rewrite negb_true_iff, String.eqb_neq.
    split.
    - intros [[r [E H]] Hc]. split; [exact Hc |]. exists r. auto.
    - intros [Hc [r [H E]]]. split; [| exact Hc]. exists r. auto. }
  assert (Hplain : Forall (fun p => JsObject.arrayIndex (fst p) = None) m).
  { apply Forall_forall. intros p Hi.
    assert (Hk : In (fst p) (JsSet.ofList (conceptosDe rs))).
    { rewrite <- Ha. now apply in_map. }
    apply (proj1 (JsSet_ofList_In _ _)) in Hk.
    rewrite Forall_forall in Hp. apply Hp in Hk.
    now apply plainKey_spec in Hk. }
  assert (E : Progreso.porConcepto m
              = map (fun c => {| Progreso.concepto := c;
                                 Progreso.interacciones := mediaDelConcepto c rs |})
                    (JsSet.ofList (conceptosDe rs))).
  { unfold Progreso.porConcepto. rewrite (ownEntries_plain m Hplain).
    rewrite <- Ha, map_map. apply map_ext_in. intros p Hi.
    rewrite Forall_forall in Hb. destruct (Hb p Hi) as [H1 H2].
    unfold mediaDelConcepto. now rewrite H1, H2. }
  assert (Ek : map Progreso.concepto (Progreso.porConcepto m)
               = JsSet.ofList (conceptosDe rs)).
  { rewrite E, map_map. cbn [Progreso.concepto]. apply map_id. }
  split; [exact E |]. split; [rewrite Ek; apply JsSet_ofList_NoDup |].
  split; [intro c; rewrite Ek; apply Hin |].
  apply Forall_forall. intros e He.
  assert (Hc : In (Progreso.concepto e) (JsSet.ofList (conceptosDe rs))).
  { rewrite <- Ek. now apply in_map. }
  apply Hin in Hc. destruct Hc as [_ [r [Hr Er]]].
  intro Hn.
  assert (Hd : In r (delConcepto (Progreso.concepto e) rs)).
  { unfold delConcepto. apply filter_In. split; [exact Hr |]. now apply String.eqb_eq. }
  rewrite Hn in Hd. exact Hd.
Qed.

Lemma difficulty_is_the_mean_per_concept_witness :
  Progreso.porConcepto (Progreso.eficienciaDe Ejemplos.historialDesconocido)
  = map (fun c => {| Progreso.concepto := c;
                     Progreso.interacciones :=
                       mediaDelConcepto c Ejemplos.historialDesconocido |})
        (JsSet.ofList (conceptosDe Ejemplos.historialDesconocido)).
Proof.
  refine (proj1 (difficulty_is_the_mean_per_concept Ejemplos.historialDesconocido _)).
  apply Forall_forall. apply (proj1 (forallb_forall plainKey _)).
  vm_compute. reflexivity.
Defined.

(** ** F) The concept that is recommended *)

(** The first element of the sorted list is the first one of the list that
    has the highest mean. *)
Lemma sort_head_is_first_worst (l : list Progreso.Eficiencia) :
  match JsArray.sort Progreso.porInteracciones l with
  | [] => l = []
  | h :: _ =>
      exists l1 l2,
        l = l1 ++ h :: l2
        /\ Forall (fun x => (Progreso.interacciones x < Progreso.interacciones h)%Q) l1
        /\ Forall (fun x => (Progreso.interacciones x <= Progreso.interacciones h)%Q) l2
  end.
Proof.
  induction l as [| x l IH]; [reflexivity |].
  cbn [JsArray.sort fold_right]. fold (JsArray.sort Progreso.porInteracciones l).
  destruct (JsArray.sort Progreso.porInteracciones l) as [| h t] eqn:E.
  - subst l. exists [], []. repeat split; constructor.
  - destruct IH as [l1 [l2 [El [H1 H2]]]].
    cbn [JsArray.insertSorted].
    destruct (Progreso.porInteracciones x h) eqn:C.
    + assert (Hle : (Progreso.interacciones h <= Progreso.interacciones x)%Q).
      { apply porInteracciones_not_Gt. congruence. }
      exists [], l. split; [reflexivity |]. split; [constructor |].
      rewrite El. apply Forall_app. split; [| constructor].
      * eapply Forall_impl; [| exact H1]. intros a Ha. simpl in Ha.
        apply Qlt_le_weak. eapply Qlt_le_trans; eassumption.
      * exact Hle.
      * eapply Forall_impl; [| exact H2]. intros a Ha. simpl in Ha.
        eapply Qle_trans; eassumption.
    + assert (Hle : (Progreso.interacciones h <= Progreso.interacciones x)%Q).
      { apply porInteracciones_not_Gt. congruence. }
      exists [], l. split; [reflexivity |]. split; [constructor |].
      rewrite El. apply Forall_app. split; [| constructor].
      * eapply Forall_impl; [| exact H1]. intros a Ha. simpl in Ha.
        apply Qlt_le_weak. eapply Qlt_le_trans; eassumption.
      * exact Hle.
      * eapply Forall_impl; [| exact H2]. intros a Ha. simpl in Ha.
        eapply Qle_trans; eassumption.
    + apply porInteracciones_Gt in C.
      exists (x :: l1), l2. split; [now rewrite El |].
      split; [constructor; assumption | exact H2].
Qed.

(** X12. When no frequent error is a real one and there are means per
    concept, the concept that is looked up is the first one, in the order of
    the means per concept, among those with the highest mean: every concept
    before it has a strictly lower mean and none after it has a higher one.
    Among concepts that tie, the one that comes first is recommended. *)
Theorem worst_concept_is_the_first_with_the_highest_mean
    (findOneEjercicio : string -> DbResult (option Progreso.Ejercicio))
    (ultimoResultado : Progreso.Resultado)
    (frecuentes : list Progreso.ErrorFrecuente)
    (eficiencias : list Progreso.Eficiencia) :
  Progreso.hasRealErrors frecuentes = false ->
  eficiencias <> [] ->
  exists antes peor despues,
    eficiencias = antes ++ peor :: despues
    /\ Forall (fun x => (Progreso.interacciones x < Progreso.interacciones peor)%Q) antes
    /\ Forall (fun x => (Progreso.interacciones x <= Progreso.interacciones peor)%Q) despues
    /\ Progreso.recomendar findOneEjercicio ultimoResultado frecuentes eficiencias
       = match findOneEjercicio (Progreso.concepto peor) with
         | DbThrows => DbThrows
         | DbOk (Some ej) =>
             DbOk {| Progreso.titulo :=
                       orStr (Progreso.ej_titulo ej) "Ejercicio recomendado";
                     Progreso.motivo := Progreso.motivoActividad;
                     Progreso.ejercicioId := Some (Progreso.ej_id ej);
                     Progreso.rec_concepto :=
                       orStr (Progreso.ej_concepto ej) (Progreso.concepto peor) |}
         | DbOk None =>
             DbOk {| Progreso.titulo := JsString.lit "Recomendación";
                     Progreso.motivo := Progreso.motivoRefuerza (Progreso.concepto peor);
                     Progreso.ejercicioId := None;
                     Progreso.rec_concepto := Progreso.concepto peor |}
         end.
Proof.
  intros Hr Hne. unfold Progreso.recomendar. rewrite Hr.
  destruct eficiencias as [| e0 es]; [contradiction |].
  pose proof (sort_head_is_first_worst (e0 :: es)) as H.
  destruct (JsArray.sort Progreso.porInteracciones (e0 :: es)) as [| peor t];
    [discriminate |].
  destruct H as [l1 [l2 [El [H1 H2]]]].
  exists l1, peor, l2. split; [exact El |]. split; [exact H1 |]. split; [exact H2 |].
  reflexivity.
Qed.

Lemma worst_concept_is_the_first_with_the_highest_mean_witness :
  exists antes peor despues,
    Progreso.porConcepto (Progreso.eficienciaDe Ejemplos.historialDesconocido)
    = antes ++ peor :: despues
    /\ Forall (fun x => (Progreso.interacciones x < Progreso.interacciones peor)%Q) antes
    /\ Forall (fun x => (Progreso.interacciones x <= Progreso.interacciones peor)%Q) despues.
Proof.
  destruct (worst_concept_is_the_first_with_the_highest_mean
              Ejemplos.catalogo (Ejemplos.rDesconocido Ejemplos.ejOhm 4)
              (Progreso.erroresFrecuentesDe Ejemplos.historialDesconocido)
              (Progreso.porConcepto (Progreso.eficienciaDe Ejemplos.historialDesconocido)))
    as [antes [peor [despues [H1 [H2 [H3 _]]]]]].
  - vm_compute. reflexivity.
  - vm_compute. discriminate.
  - exists antes, peor, despues. auto.
Defined.

Lemma orStr_empty_r (c : string) : orStr c "" = c.
Proof.
  unfold orStr, truthyStr. destruct (String.eqb_spec c ""); cbn [negb]; congruence.
Qed.

Lemma orStr_fixed_not_empty (a b : string) : b <> ""%string -> orStr a b <> ""%string.
Proof.
  intro Hb. unfold orStr, truthyStr.
  destruct (String.eqb_spec a ""); cbn [negb]; assumption.
Qed.

(** X13. The recommendation never names an exercise of its own making: when
    it carries an exercise identifier, that identifier, the title and the
    concept are those of an exercise that the store returned for the
    concept looked up (the concept of the last session or one of the means
    per concept), with the fixed title when that exercise has none; when it
    carries none, its title is empty or the fixed word. Its motive is never
    empty. *)
Theorem recommended_exercise_comes_from_the_store
    (findOneEjercicio : string -> DbResult (option Progreso.Ejercicio))
    (ultimoResultado : Progreso.Resultado)
    (frecuentes : list Progreso.ErrorFrecuente)
    (eficiencias : list Progreso.Eficiencia)
    (r : Progreso.Recomendacion) :
  Progreso.recomendar findOneEjercicio ultimoResultado frecuentes eficiencias = DbOk r ->
  (forall id, Progreso.ejercicioId r = Some id ->
     exists c ej,
       findOneEjercicio c = DbOk (Some ej)
       /\ (c = conceptoDe ultimoResultado
           \/ exists e, In e eficiencias /\ Progreso.concepto e = c)
       /\ Progreso.ej_id ej = id
       /\ Progreso.titulo r = orStr (Progreso.ej_titulo ej) "Ejercicio recomendado"
       /\ Progreso.titulo r <> ""%string
       /\ Progreso.rec_concepto r = orStr (Progreso.ej_concepto ej) c)
  /\ (Progreso.ejercicioId r = None ->
      Progreso.titulo r = ""%string \/ Progreso.titulo r = JsString.lit "Recomendación")
  /\ Progreso.motivo r <> ""%string.
Proof.
  unfold Progreso.recomendar. cbv zeta. fold (conceptoDe ultimoResultado).
  rewrite orStr_empty_r.
  destruct (Progreso.hasRealErrors frecuentes).
  - destruct (truthyStr (conceptoDe ultimoResultado)) eqn:Ht.
    + destruct (findOneEjercicio (conceptoDe ultimoResultado)) as [[ej |] |] eqn:Ef;
        intro E; [| | discriminate]; injection E as <-;
        cbn [Progreso.ejercicioId Progreso.titulo Progreso.motivo Progreso.rec_concepto].
      * split; [| split; [discriminate | vm_compute; discriminate]].
        intros id Hid. injection Hid as <-.
        exists (conceptoDe ultimoResultado), ej.
        split; [exact Ef |]. split; [now left |].
        split; [reflexivity |]. split; [reflexivity |]. split; [| reflexivity].
        apply orStr_fixed_not_empty. discriminate.
      * split; [discriminate |]. split; [now right | vm_compute; discriminate].
    + intro E. injection E as <-.
      split; [discriminate |]. split; [now left | vm_compute; discriminate].
  - destruct eficiencias as [| e0 es].
    + intro E. injection E as <-.
      split; [discriminate |]. split; [now left | vm_compute; discriminate].
    + pose proof (sort_head_is_worst (e0 :: es)) as H.
      destruct (JsArray.sort Progreso.porInteracciones (e0 :: es)) as [| peor t];
        [discriminate |].
      destruct H as [Hin _].
      destruct (findOneEjercicio (Progreso.concepto peor)) as [[ej |] |] eqn:Ef;
        intro E; [| | discriminate]; injection E as <-;
        cbn [Progreso.ejercicioId Progreso.titulo Progreso.motivo Progreso.rec_concepto].
      * split; [| split; [discriminate | vm_compute; discriminate]].
        intros id Hid. injection Hid as <-.
        exists (Progreso.concepto peor), ej.
        split; [exact Ef |]. split; [right; exists peor; auto |].
        split; [reflexivity |]. split; [reflexivity |]. split; [| reflexivity].
        apply orStr_fixed_not_empty. discriminate.
      * split; [discriminate |]. split; [now right |].
        unfold Progreso.motivoRefuerza. discriminate.
Qed.

Lemma recommended_exercise_comes_from_the_store_witness :
  exists r,
    Ejemplos.recomendacionPara Ejemplos.historialDesconocido = Some r
    /\ Progreso.motivo r <> ""%string.
Proof.
  eexists. split; [vm_compute; reflexivity |].
  refine (proj2 (proj2 (recommended_exercise_comes_from_the_store
                          Ejemplos.catalogo (Ejemplos.rDesconocido Ejemplos.ejOhm 4)
                          (Progreso.erroresFrecuentesDe Ejemplos.historialDesconocido)
                          (Progreso.porConcepto
                             (Progreso.eficienciaDe Ejemplos.historialDesconocido))
                          _ _))).
  vm_compute. reflexivity.
Defined.

(** ** The streak: bounds *)

Section StreakBounds.

Import Progreso.

Variable madridOffset : Z -> Z.
Variable Date_parse : string -> option Z.

Lemma walkBack_le (l : list string) :
  walkBack Date_parse l <= Z.of_nat (pred (List.length l)).
Proof.
  induction l as [| x l IH]; [simpl; lia |].
  destruct l as [| y l]; [simpl; lia |].
  change (walkBack Date_parse (x :: y :: l))
    with (if oneDayApart Date_parse x y
          then 1 + walkBack Date_parse (y :: l) else 0).
  destruct (oneDayApart Date_parse x y); simpl List.length in *; simpl pred in *; lia.
Qed.

Lemma dayKeyMadrid_truthy (d : DateArg) (k : string) :
  dayKeyMadrid madridOffset Date_parse d = Some k -> truthyStr k = true.
Proof.
  assert (H : forall tv, keyOfTime madridOffset tv = Some k -> truthyStr k = true).
  { intros [t |] E; [| discriminate].
    destruct (keyOfTime_valid madridOffset t) as [k' [E' Hk]]. congruence. }
  destruct d as [| tv | s]; simpl; [discriminate | apply H |].
  destruct (truthyStr s); [apply H | discriminate].
Qed.

Lemma dayKeyMadrid_none (d : DateArg) :
  dayKeyMadrid madridOffset Date_parse d = None
  <-> d = DMissing \/ d = DDate None
      \/ exists s, d = DString s /\ (s = ""%string \/ Date_parse s = None).
Proof.
  assert (H : forall tv, keyOfTime madridOffset tv = None <-> tv = None).
  { intros [t |]; split; try reflexivity; try discriminate.
    intro E. destruct (keyOfTime_valid madridOffset t) as [k [E' _]]. congruence. }
  destruct d as [| tv | s]; simpl.
  - split; auto.
  - rewrite H. split.
    + intros ->. auto.
    + intros [E | [E | [s [E _]]]]; try discriminate. now injection E.
  - unfold truthyStr. destruct (String.eqb_spec s ""); cbn [negb].
    + split; [| reflexivity]. intros _. right. right. exists s. auto.
    + rewrite H. split.
      * intro E. right. right. exists s. auto.
      * intros [E | [E | [s' [E [Hs | Hs]]]]]; try discriminate;
          injection E as <-; [contradiction | exact Hs].
Qed.

Lemma dayKeys_length (dates : list DateArg) :
  (List.length (dayKeys madridOffset Date_parse dates) <= List.length dates)%nat.
Proof.
  unfold dayKeys. induction dates as [| d l IH]; simpl; [lia |].
  rewrite length_app. destruct (dayKeyMadrid madridOffset Date_parse d); simpl; lia.
Qed.

Lemma dayKeys_nil (dates : list DateArg) :
  dayKeys madridOffset Date_parse dates = []
  <-> forall d, In d dates -> dayKeyMadrid madridOffset Date_parse d = None.
Proof.
  unfold dayKeys. induction dates as [| d l IH]; simpl.
  - split; [intros _ d [] | reflexivity].
  - destruct (dayKeyMadrid madridOffset Date_parse d) as [k |] eqn:E; simpl.
    + split; [discriminate |]. intro H. specialize (H d (or_introl eq_refl)). congruence.
    + rewrite IH. split.
      * intros H x [<- | Hx]; [exact E | now apply H].
      * intros H x Hx. apply H. now right.
Qed.

Lemma daySet_length (dates : list DateArg) :
  (List.length (daySet madridOffset Date_parse dates) <= List.length dates)%nat.
Proof.
  eapply Nat.le_trans; [| apply dayKeys_length].
  apply NoDup_incl_length; [apply daySet_NoDup |].
  intros x Hx. now apply (proj1 (daySet_In madridOffset Date_parse dates x)) in Hx.
Qed.

Lemma daySet_nil (dates : list DateArg) :
  daySet madridOffset Date_parse dates = []
  <-> dayKeys madridOffset Date_parse dates = [].
Proof.
  split; intro H.
  - destruct (dayKeys madridOffset Date_parse dates) as [| k l] eqn:E; [reflexivity |].
    exfalso.
    assert (Hk : In k (dayKeys madridOffset Date_parse dates)) by (rewrite E; now left).
    assert (Ht : truthyStr k = true).
    { unfold dayKeys in Hk. apply in_flat_map in Hk. destruct Hk as [d [_ Hd]].
      destruct (dayKeyMadrid madridOffset Date_parse d) as [k' |] eqn:Ed; [| destruct Hd].
      destruct Hd as [<- | []]. exact (dayKeyMadrid_truthy d k' Ed). }
    assert (Hs : In k (daySet madridOffset Date_parse dates)).
    { apply daySet_In. split; assumption. }
    rewrite H in Hs. exact Hs.
  - destruct (daySet madridOffset Date_parse dates) as [| k l] eqn:E; [reflexivity |].
    exfalso.
    assert (Hs : In k (daySet madridOffset Date_parse dates)) by (rewrite E; now left).
    apply (proj1 (daySet_In madridOffset Date_parse dates k)) in Hs.
    rewrite H in Hs. destruct Hs as [[] _].
Qed.

Lemma computeStreak_bounds (dates : list DateArg) :
  let s := computeStreak madridOffset Date_parse dates in
  0 <= s <= Z.of_nat (List.length (daySet madridOffset Date_parse dates))
  /\ (s = 0 <-> daySet madridOffset Date_parse dates = []).
Proof.
  unfold computeStreak, JsSet.size.
  destruct (daySet madridOffset Date_parse dates) as [| k l] eqn:E.
  - simpl. split; [lia | tauto].
  - replace (Z.of_nat (List.length (k :: l)) =? 0) with false
      by (symmetry; apply Z.eqb_neq; simpl List.length; lia).
    pose proof (walkBack_nonneg Date_parse (rev (JsArray.sortStrings (k :: l)))) as H0.
    pose proof (walkBack_le (rev (JsArray.sortStrings (k :: l)))) as H1.
    assert (L : List.length (JsArray.sortStrings (k :: l)) = List.length (k :: l))
      by (unfold JsArray.sortStrings; apply sort_length).
    rewrite length_rev, L in H1. simpl List.length in *. simpl pred in H1.
    split; [lia |]. split; [lia | discriminate].
Qed.

End StreakBounds.

(** X14. The streak is never negative and never more than the number of
    distinct calendar days of the input, which is never more than the number
    of dates given. It is zero exactly when no date of the input has a
    day-key, and a date has no day-key exactly when it is missing, an
    invalid [Date], an empty string, or a string that does not parse. For a
    history, the streak is at most the number of results, and it is zero
    exactly when no result has [fecha], [createdAt] or [updatedAt]. *)
Theorem streak_bounds
    (madridOffset : Z -> Z) (Date_parse : string -> option Z)
    (dates : list Progreso.DateArg) (rs : list Progreso.Resultado) :
  let s := Progreso.computeStreak madridOffset Date_parse dates in
  let dias := Progreso.daySet madridOffset Date_parse dates in
  0 <= s <= Z.of_nat (List.length dias)
  /\ (List.length dias <= List.length dates)%nat
  /\ (s = 0 <-> forall d, In d dates ->
                          Progreso.dayKeyMadrid madridOffset Date_parse d = None)
  /\ (forall d,
         Progreso.dayKeyMadrid madridOffset Date_parse d = None
         <-> d = Progreso.DMissing \/ d = Progreso.DDate None
             \/ exists s, d = Progreso.DString s
                          /\ (s = ""%string \/ Date_parse s = None))
  /\ 0 <= Progreso.rachaDe madridOffset Date_parse rs <= Z.of_nat (List.length rs)
  /\ (Progreso.rachaDe madridOffset Date_parse rs = 0
      <-> forall r, In r rs ->
                    Progreso.fecha r = None /\ Progreso.createdAt r = None
                    /\ Progreso.updatedAt r = None).
Proof.
  intros s dias.
  destruct (computeStreak_bounds madridOffset Date_parse dates) as [B Z0].
  assert (Zero : forall l,
             Progreso.computeStreak madridOffset Date_parse l = 0
             <-> forall d, In d l ->
                           Progreso.dayKeyMadrid madridOffset Date_parse d = None).
  { intro l. destruct (computeStreak_bounds madridOffset Date_parse l) as [_ H].
    cbv zeta in H. rewrite H, daySet_nil. apply dayKeys_nil. }
  split; [exact B |]. split; [apply daySet_length |].
  split; [apply Zero |]. split; [apply dayKeyMadrid_none |].
  unfold Progreso.rachaDe. split.
  - destruct (computeStreak_bounds madridOffset Date_parse (map Progreso.fechaRacha rs))
      as [[B1 B2] _].
    pose proof (daySet_length madridOffset Date_parse (map Progreso.fechaRacha rs)) as L.
    rewrite length_map in L. lia.
  - rewrite Zero. split.
    + intros H r Hr. specialize (H (Progreso.fechaRacha r) (in_map _ _ _ Hr)).
      apply dayKeyMadrid_none in H. unfold Progreso.fechaRacha in H.
      destruct (Progreso.fecha r), (Progreso.createdAt r), (Progreso.updatedAt r);
        try (destruct H as [H | [H | [x [H _]]]]; discriminate).
      auto.
    + intros H d Hd. apply in_map_iff in Hd. destruct Hd as [r [<- Hr]].
      destruct (H r Hr) as [H1 [H2 H3]].
      unfold Progreso.fechaRacha. rewrite H1, H2, H3. reflexivity.
Qed.

(** ** [GET /:userId]: the response *)

Section ProgresoResponseFacts.

Import Progreso.

Lemma JsSet_size_bounds (l : list string) :
  0 <= JsSet.size (JsSet.ofList l) <= Z.of_nat (List.length l).
Proof.
  unfold JsSet.size. split; [lia |]. apply Nat2Z.inj_le.
  apply NoDup_incl_length; [apply JsSet_ofList_NoDup |].
  intros x Hx. now apply JsSet_ofList_In.
Qed.

Lemma JsSet_size_filtered {A : Type} (f : A -> string) (l : list A) :
  0 <= JsSet.size (JsSet.ofList (filter truthyStr (map f l))) <= Z.of_nat (List.length l).
Proof.
  pose proof (JsSet_size_bounds (filter truthyStr (map f l))) as H.
  pose proof (filter_length_le truthyStr (map f l)) as L.
  rewrite length_map in L. lia.
Qed.

Variable findOneEjercicio : string -> DbResult (option Ejercicio).

(** The recommendation throws only when the store does. *)
Lemma recomendar_throws (ultimoResultado : Resultado)
    (frecuentes : list ErrorFrecuente) (eficiencias : list Eficiencia) :
  recomendar findOneEjercicio ultimoResultado frecuentes eficiencias = DbThrows ->
  exists c, findOneEjercicio c = DbThrows.
Proof.
  unfold recomendar. destruct (hasRealErrors frecuentes).
  - cbv zeta. destruct (truthyStr _); [| discriminate].
    destruct (findOneEjercicio _) as [[ej |] |] eqn:E; try discriminate.
    intros _. eexists. exact E.
  - destruct eficiencias as [| e0 es]; [discriminate |].
    pose proof (sort_head_is_worst (e0 :: es)) as H.
    destruct (JsArray.sort porInteracciones (e0 :: es)) as [| peor t]; [discriminate |].
    destruct (findOneEjercicio _) as [[ej |] |] eqn:E; try discriminate.
    intros _. eexists. exact E.
Qed.

End ProgresoResponseFacts.

(** X15. The handler of [GET /:userId] answers 200, 400 or 500: 400 exactly
    when the identifier is not valid, and 500 only when the store throws, on
    the results or on the exercise looked up for the recommendation. A user
    without results gets the welcome summary, with every counter at zero and
    no lookup. In every summary there are at most three frequent errors, and
    the exercises of the week, the concepts of the week and the streak are
    each between zero and the number of results of the user. *)
Theorem progreso_response
    (host : JsDate.TimeZone) (madridOffset : Z -> Z)
    (Date_parse : string -> option Z)
    (isValidObjectId : string -> bool)
    (findResultados : string -> DbResult (list Progreso.Resultado))
    (findOneEjercicio : string -> DbResult (option Progreso.Ejercicio))
    (hoy ahora : Z) (userId : string) :
  let r := Progreso.getProgreso host madridOffset Date_parse isValidObjectId
             findResultados findOneEjercicio hoy ahora userId in
  In (status r) [200; 400; 500]
  /\ (status r = 400 <-> isValidObjectId userId = false)
  /\ (status r = 500 ->
      findResultados userId = DbThrows \/ exists c, findOneEjercicio c = DbThrows)
  /\ (isValidObjectId userId = true -> findResultados userId = DbOk [] ->
      r = {| status := 200; body := Progreso.BResumen Progreso.bienvenida |})
  /\ (forall p, body r = Progreso.BResumen p ->
        status r = 200
        /\ exists rs,
             findResultados userId = DbOk rs
             /\ (List.length (Progreso.erroresFrecuentes p) <= 3)%nat
             /\ 0 <= Progreso.ejerciciosCompletados (Progreso.resumenSemanal p)
                  <= Z.of_nat (List.length rs)
             /\ 0 <= Progreso.conceptosDistintos (Progreso.resumenSemanal p)
                  <= Z.of_nat (List.length rs)
             /\ 0 <= Progreso.rachaDias (Progreso.resumenSemanal p)
                  <= Z.of_nat (List.length rs)).
Proof.
  intro r. unfold r, Progreso.getProgreso.
  destruct (isValidObjectId userId); cbn [negb].
  2:{ cbn [status body In]. split; [auto |]. split; [tauto |].
      split; [(intros; discriminate) |]. split; [(intros; discriminate) |]. intros p E. (intros; discriminate). }
  destruct (findResultados userId) as [[| u rs] |].
  - cbn [status body In]. split; [auto |]. split; [split; (intros; discriminate) |].
    split; [(intros; discriminate) |]. split; [reflexivity |].
    intros p E. injection E as <-. split; [reflexivity |].
    exists []. split; [reflexivity |]. unfold Progreso.bienvenida.
    cbn [Progreso.erroresFrecuentes Progreso.resumenSemanal Progreso.ejerciciosCompletados
         Progreso.conceptosDistintos Progreso.rachaDias List.length].
    lia.
  - cbv zeta.
    destruct (Progreso.recomendar findOneEjercicio u _ _) as [rec |] eqn:Er.
    + cbn [status body In]. split; [auto |]. split; [split; (intros; discriminate) |].
      split; [(intros; discriminate) |]. split; [(intros; discriminate) |].
      intros p E. injection E as <-. split; [reflexivity |].
      exists (u :: rs). split; [reflexivity |].
      cbn [Progreso.erroresFrecuentes Progreso.resumenSemanal].
      unfold Progreso.resumenSemanalDe.
      cbn [Progreso.ejerciciosCompletados Progreso.conceptosDistintos Progreso.rachaDias].
      set (semana := Progreso.resultadosSemana _ (u :: rs)).
      assert (Ls : (List.length semana <= List.length (u :: rs))%nat)
        by apply filter_length_le.
      split; [| split; [| split]].
      * unfold Progreso.erroresFrecuentesDe, JsArray.slice0.
        rewrite length_firstn. apply Nat.le_min_l.
      * pose proof (JsSet_size_filtered
                      (fun x => Progreso.refIdString (Progreso.ejercicio_id x)) semana) as H.
        unfold Progreso.ejerciciosUnicosSemana. lia.
      * pose proof (JsSet_size_filtered
                      (fun x => Progreso.refConcepto (Progreso.ejercicio_id x)) semana) as H.
        unfold Progreso.conceptosSemana. lia.
      * unfold Progreso.rachaDe.
        destruct (computeStreak_bounds madridOffset Date_parse
                    (map Progreso.fechaRacha (u :: rs))) as [[B1 B2] _].
        pose proof (daySet_length madridOffset Date_parse
                      (map Progreso.fechaRacha (u :: rs))) as L.
        rewrite length_map in L. lia.
    + cbn [status body In]. unfold Progreso.error500. cbn [status body].
      split; [auto |]. split; [split; (intros; discriminate) |].
      split; [| split; [(intros; discriminate) | intros p E; (intros; discriminate)]].
      intros _. right. exact (recomendar_throws findOneEjercicio _ _ _ Er).
  - unfold Progreso.error500. cbn [status body In]. split; [auto |].
    split; [split; (intros; discriminate) |]. split; [auto |].
    split; [(intros; discriminate) | intros p E; (intros; discriminate)].
Qed.

(** ** E) The text of a frequent error *)

Section FrequentTextFacts.

Import Progreso.

Lemma primerTexto_snoc_in (q : string) (tags : list ErrorTag) (e : ErrorTag) :
  In q (map etiqueta tags) -> primerTexto q (tags ++ [e]) = primerTexto q tags.
Proof.
  unfold primerTexto. induction tags as [| t tags IH]; simpl; [tauto |].
  intros [H | H].
  - subst q. now rewrite String.eqb_refl.
  - destruct (etiqueta t =? q)%string; [reflexivity | now apply IH].
Qed.

Lemma primerTexto_snoc_new (tags : list ErrorTag) (e : ErrorTag) :
  ~ In (etiqueta e) (map etiqueta tags) ->
  primerTexto (etiqueta e) (tags ++ [e]) = orStr (texto e) (etiqueta e).
Proof.
  unfold primerTexto. induction tags as [| t tags IH]; simpl.
  - now rewrite String.eqb_refl.
  - intro H. destruct (String.eqb_spec (etiqueta t) (etiqueta e)) as [E | _].
    + exfalso. apply H. now left.
    + apply IH. tauto.
Qed.

Lemma primerTexto_not_empty (q : string) (tags : list ErrorTag) :
  In q (map etiqueta tags) -> q <> ""%string -> primerTexto q tags <> ""%string.
Proof.
  unfold primerTexto. induction tags as [| t tags IH]; simpl; [tauto |].
  intros H Hq. destruct (String.eqb_spec (etiqueta t) q) as [E | Hne].
  - apply orStr_fixed_not_empty. congruence.
  - destruct H as [H | H]; [contradiction |]. now apply IH.
Qed.

(** Each entry of [mapaErrores] keeps the text with which its label was
    first met. *)
Lemma contar_texto_invariant (tags : list ErrorTag) :
  Forall (fun e => plainKey (etiqueta e) = true) tags ->
  Forall (fun p => err_texto (snd p) = primerTexto (fst p) tags)
    (fold_left contar tags []).
Proof.
  induction tags as [| e tags IH] using rev_ind; intro Hp; [constructor |].
  pose proof Hp as Hp0.
  apply Forall_app in Hp. destruct Hp as [Hp He].
  inversion He as [| ? ? Hk _]; subst. clear He.
  specialize (IH Hp). destruct (contar_invariant tags Hp) as [Ha _].
  rewrite fold_left_app. simpl fold_left.
  set (m := fold_left contar tags []) in *.
  set (k := etiqueta e) in *.
  destruct (plainKey_spec k Hk) as [Ht [Hi _]].
  assert (Hold : forall p, In p m -> In (fst p) (map etiqueta tags)).
  { intros p Hin. apply JsSet_ofList_In. rewrite <- Ha. now apply in_map. }
  assert (Hkeep : Forall (fun p => err_texto (snd p) = primerTexto (fst p) (tags ++ [e])) m).
  { apply Forall_forall. intros p Hin. rewrite Forall_forall in IH.
    rewrite (primerTexto_snoc_in _ _ _ (Hold p Hin)). now apply IH. }
  unfold contar. fold k. rewrite Ht. cbn [negb].
  unfold JsObject.truthyAt. rewrite Hi.
  destruct (JsObject.getOwn m k) as [x |] eqn:G.
  - cbn [negb]. rewrite G.
    destruct (setOwn_present m k
                {| err_etiqueta := err_etiqueta x; err_texto := err_texto x;
                   veces := veces x + 1 |} x G) as [o1 [o2 [Em [Hn1 Es]]]].
    rewrite Es. rewrite Em in Hkeep.
    apply Forall_app in Hkeep. destruct Hkeep as [H1 H2].
    inversion H2 as [| ? ? Hx H3]; subst.
    apply Forall_app. split; [exact H1 |]. constructor; [exact Hx | exact H3].
  - cbn [negb].
    rewrite (setOwn_absent m k _ G), (getOwn_snoc_new m k _ G),
            (setOwn_snoc_new m k _ _ G).
    apply Forall_app. split; [exact Hkeep |].
    constructor; [| constructor]. cbn [fst snd err_texto].
    symmetry. apply primerTexto_snoc_new.
    intro H. apply (proj1 (getOwn_None m k) G).
    rewrite Ha. now apply JsSet_ofList_In.
Qed.

End FrequentTextFacts.

(** X16. When the labels of the tags are plain names, the text shown with a
    frequent error is the text of the first tag of the history that has its
    label, or the label itself when that tag has no text: later tags with
    the same label and another text do not change it, and the text is never
    empty. *)
Theorem frequent_error_text_is_the_first_seen (rs : list Progreso.Resultado) :
  Forall (fun k => plainKey k = true) (etiquetasDe rs) ->
  Forall (fun x =>
            Progreso.err_texto x
            = primerTexto (Progreso.err_etiqueta x) (flat_map Progreso.errores rs)
            /\ Progreso.err_texto x <> ""%string)
    (Progreso.erroresFrecuentesDe rs).
Proof.
  intro Hp. rewrite etiquetasDe_flat in Hp.
  assert (Hp' : Forall (fun e => plainKey (etiqueta e) = true)
                  (flat_map Progreso.errores rs)).
  { apply Forall_forall. intros e He. rewrite Forall_forall in Hp.
    apply Hp. now apply in_map. }
  destruct (contar_invariant _ Hp') as [Ha Hb].
  pose proof (contar_texto_invariant _ Hp') as Hc.
  apply Forall_forall. intros x Hx.
  unfold Progreso.erroresFrecuentesDe, JsArray.slice0 in Hx.
  apply In_firstn in Hx. apply (proj1 (sort_In _ _ _)) in Hx.
  rewrite mapaErroresDe_flat in Hx.
  set (m := fold_left Progreso.contar (flat_map Progreso.errores rs) []) in *.
  assert (Hplain : Forall (fun p => JsObject.arrayIndex (fst p) = None) m).
  { apply Forall_forall. intros p Hi.
    assert (Hk : In (fst p) (map etiqueta (flat_map Progreso.errores rs))).
    { apply JsSet_ofList_In. rewrite <- Ha. now apply in_map. }
    rewrite Forall_forall in Hp. apply Hp in Hk. now apply plainKey_spec in Hk. }
  unfold JsObject.values in Hx. rewrite (ownEntries_plain m Hplain) in Hx.
  apply in_map_iff in Hx. destruct Hx as [p [<- Hin]].
  rewrite Forall_forall in Hb, Hc.
  destruct (Hb p Hin) as [Hl _]. rewrite Hl, (Hc p Hin).
  split; [reflexivity |].
  assert (Hk : In (fst p) (map etiqueta (flat_map Progreso.errores rs))).
  { apply JsSet_ofList_In. rewrite <- Ha. now apply in_map. }
  apply primerTexto_not_empty; [exact Hk |].
  rewrite Forall_forall in Hp. apply Hp in Hk. apply plainKey_spec in Hk.
  destruct Hk as [Hk _]. intro E. rewrite E in Hk. discriminate.
Qed.

Lemma frequent_error_text_is_the_first_seen_witness :
  map Progreso.err_texto (Progreso.erroresFrecuentesDe historialConTextos)
  = ["Corriente que se gasta"; "AC2"]%string
  /\ Forall (fun x =>
               Progreso.err_texto x
               = primerTexto (Progreso.err_etiqueta x)
                   (flat_map Progreso.errores historialConTextos)
               /\ Progreso.err_texto x <> ""%string)
       (Progreso.erroresFrecuentesDe historialConTextos).
Proof.
  split; [vm_compute; reflexivity |].
  refine (frequent_error_text_is_the_first_seen historialConTextos _).
  apply Forall_forall. apply (proj1 (forallb_forall plainKey _)).
  vm_compute. reflexivity.
Defined.

(** ** The calendar *)

Section CalendarFacts.

Import JsDate.

Lemma YearFromDay_spec (n : Z) :
  DayFromYear (YearFromDay n) <= n < DayFromYear (YearFromDay n + 1).
Proof.
  unfold YearFromDay.
  set (y0 := 1970 + n * 400 / 146097).
  assert (H0 : DayFromYear (y0 - 1) <= n < DayFromYear (y0 + 2)).
  { unfold DayFromYear, y0. Z.div_mod_to_equations. lia. }
  destruct (Z.ltb_spec n (DayFromYear y0)).
  - replace (y0 - 1 + 1) with y0 by lia. lia.
  - destruct (Z.leb_spec (DayFromYear (y0 + 1)) n).
    + replace (y0 + 1 + 1) with (y0 + 2) by lia. lia.
    + lia.
Qed.

Lemma DaysInYear_cases (y : Z) : DaysInYear y = 365 \/ DaysInYear y = 366.
Proof. unfold DaysInYear, DayFromYear. Z.div_mod_to_equations. lia. Qed.

Lemma DayFromYear_mono (y y' : Z) : y <= y' -> DayFromYear y <= DayFromYear y'.
Proof. unfold DayFromYear. intro H. Z.div_mod_to_equations. lia. Qed.

Lemma YearFromDay_mono (a b : Z) : a <= b -> YearFromDay a <= YearFromDay b.
Proof.
  intro H. pose proof (YearFromDay_spec a) as Ha. pose proof (YearFromDay_spec b) as Hb.
  destruct (Z.le_gt_cases (YearFromDay a) (YearFromDay b)) as [L | G]; [exact L |].
  pose proof (DayFromYear_mono (YearFromDay b + 1) (YearFromDay a)). lia.
Qed.

End CalendarFacts.

Section CivilDateFacts.

Import JsDate.

Lemma mes_y_dia (leap x : Z) :
  0 <= leap <= 1 -> 0 <= x < 365 + leap ->
  0 <= monthOfDay leap x <= 11
  /\ 1 <= x - monthStart leap (monthOfDay leap x) + 1 <= 31.
Proof.
  intros Hl Hx. unfold monthOfDay.
  repeat match goal with
         | |- context [if ?a <? ?b then _ else _] => destruct (Z.ltb_spec a b)
         end; cbn [monthStart]; lia.
Qed.

(** Within a year, a later day has a later month, or the same month and a
    later day of the month. *)
Lemma mes_y_dia_mono (leap x x' : Z) :
  0 <= leap <= 1 -> 0 <= x -> x < x' -> x' < 365 + leap ->
  (monthOfDay leap x + 1) * 100 + (x - monthStart leap (monthOfDay leap x) + 1)
  < (monthOfDay leap x' + 1) * 100 + (x' - monthStart leap (monthOfDay leap x') + 1).
Proof.
  intros Hl H0 H1 H2.
  destruct (mes_y_dia leap x Hl ltac:(lia)) as [Hm Hd].
  destruct (mes_y_dia leap x' Hl ltac:(lia)) as [Hm' Hd'].
  destruct (Z.eq_dec (monthOfDay leap x) (monthOfDay leap x')) as [E | N].
  - rewrite <- E in *. lia.
  - assert (L : monthOfDay leap x < monthOfDay leap x').
    { clear Hm Hd Hm' Hd'. revert N. unfold monthOfDay.
      repeat match goal with
             | |- context [if ?a <? ?b then _ else _] => destruct (Z.ltb_spec a b)
             end; lia. }
    lia.
Qed.

Lemma civil_de_dia (n : Z) :
  0 <= bisiestoDe n <= 1
  /\ 0 <= diaDelAnio n < 365 + bisiestoDe n
  /\ 0 <= mesDe n <= 11
  /\ 1 <= diaDelMes n <= 31
  /\ MakeDay (anioDe n) (mesDe n) (diaDelMes n) = n.
Proof.
  pose proof (YearFromDay_spec n) as Hy. pose proof (DaysInYear_cases (anioDe n)) as Hc.
  assert (Hl : 0 <= bisiestoDe n <= 1 /\ DaysInYear (anioDe n) = 365 + bisiestoDe n).
  { unfold bisiestoDe. destruct (Z.eqb_spec (DaysInYear (anioDe n)) 366); lia. }
  assert (Hx : 0 <= diaDelAnio n < 365 + bisiestoDe n).
  { unfold diaDelAnio, anioDe in *. unfold DaysInYear in Hl. lia. }
  destruct (mes_y_dia (bisiestoDe n) (diaDelAnio n) (proj1 Hl) Hx) as [Hm Hd].
  split; [exact (proj1 Hl) |]. split; [exact Hx |]. split; [exact Hm |].
  split; [exact Hd |].
  unfold MakeDay. fold (mesDe n) in Hm.
  rewrite (Z.div_small (mesDe n) 12) by lia.
  rewrite (Z.mod_small (mesDe n) 12) by lia.
  rewrite Z.add_0_r. fold (bisiestoDe n).
  unfold diaDelMes, diaDelAnio. lia.
Qed.

(** The civil dates follow the order of the days. *)
Lemma numeroDeDia_mono (a b : Z) : a < b -> numeroDeDia a < numeroDeDia b.
Proof.
  intro H.
  destruct (civil_de_dia a) as [Hla [Hxa [Hma [Hda _]]]].
  destruct (civil_de_dia b) as [Hlb [Hxb [Hmb [Hdb _]]]].
  pose proof (YearFromDay_mono a b ltac:(lia)) as Hy. fold (anioDe a) (anioDe b) in Hy.
  unfold numeroDeDia.
  destruct (Z.eq_dec (anioDe a) (anioDe b)) as [E | N]; [| lia].
  assert (El : bisiestoDe a = bisiestoDe b) by (unfold bisiestoDe; now rewrite E).
  assert (Hx : diaDelAnio a < diaDelAnio b) by (unfold diaDelAnio; rewrite E; lia).
  pose proof (mes_y_dia_mono (bisiestoDe b) (diaDelAnio a) (diaDelAnio b)
                Hlb ltac:(lia) Hx ltac:(lia)) as Hm.
  unfold diaDelMes, mesDe. rewrite El, E. lia.
Qed.

Lemma numeroDeDia_order (a b : Z) : numeroDeDia a < numeroDeDia b <-> a < b.
Proof.
  split; [| apply numeroDeDia_mono].
  intro H. destruct (Z.lt_trichotomy a b) as [L | [E | G]]; [exact L | subst; lia |].
  apply numeroDeDia_mono in G. lia.
Qed.

End CivilDateFacts.

(** ** Day-keys as strings *)

Section DayKeyStrings.

Lemma digito_cases (v : Z) (P : Z -> Prop) :
  0 <= v <= 9 ->
  P 0 -> P 1 -> P 2 -> P 3 -> P 4 -> P 5 -> P 6 -> P 7 -> P 8 -> P 9 -> P v.
Proof.
  intros H P0 P1 P2 P3 P4 P5 P6 P7 P8 P9.
  assert (E : v = 0 \/ v = 1 \/ v = 2 \/ v = 3 \/ v = 4 \/ v = 5 \/ v = 6 \/ v = 7
              \/ v = 8 \/ v = 9) by lia.
  repeat (destruct E as [-> | E]; [assumption |]). now subst.
Qed.

Lemma digitValue_digito (v : Z) :
  0 <= v <= 9 -> JsString.digitValue (digito v) = Some v.
Proof. intro H. apply (digito_cases v); [exact H | reflexivity ..]. Qed.

Lemma compare_digito (u v : Z) :
  0 <= u <= 9 -> 0 <= v <= 9 -> Ascii.compare (digito u) (digito v) = (u ?= v).
Proof.
  intros Hu Hv. apply (digito_cases u); [exact Hu | ..];
    apply (digito_cases v); try exact Hv; reflexivity.
Qed.

Lemma string_of_consDigito (v : Z) (d : Decimal.uint) :
  0 <= v <= 9 ->
  NilZero.string_of_uint (consDigito v d)
  = String (digito v) (NilEmpty.string_of_uint d).
Proof. intro H. apply (digito_cases v); [exact H | reflexivity ..]. Qed.

Lemma of_uint_acc_consDigito (v : Z) (d : Decimal.uint) (acc : positive) :
  0 <= v <= 9 ->
  Pos.of_uint_acc (consDigito v d) acc
  = Pos.of_uint_acc d (Z.to_pos (v + 10 * Z.pos acc)).
Proof.
  intro H. apply (digito_cases v); [exact H | ..];
    cbn [consDigito Pos.of_uint_acc]; f_equal; lia.
Qed.

Lemma of_uint_consDigito (v : Z) (d : Decimal.uint) :
  1 <= v <= 9 ->
  N.of_uint (consDigito v d) = N.pos (Pos.of_uint_acc d (Z.to_pos v))
  /\ Decimal.unorm (consDigito v d) = consDigito v d.
Proof.
  intro H. assert (H0 : 0 <= v <= 9) by lia. revert H.
  apply (digito_cases v); [exact H0 | intro; lia | intros _; split; reflexivity ..].
Qed.

Lemma decimal_cuatro (y : Z) :
  1000 <= y <= 9999 -> JsString.decimal y = cuatroDigitos y.
Proof.
  intro H.
  assert (B : 10 * (10 * (10 * (y / 1000) + y / 100 mod 10) + y / 10 mod 10) + y mod 10 = y
              /\ 1 <= y / 1000 <= 9 /\ 0 <= y / 100 mod 10 <= 9
              /\ 0 <= y / 10 mod 10 <= 9 /\ 0 <= y mod 10 <= 9)
    by (Z.div_mod_to_equations; lia).
  destruct B as [Ey [B1 [B2 [B3 B4]]]].
  set (v1 := y / 1000) in *. set (v2 := y / 100 mod 10) in *.
  set (v3 := y / 10 mod 10) in *. set (v4 := y mod 10) in *.
  set (D := consDigito v1 (consDigito v2 (consDigito v3 (consDigito v4 Decimal.Nil)))).
  assert (E : N.of_uint D = Z.to_N y).
  { unfold D. rewrite (proj1 (of_uint_consDigito v1 _ B1)).
    rewrite !of_uint_acc_consDigito by assumption. cbn [Pos.of_uint_acc]. lia. }
  unfold JsString.decimal, cuatroDigitos. fold v1 v2 v3 v4.
  rewrite <- E, DecimalN.Unsigned.to_of. unfold D.
  rewrite (proj2 (of_uint_consDigito v1 _ B1)).
  rewrite string_of_consDigito by lia.
  assert (S : forall v d, 0 <= v <= 9 ->
                NilEmpty.string_of_uint (consDigito v d)
                = String (digito v) (NilEmpty.string_of_uint d)).
  { intros v d Hv. apply (digito_cases v); [exact Hv | reflexivity ..]. }
  rewrite !S by assumption. reflexivity.
Qed.

Lemma pad2_dos (n : Z) : 0 <= n <= 99 -> JsString.pad2 n = dosDigitos n.
Proof.
  intro H.
  assert (A : forallb (fun i => (JsString.pad2 (Z.of_nat i) =? dosDigitos (Z.of_nat i))%string)
                (seq 0 100) = true) by (vm_compute; reflexivity).
  rewrite forallb_forall in A. specialize (A (Z.to_nat n)).
  replace (Z.of_nat (Z.to_nat n)) with n in A by lia.
  apply String.eqb_eq, A. apply in_seq. lia.
Qed.

Lemma claveDeDia_claveDe (n : Z) :
  1000 <= anioDe n <= 9999 ->
  claveDeDia n = claveDe (anioDe n) (mesDe n + 1) (diaDelMes n).
Proof.
  intro Hy. destruct (civil_de_dia n) as [_ [_ [Hm [Hd _]]]].
  unfold claveDeDia, claveDe.
  rewrite (decimal_cuatro _ Hy), (pad2_dos (mesDe n + 1)), (pad2_dos (diaDelMes n)) by lia.
  reflexivity.
Qed.

End DayKeyStrings.

Section DayKeyParsing.

Import JsDate.

(** [Date.parse] reads the midnight of a day-key as that of its civil
    date. *)
Lemma parseIsoLocal_digits (host : TimeZone)
    (c1 c2 c3 c4 c5 c6 c7 c8 : ascii) (v1 v2 v3 v4 v5 v6 v7 v8 : Z) :
  JsString.digitValue c1 = Some v1 -> JsString.digitValue c2 = Some v2 ->
  JsString.digitValue c3 = Some v3 -> JsString.digitValue c4 = Some v4 ->
  JsString.digitValue c5 = Some v5 -> JsString.digitValue c6 = Some v6 ->
  JsString.digitValue c7 = Some v7 -> JsString.digitValue c8 = Some v8 ->
  let y := 10 * (10 * (10 * (10 * 0 + v1) + v2) + v3) + v4 in
  let m := 10 * (10 * 0 + v5) + v6 in
  let d := 10 * (10 * 0 + v7) + v8 in
  1 <= m <= 12 -> 1 <= d <= 31 ->
  parseIsoLocal host
    (String c1 (String c2 (String c3 (String c4
       (String "-" (String c5 (String c6
          (String "-" (String c7 (String c8 "T00:00:00"))))))))))
  = TimeClip (UTC host (utcOf y m d 0 0 0)).
Proof.
  intros H1 H2 H3 H4 H5 H6 H7 H8 y m d Hm Hd.
  unfold parseIsoLocal.
  cbn [String.length Nat.eqb substring String.eqb Ascii.eqb Bool.eqb andb
       JsString.parseDigits JsString.digitsValue].
  rewrite H1, H2, H3, H4, H5, H6, H7, H8.
  fold y m d.
  replace (JsString.digitValue "0") with (Some 0) by reflexivity.
  cbn [Z.mul Z.add Z.leb Z.compare andb].
  replace (1 <=? m) with true by (symmetry; apply Z.leb_le; lia).
  replace (m <=? 12) with true by (symmetry; apply Z.leb_le; lia).
  replace (1 <=? d) with true by (symmetry; apply Z.leb_le; lia).
  replace (d <=? 31) with true by (symmetry; apply Z.leb_le; lia).
  reflexivity.
Qed.

Lemma cuatro_valor (y : Z) :
  0 <= y <= 9999 ->
  10 * (10 * (10 * (10 * 0 + y / 1000) + y / 100 mod 10) + y / 10 mod 10) + y mod 10 = y
  /\ 0 <= y / 1000 <= 9 /\ 0 <= y / 100 mod 10 <= 9
  /\ 0 <= y / 10 mod 10 <= 9 /\ 0 <= y mod 10 <= 9.
Proof. intro H. Z.div_mod_to_equations. lia. Qed.

Lemma dos_valor (n : Z) :
  0 <= n <= 99 ->
  10 * (10 * 0 + n / 10) + n mod 10 = n /\ 0 <= n / 10 <= 9 /\ 0 <= n mod 10 <= 9.
Proof. intro H. Z.div_mod_to_equations. lia. Qed.

Lemma parseIsoLocal_claveDe (host : TimeZone) (y m d : Z) :
  0 <= y <= 9999 -> 1 <= m <= 12 -> 1 <= d <= 31 ->
  parseIsoLocal host (claveDe y m d ++ "T00:00:00")%string
  = TimeClip (UTC host (utcOf y m d 0 0 0)).
Proof.
  intros Hy Hm Hd.
  destruct (cuatro_valor y Hy) as [Ey [B1 [B2 [B3 B4]]]].
  destruct (dos_valor m ltac:(lia)) as [Em [B5 B6]].
  destruct (dos_valor d ltac:(lia)) as [Ed [B7 B8]].
  pose proof (parseIsoLocal_digits host _ _ _ _ _ _ _ _ _ _ _ _ _ _ _ _
                (digitValue_digito _ B1) (digitValue_digito _ B2)
                (digitValue_digito _ B3) (digitValue_digito _ B4)
                (digitValue_digito _ B5) (digitValue_digito _ B6)
                (digitValue_digito _ B7) (digitValue_digito _ B8)) as P.
  cbv zeta in P. rewrite Ey, Em, Ed in P. exact (P Hm Hd).
Qed.

(** The order of two day-keys as strings is the order of their civil
    dates. *)
Lemma compare_claveDe (y m d y' m' d' : Z) :
  0 <= y <= 9999 -> 0 <= m <= 99 -> 0 <= d <= 99 ->
  0 <= y' <= 9999 -> 0 <= m' <= 99 -> 0 <= d' <= 99 ->
  (String.compare (claveDe y m d) (claveDe y' m' d') = Lt
   <-> y * 10000 + m * 100 + d < y' * 10000 + m' * 100 + d').
Proof.
  intros Hy Hm Hd Hy' Hm' Hd'.
  destruct (cuatro_valor y Hy) as [Ey [B1 [B2 [B3 B4]]]].
  destruct (dos_valor m Hm) as [Em [B5 B6]].
  destruct (dos_valor d Hd) as [Ed [B7 B8]].
  destruct (cuatro_valor y' Hy') as [Ey' [B1' [B2' [B3' B4']]]].
  destruct (dos_valor m' Hm') as [Em' [B5' B6']].
  destruct (dos_valor d' Hd') as [Ed' [B7' B8']].
  unfold claveDe, cuatroDigitos, dosDigitos.
  cbn [append String.compare].
  rewrite !compare_digito by assumption.
  replace (Ascii.compare "-" "-") with Eq by reflexivity.
  repeat match goal with
         | |- context [?a ?= ?b] => destruct (Z.compare_spec a b)
         end;
    (split; intro; try discriminate; try reflexivity; lia).
Qed.

End DayKeyParsing.

(** ** The streak on a host whose clock has a fixed offset *)

Section StreakOnFixedOffsetHost.

Import JsDate Progreso.

Variable off : Z.
Variable madridOffset : Z -> Z.

Lemma dayKeyMadrid_tiempo (Date_parse : string -> option Z) (d : DateArg) :
  dayKeyMadrid madridOffset Date_parse d
  = keyOfTime madridOffset (tiempoDe Date_parse d).
Proof.
  destruct d as [| tv | s]; try reflexivity.
  simpl. destruct (truthyStr s); reflexivity.
Qed.

Lemma partValue_formatToParts (t : Z) :
  let l := t + madridOffset t in
  partValue "year" (formatToParts madridOffset t)
  = JsString.decimal (if YearFromTime l <=? 0 then 1 - YearFromTime l else YearFromTime l)
  /\ partValue "month" (formatToParts madridOffset t) = JsString.pad2 (MonthFromTime l + 1)
  /\ partValue "day" (formatToParts madridOffset t) = JsString.pad2 (DateFromTime l).
Proof. repeat split. Qed.

Lemma keyOfTime_claveDeDia (t : Z) :
  1 <= YearFromTime (t + madridOffset t) ->
  keyOfTime madridOffset (Some t) = Some (claveDeDia (diaMadrid madridOffset t)).
Proof.
  intro Hy. unfold keyOfTime. cbv zeta.
  destruct (partValue_formatToParts t) as [-> [-> ->]].
  rewrite decimal_not_empty, !pad2_not_empty. cbn [andb].
  replace (YearFromTime (t + madridOffset t) <=? 0) with false
    by (symmetry; apply Z.leb_gt; lia).
  unfold claveDeDia, diaDelMes, mesDe, diaDelAnio, bisiestoDe, anioDe, diaMadrid,
    DateFromTime, MonthFromTime, InLeapYear, DayWithinYear, YearFromTime.
  reflexivity.
Qed.

Lemma dia_en_rango (n : Z) :
  1000 <= anioDe n <= 9999 -> -354285 <= n <= 2932896.
Proof.
  intro H. pose proof (YearFromDay_spec n) as Hn. fold (anioDe n) in Hn.
  pose proof (DayFromYear_mono 1000 (anioDe n) ltac:(lia)) as H1.
  pose proof (DayFromYear_mono (anioDe n + 1) 10000 ltac:(lia)) as H2.
  change (DayFromYear 1000) with (-354285) in H1.
  change (DayFromYear 10000) with 2932897 in H2. lia.
Qed.

(** The midnight that the host reads for the day-key of a day. *)
Lemma parse_claveDeDia (offset n : Z) :
  Z.abs offset <= msPerDay -> 1000 <= anioDe n <= 9999 ->
  parseIsoLocal (fixedZone offset) (claveDeDia n ++ "T00:00:00")%string
  = Some (n * msPerDay - offset).
Proof.
  intros Ho Hy. destruct (civil_de_dia n) as [_ [_ [Hm [Hd Hmk]]]].
  pose proof (dia_en_rango n Hy) as Hn.
  rewrite (claveDeDia_claveDe n Hy).
  rewrite parseIsoLocal_claveDe by lia.
  unfold utcOf, UTC, fixedZone, MakeDate, MakeTime. cbn [offsetAtLocal].
  replace (mesDe n + 1 - 1) with (mesDe n) by lia. rewrite Hmk.
  unfold TimeClip.
  replace (Z.abs (n * msPerDay + (0 * msPerHour + 0 * msPerMinute + 0 * msPerSecond + 0)
                  - offset) <=? maxTime) with true.
  - f_equal. lia.
  - symmetry. apply Z.leb_le. unfold msPerDay, maxTime in *. lia.
Qed.

Lemma dayNumberUTC_claveDeDia (n : Z) :
  1000 <= anioDe n <= 9999 -> dayNumberUTC (claveDeDia n) = n.
Proof.
  intro Hy. unfold dayNumberUTC, tzUTC.
  rewrite (parse_claveDeDia 0 n) by (unfold msPerDay; simpl; lia || exact Hy).
  unfold Day. rewrite Z.sub_0_r. apply Z.div_mul. discriminate.
Qed.

(** [Date.parse] of the host reads the midnight of a day-key, a date-time
    without offset, as that midnight on a clock that is [off] milliseconds
    ahead of UTC. Nothing is assumed of what it does with other strings. *)
Variable Date_parse : string -> option Z.
Hypothesis reads_midnights :
  forall n, 1000 <= anioDe n <= 9999 ->
            Date_parse (claveDeDia n ++ "T00:00:00")%string = Some (n * msPerDay - off).

Lemma oneDayApart_claveDeDia (a b : Z) :
  1000 <= anioDe a <= 9999 -> 1000 <= anioDe b <= 9999 ->
  oneDayApart Date_parse (claveDeDia a) (claveDeDia b) = (a - b =? 1).
Proof.
  intros Ha Hb. unfold oneDayApart.
  rewrite (reads_midnights a Ha), (reads_midnights b Hb).
  unfold msPerDay.
  destruct (Z.eqb_spec (a - b) 1) as [E | N].
  - apply Z.eqb_eq. lia.
  - apply Z.eqb_neq. lia.
Qed.

Lemma compare_claveDeDia (a b : Z) :
  1000 <= anioDe a <= 9999 -> 1000 <= anioDe b <= 9999 ->
  (String.compare (claveDeDia a) (claveDeDia b) = Lt <-> a < b).
Proof.
  intros Ha Hb.
  destruct (civil_de_dia a) as [_ [_ [Hma [Hda _]]]].
  destruct (civil_de_dia b) as [_ [_ [Hmb [Hdb _]]]].
  rewrite (claveDeDia_claveDe a Ha), (claveDeDia_claveDe b Hb).
  rewrite compare_claveDe by lia.
  apply numeroDeDia_order.
Qed.

Variable dates : list DateArg.

Hypothesis years_in_range :
  forall d t, In d dates ->
              tiempoDe Date_parse d = Some t ->
              1000 <= YearFromTime (t + madridOffset t) <= 9999.

(** The days of the set are the keys of the days on which there is a
    date. *)
Lemma daySet_activo (k : string) :
  In k (daySet madridOffset Date_parse dates)
  <-> exists n, activo madridOffset Date_parse dates n
                /\ 1000 <= anioDe n <= 9999 /\ k = claveDeDia n.
Proof.
  rewrite daySet_In. unfold dayKeys. rewrite in_flat_map. split.
  - intros [[d [Hd Hk]] _]. rewrite dayKeyMadrid_tiempo in Hk.
    destruct (tiempoDe Date_parse d) as [t |] eqn:Et;
      [| destruct Hk].
    pose proof (years_in_range d t Hd Et) as Hy.
    rewrite keyOfTime_claveDeDia in Hk by lia. destruct Hk as [<- | []].
    exists (diaMadrid madridOffset t). split; [exists d, t; auto |].
    split; [exact Hy | reflexivity].
  - intros [n [[d [t [Hd [Et En]]]] [Hy ->]]].
    pose proof (years_in_range d t Hd Et) as Hy'.
    assert (Ek : dayKeyMadrid madridOffset Date_parse d
                 = Some (claveDeDia n)).
    { rewrite dayKeyMadrid_tiempo, Et, keyOfTime_claveDeDia by lia. now rewrite En. }
    split.
    + exists d. split; [exact Hd |]. rewrite Ek. now left.
    + exact (dayKeyMadrid_truthy madridOffset _ d _ Ek).
Qed.

End StreakOnFixedOffsetHost.

(** X17. On a host that reads the midnight of a day-key on a clock with a
    fixed offset from UTC (a server in UTC, for instance), whatever its
    [Date.parse] does with other strings, and for dates that fall in the
    years 1000 to 9999 of the calendar of Europe/Madrid, the streak is the
    length of the run of consecutive calendar days of Europe/Madrid, each
    with at least one date, that ends on the latest day with a date: every
    one of the [streak] days up to that latest day has a date, and the day
    before them has none. The dates may be [Date] objects or strings; a
    string counts on the day of the time value that the host's [Date.parse]
    gives for it. *)
Theorem streak_is_the_run_of_days_on_a_fixed_offset_host
    (off : Z) (madridOffset : Z -> Z) (Date_parse : string -> option Z)
    (dates : list Progreso.DateArg) :
  let dia := activo madridOffset Date_parse dates in
  let streak := Progreso.computeStreak madridOffset Date_parse dates in
  (forall n, 1000 <= anioDe n <= 9999 ->
             Date_parse (claveDeDia n ++ "T00:00:00")%string
             = Some (n * JsDate.msPerDay - off)) ->
  (forall d t, In d dates -> tiempoDe Date_parse d = Some t ->
               1000 <= JsDate.YearFromTime (t + madridOffset t) <= 9999) ->
  (exists n, dia n) ->
  exists top,
    dia top
    /\ (forall n, dia n -> n <= top)
    /\ 1 <= streak
    /\ (forall i, 0 <= i < streak -> dia (top - i))
    /\ ~ dia (top - streak).
Proof.
  intros dia streak Hm Hy [n0 Hn0].
  assert (Hkey : forall k,
             In k (Progreso.daySet madridOffset Date_parse dates)
             <-> exists n, dia n /\ 1000 <= anioDe n <= 9999 /\ k = claveDeDia n)
    by (intro k; apply daySet_activo; assumption).
  assert (Hrange : forall n, dia n -> 1000 <= anioDe n <= 9999).
  { intros n [d [t [Hd [Et <-]]]]. exact (Hy d t Hd Et). }
  destruct (computeStreak_counts_run madridOffset Date_parse dayNumberUTC dates)
    as [top [Ht [Hmax [H1 [Hrun Hstop]]]]].
  - intros a b Ha Hb. apply Hkey in Ha, Hb.
    destruct Ha as [na [_ [Ra ->]]]. destruct Hb as [nb [_ [Rb ->]]].
    rewrite !dayNumberUTC_claveDeDia by assumption.
    apply (oneDayApart_claveDeDia off); assumption.
  - intros a b Ha Hb. apply Hkey in Ha, Hb.
    destruct Ha as [na [_ [Ra ->]]]. destruct Hb as [nb [_ [Rb ->]]].
    rewrite !dayNumberUTC_claveDeDia by assumption.
    apply compare_claveDeDia; assumption.
  - intro E. assert (Hin : In (claveDeDia n0)
                             (Progreso.daySet madridOffset Date_parse dates)).
    { apply Hkey. exists n0. auto. }
    rewrite E in Hin. exact Hin.
  - fold streak in H1, Hrun, Hstop.
    apply Hkey in Ht. destruct Ht as [nt [Dt [Rt ->]]].
    rewrite dayNumberUTC_claveDeDia in Hmax, Hrun, Hstop by assumption.
    exists nt. split; [exact Dt |]. split; [| split; [exact H1 | split]].
    + intros n Hn. specialize (Hmax (claveDeDia n)).
      rewrite dayNumberUTC_claveDeDia in Hmax by auto.
      apply Hmax, Hkey. exists n. auto.
    + intros i Hi. destruct (Hrun i Hi) as [k [Hk Ek]].
      apply Hkey in Hk. destruct Hk as [n [Dn [Rn ->]]].
      rewrite dayNumberUTC_claveDeDia in Ek by assumption. now rewrite <- Ek.
    + intro Hd. apply (Hstop (claveDeDia (nt - streak))).
      * apply Hkey. exists (nt - streak). auto.
      * apply dayNumberUTC_claveDeDia. auto.
Qed.

Lemma streak_is_the_run_of_days_on_a_fixed_offset_host_witness :
  Ejemplos.rachaUTC mayoConCadena = 2
  /\ exists top,
       activo (JsDate.offsetAtUtc JsDate.tzMadrid)
         (JsDate.parseIsoLocal (JsDate.fixedZone 0)) mayoConCadena top
       /\ 1 <= Progreso.computeStreak (JsDate.offsetAtUtc JsDate.tzMadrid)
                 (JsDate.parseIsoLocal (JsDate.fixedZone 0)) mayoConCadena.
Proof.
  split; [vm_compute; reflexivity |].
  destruct (streak_is_the_run_of_days_on_a_fixed_offset_host
              0 (JsDate.offsetAtUtc JsDate.tzMadrid)
              (JsDate.parseIsoLocal (JsDate.fixedZone 0)) mayoConCadena)
    as [top [H1 [_ [H2 _]]]].
  - intros n Hn. apply parse_claveDeDia; [vm_compute; discriminate | exact Hn].
  - intros d t Hd Et.
    repeat (destruct Hd as [<- | Hd];
            [vm_compute in Et; try discriminate Et; injection Et as <-;
             vm_compute; split; discriminate |]).
    destruct Hd.
  - eexists. exists (Ejemplos.alas 2024 5 15 12). eexists.
    split; [now left |]. split; reflexivity.
  - exists top. split; assumption.
Defined.

(** ** Real errors and the cut at three *)

Lemma firstn_keeps_another {A : Type} (f : A -> string) (c : string) (l : list A) :
  NoDup (map f l) ->
  (exists x, In x l /\ f x <> c) ->
  exists y, In y (firstn 3 l) /\ f y <> c.
Proof.
  intros Hnd [x [Hx Hc]].
  destruct l as [| a [| b l']]; [destruct Hx | |].
  - exists x. auto.
  - destruct (string_dec (f a) c) as [Ea | Na].
    + exists b. split; [simpl; auto |].
      inversion Hnd as [| ? ? Hna _]; subst. intro Eb. apply Hna.
      left. congruence.
    + exists a. split; [now left | exact Na].
Qed.

(** X18. When the labels of the tags are plain names, the recommendation
    sees a real error exactly when some tag of the history has a label other
    than AC_UNK: keeping only the three most frequent errors never hides the
    real ones behind the sentinel, and a history whose only tags are the
    sentinel of failed classifications has no real error. *)
Theorem real_errors_survive_the_cut (rs : list Progreso.Resultado) :
  Forall (fun k => plainKey k = true) (etiquetasDe rs) ->
  (Progreso.hasRealErrors (Progreso.erroresFrecuentesDe rs) = true
   <-> exists k, In k (etiquetasDe rs) /\ k <> "AC_UNK"%string).
Proof.
  intro Hp. pose proof Hp as Hp0. rewrite etiquetasDe_flat in Hp.
  assert (Hp' : Forall (fun e => plainKey (etiqueta e) = true)
                  (flat_map Progreso.errores rs)).
  { apply Forall_forall. intros e He. rewrite Forall_forall in Hp.
    apply Hp. now apply in_map. }
  destruct (contar_invariant _ Hp') as [Ha Hb].
  unfold Progreso.erroresFrecuentesDe, JsArray.slice0.
  rewrite mapaErroresDe_flat.
  set (m := fold_left Progreso.contar (flat_map Progreso.errores rs) []) in *.
  assert (Hplain : Forall (fun p => JsObject.arrayIndex (fst p) = None) m).
  { apply Forall_forall. intros p Hi.
    assert (Hk : In (fst p) (map etiqueta (flat_map Progreso.errores rs))).
    { apply JsSet_ofList_In. rewrite <- Ha. now apply in_map. }
    rewrite Forall_forall in Hp. apply Hp in Hk. now apply plainKey_spec in Hk. }
  unfold JsObject.values. rewrite (ownEntries_plain m Hplain).
  assert (Hlab : map Progreso.err_etiqueta (map snd m) = map fst m).
  { rewrite map_map. apply map_ext_in. intros p Hi.
    rewrite Forall_forall in Hb. now destruct (Hb p Hi). }
  set (ranking := JsArray.sort Progreso.porVeces (map snd m)).
  assert (Hperm : Permutation (map fst m) (map Progreso.err_etiqueta ranking)).
  { rewrite <- Hlab. apply Permutation_map. apply sort_perm. }
  assert (Hkeys : forall k, In k (map Progreso.err_etiqueta ranking)
                            <-> In k (etiquetasDe rs)).
  { intro k. rewrite etiquetasDe_flat. split; intro H.
    - apply JsSet_ofList_In. rewrite <- Ha.
      eapply Permutation_in; [apply Permutation_sym, Hperm | exact H].
    - eapply Permutation_in; [exact Hperm |]. rewrite Ha. now apply JsSet_ofList_In. }
  rewrite hasRealErrors_spec. split.
  - intros [e [He [_ Hu]]]. exists (Progreso.err_etiqueta e). split; [| exact Hu].
    apply Hkeys. apply in_map. now apply In_firstn in He.
  - intros [k [Hk Hu]]. apply Hkeys in Hk. apply in_map_iff in Hk.
    destruct Hk as [x [Ex Hx]].
    destruct (firstn_keeps_another Progreso.err_etiqueta "AC_UNK" ranking) as [y [Hy Ny]].
    + eapply Permutation_NoDup; [exact Hperm |]. rewrite Ha. apply JsSet_ofList_NoDup.
    + exists x. split; [exact Hx | congruence].
    + exists y. split; [exact Hy |]. split; [| exact Ny].
      assert (Hin : In (Progreso.err_etiqueta y) (etiquetasDe rs)).
      { apply Hkeys. apply in_map. now apply In_firstn in Hy. }
      rewrite Forall_forall in Hp0. apply Hp0 in Hin. apply plainKey_spec in Hin.
      destruct Hin as [Ht _]. intro E. rewrite E in Ht. discriminate.
Qed.

Lemma real_errors_survive_the_cut_witness :
  Progreso.hasRealErrors (Progreso.erroresFrecuentesDe Ejemplos.historialDesconocido) = true
  <-> exists k, In k (etiquetasDe Ejemplos.historialDesconocido) /\ k <> "AC_UNK"%string.
Proof.
  refine (real_errors_survive_the_cut Ejemplos.historialDesconocido _).
  apply Forall_forall. apply (proj1 (forallb_forall plainKey _)).
  vm_compute. reflexivity.
Defined.
